(** * weedbox/common-modules: the segmented message log and its archival pipeline

    A shallow embedding of
      - msg_storer (Storer): MsgStore, GetArchivedFileBySeq, getFirstSeqFromFile,
        updateIndex, archiveFile, processFilename, triggerUploader;
      - msg_storer/gcs_uploader (Uploader): msgHandler, saveFile, updateIndex;
      - nats_connector (WorkQueueConsumer): NewWorkQueueConsumerConfig,
        startConsuming, processMessage, nakDelay, Shutdown.

    Go strings are byte strings ([string]); uint64 values are [N] with the
    range written out; int64 and time.Duration are [Z] with wrap-around made
    explicit by [wrap64].  The file system, the JetStream stream and the bucket
    are fields of an explicit [World] that every operation threads through. *)

From Stdlib Require Import ZArith NArith Ascii String List Lia Bool.
From stdpp Require Import base option gmap strings list.

Local Open Scope string_scope.
Local Open Scope list_scope.

(** ** Go's error values and results *)

Inductive error : Type :=
| ErrNotExist      (* fs.ErrNotExist, recognised by os.IsNotExist *)
| ErrIO            (* any other failure of a system or network call *)
| EOF              (* io.EOF *)
| ErrSyntax        (* strconv.ErrSyntax *)
| ErrRange         (* strconv.ErrRange *)
| ErrSeqNotFound.  (* msg_storer.ErrSeqNotFound *)

Inductive result (A : Type) : Type :=
| Ok (a : A)
| Err (e : error)
| Panic.           (* a Go run-time panic, e.g. index out of range *)
Arguments Ok {A} a.
Arguments Err {A} e.
Arguments Panic {A}.

(** ** The pieces of strings, strconv, fmt and bufio that the code calls *)
Module GoStrings.

Definition colon : ascii := ":"%char.
Definition newline : ascii := "010"%char.
Definition carriage_return : ascii := "013"%char.

(** [cut sep s]: the text before and after the first [sep] of [s]. *)
Fixpoint cut (sep : ascii) (s : string) : option (string * string) :=
  match s with
  | "" => None
  | String c s' =>
      if Ascii.eqb c sep then Some ("", s')
      else match cut sep s' with
           | Some (a, b) => Some (String c a, b)
           | None => None
           end
  end.

(** strings.SplitN(s, ":", 2): at most two fields, split at the first colon. *)
Definition SplitN2 (s : string) : list string :=
  match cut colon s with
  | Some (a, b) => [a; b]
  | None => [s]
  end.

(** Indexing a slice; out of range is a run-time panic. *)
Definition index (l : list string) (i : nat) : result string :=
  match l !! i with
  | Some x => Ok x
  | None => Panic
  end.

(** bufio.Reader.ReadString('\n') on a fresh reader: the first line with its
    delimiter, or io.EOF when the data ends before a delimiter. *)
Definition ReadString_newline (data : string) : result string :=
  match cut newline data with
  | Some (a, _) => Ok (a +:+ String newline "")
  | None => Err EOF
  end.

Definition is_digit (c : ascii) : bool :=
  ((48 <=? N_of_ascii c) && (N_of_ascii c <=? 57))%N.

Definition digit_val (c : ascii) : N := (N_of_ascii c - 48)%N.

(** Strings of decimal digits. *)
Fixpoint all_digits (s : string) : bool :=
  match s with
  | "" => true
  | String c s' => is_digit c && all_digits s'
  end.

Definition maxUint64 : N := 18446744073709551615%N.

(** strconv.ParseUint(s, 10, 64), with its loop: a byte that is not a decimal
    digit is a syntax error, a value above 2^64-1 a range error. *)
Fixpoint ParseUint_loop (s : string) (n : N) : result N :=
  match s with
  | "" => Ok n
  | String c s' =>
      if is_digit c then
        if (maxUint64 / 10 + 1 <=? n)%N then Err ErrRange
        else
          let n1 := (n * 10 + digit_val c)%N in
          if (maxUint64 <? n1)%N then Err ErrRange
          else ParseUint_loop s' n1
      else Err ErrSyntax
  end.

Definition ParseUint (s : string) : result N :=
  match s with
  | "" => Err ErrSyntax
  | _ => ParseUint_loop s 0%N
  end.

Definition digit_char (d : N) : ascii := ascii_of_N (48 + d)%N.

(** fmt's %d for an unsigned value: digits are produced from the least
    significant one; twenty of them cover every uint64. *)
Fixpoint format_digits (fuel : nat) (n : N) (acc : string) : string :=
  match fuel with
  | O => acc
  | S fuel' =>
      let acc' := String (digit_char (n mod 10)%N) acc in
      if (n / 10 =? 0)%N then acc' else format_digits fuel' (n / 10)%N acc'
  end.

Definition FormatUint (n : N) : string := format_digits 20 n "".
Arguments FormatUint : simpl never.

(** bufio.MaxScanTokenSize *)
Definition MaxScanTokenSize : N := 65536%N.

(** dropCR of bufio.ScanLines: one trailing carriage return is removed. *)
Fixpoint dropCR (s : string) : string :=
  match s with
  | "" => ""
  | String c "" => if Ascii.eqb c carriage_return then "" else s
  | String c s' => String c (dropCR s')
  end.

(** The raw lines of [data]: the text between newlines, and the text after
    the last newline when there is some. *)
Fixpoint raw_lines (data : string) (cur : string) : list string :=
  match data with
  | "" => match cur with "" => [] | _ => [cur] end
  | String c data' =>
      if Ascii.eqb c newline then cur :: raw_lines data' ""
      else raw_lines data' (cur +:+ String c "")
  end.

(** The tokens a bufio.Scanner with the default split function (ScanLines)
    yields before Scan returns false: it stops at end of input, or at a line
    that does not fit its buffer (ErrTooLong). *)
Fixpoint scan_tokens (ls : list string) : list string :=
  match ls with
  | [] => []
  | l :: ls' =>
      if (MaxScanTokenSize <=? N.of_nat (String.length l))%N then []
      else dropCR l :: scan_tokens ls'
  end.

Definition Scanner_lines (data : string) : list string :=
  scan_tokens (raw_lines data "").

(** strings.ReplaceAll(s, old, new) for a non-empty [old]; [skip] counts the
    bytes of a match that are still to be passed over. *)
Fixpoint replace_from (skip : nat) (s old new : string) : string :=
  match s with
  | "" => ""
  | String c s' =>
      match skip with
      | S k => replace_from k s' old new
      | O =>
          if String.prefix old s
          then new +:+ replace_from (String.length old - 1) s' old new
          else String c (replace_from 0 s' old new)
      end
  end.

(** A byte in the range [lo, hi]. *)
Definition byte_in (lo hi : N) (c : ascii) : bool :=
  ((lo <=? N_of_ascii c) && (N_of_ascii c <=? hi))%N.

(** The width that utf8.DecodeRuneInString reports for the first UTF-8
    sequence of [s]: 0 for the empty string, the length of a well-formed
    sequence of one to four bytes, and 1 for a byte that does not start one
    (a stray continuation byte, an overlong or surrogate encoding, a value
    above U+10FFFF, a sequence cut short). *)
Definition rune_width (s : string) : nat :=
  match s with
  | "" => 0
  | String c0 s1 =>
      let b0 := N_of_ascii c0 in
      if (b0 <? 194)%N then 1                       (* ASCII, or 0x80..0xC1 *)
      else if (b0 <? 224)%N then                    (* 0xC2..0xDF *)
        match s1 with
        | String c1 _ => if byte_in 128 191 c1 then 2 else 1
        | _ => 1
        end
      else if (b0 <? 240)%N then                    (* 0xE0..0xEF *)
        let lo := if (b0 =? 224)%N then 160%N else 128%N in
        let hi := if (b0 =? 237)%N then 159%N else 191%N in
        match s1 with
        | String c1 (String c2 _) =>
            if byte_in lo hi c1 && byte_in 128 191 c2 then 3 else 1
        | _ => 1
        end
      else if (b0 <? 245)%N then                    (* 0xF0..0xF4 *)
        let lo := if (b0 =? 240)%N then 144%N else 128%N in
        let hi := if (b0 =? 244)%N then 143%N else 191%N in
        match s1 with
        | String c1 (String c2 (String c3 _)) =>
            if byte_in lo hi c1 && byte_in 128 191 c2 && byte_in 128 191 c3 then 4 else 1
        | _ => 1
        end
      else 1                                        (* 0xF5..0xFF *)
  end.

(** strings.ReplaceAll(s, "", new): an empty [old] matches at the beginning
    of the string and after each UTF-8 sequence, so [new] is written before
    every sequence and at the end; [skip] counts the bytes of the current
    sequence that are still to be copied. *)
Fixpoint insert_at_runes (skip : nat) (s new : string) : string :=
  match s with
  | "" => new
  | String c s' =>
      match skip with
      | S k => String c (insert_at_runes k s' new)
      | O => new +:+ String c (insert_at_runes (rune_width s - 1) s' new)
      end
  end.

Definition ReplaceAll (s old new : string) : string :=
  match old with
  | "" => insert_at_runes 0 s new
  | _ => replace_from 0 s old new
  end.

End GoStrings.

(** ** The environment: files, environment variables, stream and bucket *)
Module OS.

(** storage.ACLRule: the only rule the code installs is AllUsers/RoleReader. *)
Inductive ACL : Type :=
| ACLDefault
| ACLPublicRead.

(** The calls that leave the process.  The trace of a run lists them in the
    order they were made, whether they succeeded or not. *)
Inductive Event : Type :=
| EvMkdirAll (dir : string)
| EvOpenFile (p : string)                      (* O_APPEND|O_CREATE|O_WRONLY *)
| EvStat (p : string)
| EvWriteString (p data : string)
| EvRename (old new : string)
| EvOpen (p : string)                          (* os.Open, read only *)
| EvReadFile (p : string)
| EvRemoveAll (p : string)
| EvPublish (subject data msgid : string)      (* js.Publish with nats.MsgId *)
| EvCopy (bucket key data : string) (acl : ACL) (* io.Copy into the object writer *)
| EvClose (bucket key : string)                (* Close of the object writer *)
| EvAck (data : string)
| EvNak (data : string).

Record World : Type := mkWorld {
  files : gmap string string;           (* regular files by path *)
  faulty : Event -> bool;               (* the calls that fail with an I/O error *)
  trace : list Event;
  TEST_MODE : string;                   (* os.Getenv("TEST_MODE") *)
  published : list (string * string * string);  (* subject, data, message id *)
  publish_outages : nat;                (* how many Publish calls fail next *)
  objects : gmap (string * string) (string * ACL)  (* bucket, key -> bytes, ACL *)
}.

Definition log (e : Event) (w : World) : World :=
  mkWorld (files w) (faulty w) (trace w ++ [e]) (TEST_MODE w)
          (published w) (publish_outages w) (objects w).

Definition set_files (f : gmap string string) (w : World) : World :=
  mkWorld f (faulty w) (trace w) (TEST_MODE w)
          (published w) (publish_outages w) (objects w).

Definition set_faulty (f : Event -> bool) (w : World) : World :=
  mkWorld (files w) f (trace w) (TEST_MODE w)
          (published w) (publish_outages w) (objects w).

Definition set_stream (p : list (string * string * string)) (k : nat) (w : World) : World :=
  mkWorld (files w) (faulty w) (trace w) (TEST_MODE w) p k (objects w).

Definition set_objects (o : gmap (string * string) (string * ACL)) (w : World) : World :=
  mkWorld (files w) (faulty w) (trace w) (TEST_MODE w)
          (published w) (publish_outages w) o.

(** Code that threads the world and may fail. *)
Definition M (A : Type) : Type := World -> result A * World.

Definition ret {A} (a : A) : M A := fun w => (Ok a, w).

Definition bind {A B} (m : M A) (k : A -> M B) : M B :=
  fun w =>
    match m w with
    | (Ok a, w') => k a w'
    | (Err e, w') => (Err e, w')
    | (Panic, w') => (Panic, w')
    end.

Definition lift {A} (r : result A) : M A := fun w => (r, w).

(** os.MkdirAll; directories themselves are not part of the model. *)
Definition os_MkdirAll (dir : string) : M unit := fun w =>
  let w := log (EvMkdirAll dir) w in
  if faulty w (EvMkdirAll dir) then (Err ErrIO, w) else (Ok tt, w).

(** os.OpenFile(p, O_APPEND|O_CREATE|O_WRONLY, 0644).  The handle is the path:
    the code closes a handle before it renames the file. *)
Definition os_OpenFile (p : string) : M string := fun w =>
  let w := log (EvOpenFile p) w in
  if faulty w (EvOpenFile p) then (Err ErrIO, w)
  else match files w !! p with
       | Some _ => (Ok p, w)
       | None => (Ok p, set_files (<[p := ""]> (files w)) w)
       end.

(** File.Stat followed by Size: the length in bytes. *)
Definition file_Stat (p : string) : M Z := fun w =>
  let w := log (EvStat p) w in
  if faulty w (EvStat p) then (Err ErrIO, w)
  else match files w !! p with
       | Some c => (Ok (Z.of_nat (String.length c)), w)
       | None => (Err ErrNotExist, w)
       end.

(** File.WriteString on a handle opened with O_APPEND. *)
Definition file_WriteString (p data : string) : M unit := fun w =>
  let w := log (EvWriteString p data) w in
  if faulty w (EvWriteString p data) then (Err ErrIO, w)
  else (Ok tt, set_files (<[p := default "" (files w !! p) +:+ data]> (files w)) w).

Definition os_Rename (old new : string) : M unit := fun w =>
  let w := log (EvRename old new) w in
  if faulty w (EvRename old new) then (Err ErrIO, w)
  else match files w !! old with
       | Some c => (Ok tt, set_files (<[new := c]> (delete old (files w))) w)
       | None => (Err ErrNotExist, w)
       end.

(** os.Open: the bytes a reader on the file will see. *)
Definition os_Open (p : string) : M string := fun w =>
  let w := log (EvOpen p) w in
  if faulty w (EvOpen p) then (Err ErrIO, w)
  else match files w !! p with
       | Some c => (Ok c, w)
       | None => (Err ErrNotExist, w)
       end.

Definition os_ReadFile (p : string) : M string := fun w =>
  let w := log (EvReadFile p) w in
  if faulty w (EvReadFile p) then (Err ErrIO, w)
  else match files w !! p with
       | Some c => (Ok c, w)
       | None => (Err ErrNotExist, w)
       end.

(** os.RemoveAll of a regular file; a missing path is not an error. *)
Definition os_RemoveAll (p : string) : M unit := fun w =>
  let w := log (EvRemoveAll p) w in
  if faulty w (EvRemoveAll p) then (Err ErrIO, w)
  else (Ok tt, set_files (delete p (files w)) w).

Definition os_Getenv_TEST_MODE : M string := fun w => (Ok (TEST_MODE w), w).

Definition os_IsNotExist (e : error) : bool :=
  match e with ErrNotExist => true | _ => false end.

(** js.Publish(subject, data, nats.MsgId(id)): fails while the stream is
    unreachable, then stores the message. *)
Definition js_Publish (subject data msgid : string) : M unit := fun w =>
  let w := log (EvPublish subject data msgid) w in
  match publish_outages w with
  | S k => (Err ErrIO, set_stream (published w) k w)
  | O => (Ok tt, set_stream (published w ++ [(subject, data, msgid)]) 0 w)
  end.

(** io.Copy(w, reader) into an object writer. *)
Definition gcs_Copy (bucket key data : string) (acl : ACL) : M unit := fun w =>
  let w := log (EvCopy bucket key data acl) w in
  if faulty w (EvCopy bucket key data acl) then (Err ErrIO, w) else (Ok tt, w).

(** Writer.Close: the object is stored; Attrs then gives its bucket and name. *)
Definition gcs_Close (bucket key data : string) (acl : ACL) : M (string * string) := fun w =>
  let w := log (EvClose bucket key) w in
  if faulty w (EvClose bucket key) then (Err ErrIO, w)
  else (Ok (bucket, key), set_objects (<[(bucket, key) := (data, acl)]> (objects w)) w).

(** nats.Msg.Ack and Nak; the code ignores what they return. *)
Definition msg_Ack (data : string) (w : World) : World := log (EvAck data) w.
Definition msg_Nak (data : string) (w : World) : World := log (EvNak data) w.

End OS.

Declare Scope go_scope.
Delimit Scope go_scope with go.
Notation "'do' x <- m ; k" := (OS.bind m (fun x => k))
  (at level 10, x name, m at level 100, k at level 200) : go_scope.
Notation "'do_' m ; k" := (OS.bind m (fun _ => k))
  (at level 10, m at level 100, k at level 200) : go_scope.

(** path.Join and path.Dir of Go's path package. *)
Class GoPath : Type := {
  path_Join : list string -> string;
  path_Dir : string -> string
}.

(** net/url: url.Parse followed by URL.EscapedPath. *)
Class GoURL : Type := {
  url_EscapedPath : string -> result string
}.

(** ** msg_storer: the segment manager *)
Module Storer.
Import GoStrings OS.
Local Open Scope go_scope.

Definition DefaultCurrentDB : string := "current.db".
Definition DefaultArchiveIndex : string := "archive.index".
Definition DefaultDatastore : string := "./datastore".
Definition fileSize : Z := 1024 * 1024 * 1.
Definition DefaultDomain : string := "onglai-msg".

(** fmt.Sprintf(DefaultSubject, domain, host) with
    DefaultSubject = "%s.archive.bucket.job.%s" *)
Definition DefaultSubject (domain host : string) : string :=
  domain +:+ ".archive.bucket.job." +:+ host.

(** The fields of Storer that the methods read or write. *)
Record Storer : Type := mkStorer {
  datastore : string;
  counter : N;          (* uint64 *)
  domain : string;
  hostname : string
}.

Definition set_counter (c : N) (sr : Storer) : Storer :=
  mkStorer (datastore sr) c (domain sr) (hostname sr).

(** What a loop of the model returns when its bound is used up; the bounds are
    chosen so that this never happens (triggerUploader_returns and
    MsgStore_returns below). *)
Inductive loop_result (A : Type) : Type :=
| Return (r : result A)
| OutOfFuel.
Arguments Return {A} r.
Arguments OutOfFuel {A}.

Section WithPath.
Context `{GoPath}.

Definition getFirstSeqFromFile (filename : string) : M string :=
  do content <- os_Open filename;
  do line <- lift (ReadString_newline content);
  let cols := SplitN2 line in
  lift (index cols 0).

(** The scan loop of GetArchivedFileBySeq over the lines the Scanner yields;
    [afile] is the reference retained so far. *)
Fixpoint scan_index (seq : N) (lines : list string) (afile : string) : result string :=
  match lines with
  | [] => Ok afile
  | text :: rest =>
      let parseData := SplitN2 text in
      match index parseData 0 with
      | Ok field0 =>
          match ParseUint field0 with
          | Ok archiveSeq =>
              if (archiveSeq <=? seq)%N then
                match index parseData 1 with
                | Ok field1 => scan_index seq rest field1
                | Err e => Err e
                | Panic => Panic
                end
              else Ok afile                       (* break *)
          | _ => scan_index seq rest afile        (* logged; continue *)
          end
      | Err e => Err e
      | Panic => Panic
      end
  end.

Definition GetArchivedFileBySeq (sr : Storer) (dstPath : string) (seq : N) : M string :=
  let dstDir := path_Join [datastore sr; dstPath] in
  let currentFile := path_Join [dstDir; DefaultCurrentDB] in
  do seqStr <- getFirstSeqFromFile currentFile;
  do curSeq <- lift (ParseUint seqStr);
  if (curSeq <=? seq)%N then ret currentFile
  else
    let dstFile := path_Join [dstDir; DefaultArchiveIndex] in
    do fr <- os_Open dstFile;
    do afile <- lift (scan_index seq (Scanner_lines fr) "");
    if String.eqb afile "" then lift (Err ErrSeqNotFound) else ret afile.

Definition updateIndex (filename archiveName seq : string) : M unit :=
  let data := seq +:+ ":" +:+ archiveName +:+ String newline "" in
  let dstDir := path_Dir filename in
  let indexFilename := path_Join [dstDir; DefaultArchiveIndex] in
  do indexFile <- os_OpenFile indexFilename;
  do_ file_WriteString indexFile data;
  ret tt.

(** The retry loop of triggerUploader: Publish until it succeeds. *)
Fixpoint triggerUploader_loop (fuel : nat) (subject data : string) (w : World)
  : loop_result unit * World :=
  match fuel with
  | O => (OutOfFuel, w)
  | S fuel' =>
      match js_Publish subject data data w with
      | (Ok _, w') => (Return (Ok tt), w')                       (* break *)
      | (_, w') => triggerUploader_loop fuel' subject data w'    (* sleep; continue *)
      end
  end.

(** Every path out of triggerUploader returns nil; the loop is given one
    round more than the stream has outages. *)
Definition triggerUploader (sr : Storer) (filename seq : string) : M unit := fun w =>
  let subject := DefaultSubject (domain sr) (hostname sr) in
  let data := seq +:+ ":" +:+ filename in
  match triggerUploader_loop (S (publish_outages w)) subject data w with
  | (Return r, w') => (r, w')
  | (OutOfFuel, w') => (Panic, w')
  end.

Definition archiveFile (sr : Storer) (filename : string) : M unit :=
  do seq <- getFirstSeqFromFile filename;
  do mode <- os_Getenv_TEST_MODE;
  if negb (String.eqb mode "") then
    let archivePath :=
      ReplaceAll filename (path_Join [datastore sr]) (path_Join [datastore sr; "archive"]) in
    let archiveName := path_Join [path_Dir archivePath; "MSG_" +:+ seq +:+ ".db"] in
    do_ os_MkdirAll (path_Dir archiveName);
    do_ os_Rename filename archiveName;
    updateIndex filename archiveName seq
  else
    let archiveName := path_Join [path_Dir filename; "MSG_" +:+ seq +:+ ".db"] in
    do_ os_Rename filename archiveName;
    do_ triggerUploader sr archiveName seq;
    ret tt.

Definition processFilename (sr : Storer) (dstPath : string) : M string :=
  let dstDir := path_Join [datastore sr; dstPath] in
  do_ os_MkdirAll dstDir;
  let dstFile := path_Join [dstDir; DefaultCurrentDB] in
  ret dstFile.

Definition uint64_add (a b : N) : N := ((a + b) mod 2 ^ 64)%N.

(** The [for] loop of MsgStore.  It hands back the handle to write to, and the
    Storer with its counter as the loop left it. *)
Fixpoint MsgStore_loop (fuel : nat) (sr : Storer) (dstFile : string) (w : World)
  : loop_result string * Storer * World :=
  match fuel with
  | O => (OutOfFuel, sr, w)
  | S fuel' =>
      match os_OpenFile dstFile w with
      | (Ok dst, w1) =>
          if (counter sr <? 100)%N then
            (Return (Ok dst), set_counter (uint64_add (counter sr) 1) sr, w1)   (* break *)
          else
            let sr0 := set_counter 0 sr in
            match file_Stat dst w1 with
            | (Ok size, w2) =>
                if (fileSize <=? size)%Z then
                  (* dst.Close() *)
                  match archiveFile sr0 dstFile w2 with
                  | (Ok _, w3) => MsgStore_loop fuel' sr0 dstFile w3         (* continue *)
                  | (Err e, w3) => (Return (Err e), sr0, w3)
                  | (Panic, w3) => (Return Panic, sr0, w3)
                  end
                else (Return (Ok dst), sr0, w2)                               (* break *)
            | (Err e, w2) => (Return (Err e), sr0, w2)
            | (Panic, w2) => (Return Panic, sr0, w2)
            end
      | (Err e, w1) => (Return (Err e), sr, w1)
      | (Panic, w1) => (Return Panic, sr, w1)
      end
  end.

(** MsgStore; the loop runs at most twice, because a pass that archives
    leaves the counter at 0. *)
Definition MsgStore (sr : Storer) (dstPath : string) (seq : N) (rawData : string)
  (w : World) : loop_result string * Storer * World :=
  match processFilename sr dstPath w with
  | (Ok dstFile, w0) =>
      match MsgStore_loop 2 sr dstFile w0 with
      | (Return (Ok dst), sr1, w1) =>
          let data := FormatUint seq +:+ ":" +:+ rawData +:+ String newline "" in
          match file_WriteString dst data w1 with
          | (Ok _, w2) => (Return (Ok dstFile), sr1, w2)
          | (Err e, w2) => (Return (Err e), sr1, w2)
          | (Panic, w2) => (Return Panic, sr1, w2)
          end
      | (r, sr1, w1) => (r, sr1, w1)
      end
  | (Err e, w0) => (Return (Err e), sr, w0)
  | (Panic, w0) => (Return Panic, sr, w0)
  end.

End WithPath.
End Storer.

(** ** msg_storer/gcs_uploader: the archival handler *)
Module Uploader.
Import GoStrings OS.
Local Open Scope go_scope.

Definition DefaultBucketName : string := "example.com".
Definition DefaultBucketCategory : string := "msg-store".

Record Uploader : Type := mkUploader {
  domain : string;
  bucketName : string;
  bucketCategory : string;
  hostname : string
}.

(** bucket_connector.UploaderReq *)
Record UploaderReq : Type := mkUploaderReq {
  FileName : string;
  Category : string;
  RawData : string
}.

(** nats.Msg: the handler only reads Data. *)
Record Msg : Type := mkMsg { Data : string }.

Section WithLibs.
Context `{GoPath} `{GoURL}.

Definition updateIndex (filename archiveName seq : string) : M unit :=
  let data := seq +:+ ":" +:+ archiveName +:+ String newline "" in
  let dstDir := path_Dir filename in
  let indexFilename := path_Join [dstDir; "archive.index"] in
  do indexFile <- os_OpenFile indexFilename;
  do_ file_WriteString indexFile data;
  ret tt.

Definition saveFile (u : Uploader) (req : UploaderReq) : M string :=
  let fileName := FileName req in
  let filePath := Category req +:+ "/" +:+ fileName in
  let acl := ACLPublicRead in
  do_ gcs_Copy (bucketName u) filePath (RawData req) acl;
  do attrs <- gcs_Close (bucketName u) filePath (RawData req) acl;
  do escaped <- lift (url_EscapedPath (fst attrs +:+ "/" +:+ snd attrs));
  let url := "https://" +:+ escaped in
  ret url.

(** msgHandler returns nothing; the result is [Panic] when the message data
    has no colon (mdata[1] is out of range), and [Ok tt] otherwise. *)
Definition msgHandler (u : Uploader) (m : Msg) : M unit := fun w =>
  let mdata := SplitN2 (Data m) in
  match index mdata 1 with
  | Ok archiveFilename =>
      match os_ReadFile archiveFilename w with
      | (Ok data, w1) =>
          let uploadReq := mkUploaderReq archiveFilename (bucketCategory u) data in
          match saveFile u uploadReq w1 with
          | (Ok url, w2) =>
              match (do seq <- lift (index mdata 0);
                     updateIndex archiveFilename url seq) w2 with
              | (Ok _, w3) =>
                  match os_RemoveAll archiveFilename w3 with
                  | (Ok _, w4) => (Ok tt, msg_Ack (Data m) w4)
                  | (Err _, w4) => (Ok tt, msg_Nak (Data m) w4)
                  | (Panic, w4) => (Panic, w4)
                  end
              | (Err _, w3) => (Ok tt, msg_Nak (Data m) w3)
              | (Panic, w3) => (Panic, w3)
              end
          | (Err _, w2) => (Ok tt, msg_Nak (Data m) w2)
          | (Panic, w2) => (Panic, w2)
          end
      | (Err e, w1) =>
          if os_IsNotExist e then (Ok tt, msg_Ack (Data m) w1)   (* "Skip ..." *)
          else (Ok tt, msg_Nak (Data m) w1)
      | (Panic, w1) => (Panic, w1)
      end
  | Err _ => (Panic, w)
  | Panic => (Panic, w)
  end.

End WithLibs.
End Uploader.

(** ** nats_connector: the work queue consumer *)
Module WorkQueue.

(** time.Duration counts nanoseconds in an int64. *)
Definition Nanosecond : Z := 1.
Definition Millisecond : Z := 1000000.
Definition Second : Z := 1000000000.
Definition DefaultAckWait : Z := 30 * Second.
Definition DefaultMaxConcurrent : Z := 10.

(** The value an int64 holds after an operation whose exact result is [z]. *)
Definition wrap64 (z : Z) : Z := ((z + 2 ^ 63) mod 2 ^ 64 - 2 ^ 63)%Z.

(** [1 << n] at type int64, for a count that is not negative: counts of 64
    and more shift every bit out. *)
Definition shl1 (n : Z) : Z :=
  if (64 <=? n)%Z then 0%Z else wrap64 (Z.shiftl 1 n).

(** jetstream.MsgMetadata, as far as nakDelay reads it. *)
Record MsgMetadata : Type := mkMeta { NumDelivered : N (* uint64 *) }.

(** nakDelay.  [meta] is [None] when msg.Metadata() fails or yields nil;
    [Int63n] is rand.Int63n.  A negative shift count is a run-time panic. *)
Definition nakDelay (AckWait : Z) (meta : option MsgMetadata) (Int63n : Z -> Z)
  : result Z :=
  let attempt :=
    match meta with
    | Some md =>
        if (0 <? NumDelivered md)%N then wrap64 (Z.of_N (NumDelivered md)) else 1%Z
    | None => 1%Z
    end in
  let ackWait := if (AckWait <=? 0)%Z then DefaultAckWait else AckWait in
  let baseDelay := (ackWait ÷ 4)%Z in
  let baseDelay := if (baseDelay <? Second)%Z then Second else baseDelay in
  let maxDelay := wrap64 (ackWait - Second) in
  let maxDelay := if (maxDelay <=? 0)%Z then baseDelay else maxDelay in
  let count := wrap64 (attempt - 1) in
  if (count <? 0)%Z then Panic
  else
    let delay := wrap64 (baseDelay * shl1 count) in
    let delay := if (maxDelay <? delay)%Z then maxDelay else delay in
    let jitterRange := (delay ÷ 5)%Z in
    let jitterRange := if (jitterRange <? Millisecond)%Z then Millisecond else jitterRange in
    let jitter := Int63n jitterRange in
    let finalDelay := wrap64 (delay + jitter) in
    let finalDelay := if (finalDelay <=? 0)%Z then baseDelay else finalDelay in
    Ok finalDelay.

(** The interval of the in-progress ticker in processMessage. *)
Definition progressInterval (AckWait : Z) : Z :=
  let interval := (AckWait ÷ 3)%Z in
  if (interval <? Second)%Z then Second else interval.

End WorkQueue.

(** ** The goroutines of the work queue consumer

    startConsuming, processMessage and Shutdown as an interleaving of atomic
    actions.  Every delivered message is a task with the state of the code
    that supervises it (the Consume callback, then processMessage) and the
    state of the goroutine that runs the handler, which processMessage starts
    and then only hears from through the [done] channel. *)
Module Consumer.

Inductive Supervisor : Type :=
| Delivered     (* the callback is at its select: permit or ctx.Done() *)
| Dropped       (* the callback took ctx.Done() and returned *)
| Acquired      (* permit taken, wg.Add(1) not yet executed *)
| Watching      (* processMessage is in its select loop *)
| Acked         (* took [done] with a nil error, msg.Ack(), returned *)
| Nakked        (* took [done] with an error, msg.NakWithDelay, returned *)
| Abandoned.    (* took ctx.Done() and returned *)

Inductive Handler : Type :=
| NotStarted
| Running
| Finished (ok : bool).   (* the result sits in the buffered [done] channel *)

Record Task : Type := mkTask {
  sup : Supervisor;
  hdl : Handler;
  heartbeats : nat         (* msg.InProgress() calls *)
}.

Inductive ShutdownState : Type :=
| NotCalled
| Waiting       (* cancel() done, blocked in wg.Wait() *)
| Returned.

Record State : Type := mkState {
  tasks : list Task;
  cancelled : bool;        (* wqc.ctx is done *)
  wg : nat;                (* the WaitGroup counter *)
  in_use : nat;            (* len(semaphore) *)
  MaxConcurrent : nat;     (* cap(semaphore) *)
  shutdown : ShutdownState
}.

Definition init (K : nat) : State := mkState [] false 0 0 K NotCalled.

Inductive Action : Type :=
| Deliver                            (* the stream hands a message to the callback *)
| TakePermit (i : nat)               (* case semaphore <- struct{}{} *)
| TakeDrop (i : nat)                 (* case <-wqc.ctx.Done(): return *)
| Spawn (i : nat)                    (* wg.Add(1); go processMessage; go handler *)
| HandlerStart (i : nat)
| HandlerReturn (i : nat) (ok : bool) (* done <- handler(processCtx, msg) *)
| TakeDone (i : nat)                 (* case err := <-done *)
| TakeTick (i : nat)                 (* case <-progressTicker.C *)
| TakeCancel (i : nat)               (* case <-wqc.ctx.Done(): return *)
| ShutdownCall                       (* wqc.cancel() *)
| ShutdownReturn.                    (* wqc.wg.Wait() returns *)

Definition set_task (i : nat) (t : Task) (s : State) : State :=
  mkState (<[i := t]> (tasks s)) (cancelled s) (wg s) (in_use s)
          (MaxConcurrent s) (shutdown s).

Definition set_counts (w u : nat) (s : State) : State :=
  mkState (tasks s) (cancelled s) w u (MaxConcurrent s) (shutdown s).

(** What an action does to a state; [None] when the action is not enabled. *)
Definition fire (a : Action) (s : State) : option State :=
  match a with
  | Deliver =>
      Some (mkState (tasks s ++ [mkTask Delivered NotStarted 0]) (cancelled s)
                    (wg s) (in_use s) (MaxConcurrent s) (shutdown s))
  | TakePermit i =>
      match tasks s !! i with
      | Some (mkTask Delivered h n) =>
          if (in_use s <? MaxConcurrent s)%nat
          then Some (set_counts (wg s) (S (in_use s)) (set_task i (mkTask Acquired h n) s))
          else None
      | _ => None
      end
  | TakeDrop i =>
      match tasks s !! i with
      | Some (mkTask Delivered h n) =>
          if cancelled s then Some (set_task i (mkTask Dropped h n) s) else None
      | _ => None
      end
  | Spawn i =>
      match tasks s !! i with
      | Some (mkTask Acquired h n) =>
          Some (set_counts (S (wg s)) (in_use s) (set_task i (mkTask Watching h n) s))
      | _ => None
      end
  | HandlerStart i =>
      match tasks s !! i with
      | Some (mkTask Watching NotStarted n) => Some (set_task i (mkTask Watching Running n) s)
      | Some (mkTask Abandoned NotStarted n) => Some (set_task i (mkTask Abandoned Running n) s)
      | _ => None
      end
  | HandlerReturn i ok =>
      match tasks s !! i with
      | Some (mkTask p Running n) => Some (set_task i (mkTask p (Finished ok) n) s)
      | _ => None
      end
  | TakeDone i =>
      match tasks s !! i with
      | Some (mkTask Watching (Finished ok) n) =>
          Some (set_counts (pred (wg s)) (pred (in_use s))
                  (set_task i (mkTask (if ok then Acked else Nakked) (Finished ok) n) s))
      | _ => None
      end
  | TakeTick i =>
      match tasks s !! i with
      | Some (mkTask Watching h n) => Some (set_task i (mkTask Watching h (S n)) s)
      | _ => None
      end
  | TakeCancel i =>
      match tasks s !! i with
      | Some (mkTask Watching h n) =>
          if cancelled s
          then Some (set_counts (pred (wg s)) (pred (in_use s))
                       (set_task i (mkTask Abandoned h n) s))
          else None
      | _ => None
      end
  | ShutdownCall =>
      match shutdown s with
      | NotCalled => Some (mkState (tasks s) true (wg s) (in_use s) (MaxConcurrent s) Waiting)
      | _ => None
      end
  | ShutdownReturn =>
      match shutdown s, wg s with
      | Waiting, O => Some (mkState (tasks s) (cancelled s) (wg s) (in_use s)
                                    (MaxConcurrent s) Returned)
      | _, _ => None
      end
  end.

(** A schedule is a list of actions, fired in order. *)
Fixpoint run (sched : list Action) (s : State) : option State :=
  match sched with
  | [] => Some s
  | a :: rest =>
      match fire a s with
      | Some s' => run rest s'
      | None => None
      end
  end.

Definition reachable (K : nat) (s : State) : Prop :=
  exists sched, run sched (init K) = Some s.

Definition handler_of (s : State) (i : nat) : option Handler := hdl <$> tasks s !! i.
Definition supervisor_of (s : State) (i : nat) : option Supervisor := sup <$> tasks s !! i.

Definition is_watching (t : Task) : bool :=
  match sup t with Watching => true | _ => false end.

Fixpoint count_watching (ts : list Task) : nat :=
  match ts with
  | [] => 0
  | t :: ts' => ((if is_watching t then 1 else 0) + count_watching ts')%nat
  end.

(** The processMessage goroutines that have been added to the wait group and
    have not yet returned. *)
Definition watching (s : State) : nat := count_watching (tasks s).

(** What holds in every state the consumer can reach: the wait group counts
    the processMessage goroutines in their loop; once Shutdown was called the
    context is cancelled; an acknowledged message has a handler that returned
    nil. *)
Definition invariant (s : State) : Prop :=
  wg s = watching s
  /\ (shutdown s <> NotCalled -> cancelled s = true)
  /\ (forall i t, tasks s !! i = Some t -> sup t = Acked -> hdl t = Finished true).

(** The supervisor has taken a cancellation branch. *)
Definition gave_up (p : Supervisor) : bool :=
  match p with Dropped | Abandoned => true | _ => false end.

(** The claim on Shutdown, read on schedules: a handler that runs when
    Shutdown is called has finished in every state in which Shutdown has
    returned. *)
Definition Shutdown_waits_for_handlers : Prop :=
  forall K before after s1 s2 s3 i,
    run before (init K) = Some s1 ->
    handler_of s1 i = Some Running ->
    fire ShutdownCall s1 = Some s2 ->
    run after s2 = Some s3 ->
    shutdown s3 = Returned ->
    exists ok, handler_of s3 i = Some (Finished ok).

(** The claim on acknowledgements: a message whose handler has not started
    when the context is cancelled is not acknowledged in any later state. *)
Definition no_ack_after_cancel : Prop :=
  forall K before after s1 s2 s3 i,
    run before (init K) = Some s1 ->
    handler_of s1 i = Some NotStarted ->
    fire ShutdownCall s1 = Some s2 ->
    run after s2 = Some s3 ->
    supervisor_of s3 i <> Some Acked.

End Consumer.

(** ** Go's path package: Clean, Join and Dir *)
Module GoPathImpl.

(** The elements of a path between slashes; [cur] is the element being read. *)
Fixpoint elements (p : string) (cur : string) : list string :=
  match p with
  | "" => [cur]
  | String c p' =>
      if Ascii.eqb c "/"%char then cur :: elements p' ""
      else elements p' (cur +:+ String c "")
  end.

(** Clean's pass over the elements; [out] is the cleaned path so far, last
    element first. *)
Fixpoint clean_elements (rooted : bool) (els : list string) (out : list string) : list string :=
  match els with
  | [] => out
  | e :: els' =>
      if String.eqb e "" || String.eqb e "." then clean_elements rooted els' out
      else if String.eqb e ".." then
        match out with
        | top :: out' =>
            if String.eqb top ".." then clean_elements rooted els' (e :: out)
            else clean_elements rooted els' out'
        | [] =>
            if rooted then clean_elements rooted els' []
            else clean_elements rooted els' [e]
        end
      else clean_elements rooted els' (e :: out)
  end.

Fixpoint join_slash (els : list string) : string :=
  match els with
  | [] => ""
  | [e] => e
  | e :: els' => e +:+ "/" +:+ join_slash els'
  end.

Definition Clean (p : string) : string :=
  match p with
  | "" => "."
  | String c _ =>
      let rooted := Ascii.eqb c "/"%char in
      let body := join_slash (rev (clean_elements rooted (elements p "") [])) in
      let r := if rooted then "/" +:+ body else body in
      match r with "" => "." | _ => r end
  end.

Definition Join (elem : list string) : string :=
  match filter (fun e => e <> "") elem with
  | [] => ""
  | els => Clean (join_slash els)
  end.

(** The text up to and including the last slash (path.Split's dir). *)
Fixpoint split_dir (p : string) : string :=
  match p with
  | "" => ""
  | String c p' =>
      match split_dir p' with
      | "" => if Ascii.eqb c "/"%char then String c "" else ""
      | d => String c d
      end
  end.

Definition Dir (p : string) : string := Clean (split_dir p).

#[export] Instance go_path : GoPath := {| path_Join := Join; path_Dir := Dir |}.

(** An instance of net/url for paths made of letters, digits and "-_.~/":
    url.Parse accepts them and EscapedPath leaves them as they are.  Other
    strings are refused here instead of escaped. *)
Definition plain_byte (c : ascii) : bool :=
  let n := N_of_ascii c in
  ((48 <=? n) && (n <=? 57) || (65 <=? n) && (n <=? 90) || (97 <=? n) && (n <=? 122)
   || (n =? 45) || (n =? 95) || (n =? 46) || (n =? 126) || (n =? 47))%N.

Fixpoint plain (s : string) : bool :=
  match s with
  | "" => true
  | String c s' => plain_byte c && plain s'
  end.

#[export] Instance plain_url : GoURL :=
  {| url_EscapedPath := fun s => if plain s then Ok s else Err ErrSyntax |}.

End GoPathImpl.

(** ** The data model of the specification *)
Module Model.
Import GoStrings OS.

(** A record of a segment: [<sequence>:<payload>]. *)
Definition record_line (seq : N) (payload : string) : string :=
  FormatUint seq +:+ ":" +:+ payload.

(** Reading a line back: split at the first colon, parse the sequence. *)
Definition decode_line (line : string) : result (N * string) :=
  let cols := SplitN2 line in
  match index cols 0, index cols 1 with
  | Ok f0, Ok f1 =>
      match ParseUint f0 with
      | Ok n => Ok (n, f1)
      | Err e => Err e
      | Panic => Panic
      end
  | _, _ => Panic
  end.

(** The first field of the first line of a segment, as getFirstSeqFromFile
    extracts it from the bytes of the file. *)
Definition first_field (content : string) : result string :=
  match ReadString_newline content with
  | Ok line => index (SplitN2 line) 0
  | Err e => Err e
  | Panic => Panic
  end.

(** An entry of the archive index. *)
Record IndexEntry : Type := mkEntry {
  recorded_sequence : N;
  archive_reference : string
}.

Definition entry_line (e : IndexEntry) : string :=
  FormatUint (recorded_sequence e) +:+ ":" +:+ archive_reference e.

(** The index file that holds the entries [es], one line each. *)
Fixpoint index_file (es : list IndexEntry) : string :=
  match es with
  | [] => ""
  | e :: es' => entry_line e +:+ String newline (index_file es')
  end.

Definition no_newline (s : string) : bool :=
  match cut newline s with None => true | Some _ => false end.

(** An entry as updateIndex writes it for a rotated segment: a sequence that
    fits uint64 and a reference (a path or URL) that is not empty, is one
    line, does not end in a carriage return, and fits the Scanner's buffer. *)
Definition valid_entry (e : IndexEntry) : bool :=
  (recorded_sequence e <=? maxUint64)%N
  && negb (String.eqb (archive_reference e) "")
  && no_newline (archive_reference e)
  && String.eqb (dropCR (archive_reference e)) (archive_reference e)
  && (N.of_nat (String.length (entry_line e)) <? MaxScanTokenSize)%N.

(** Floor lookup as the specification words it: going through the entries in
    file order, keep the reference of the last entry whose recorded sequence
    is at most [s]; stop at the first entry whose sequence exceeds [s]. *)
Fixpoint floor_lookup (es : list IndexEntry) (s : N) (kept : option string) : option string :=
  match es with
  | [] => kept
  | e :: es' =>
      if (recorded_sequence e <=? s)%N
      then floor_lookup es' s (Some (archive_reference e))
      else kept
  end.

Definition lookup_result (found : option string) : result string :=
  match found with
  | Some ref => Ok ref
  | None => Err ErrSeqNotFound
  end.

Definition no_faults (w : World) : Prop := forall e, faulty w e = false.

(** The events that [w'] has and [w] has not, when [w'] continues [w]. *)
Definition events_since (w w' : World) : list Event :=
  drop (length (trace w)) (trace w').

(** The world after a call of MsgStore that does not rotate: the directory
    was made, the segment opened, its size taken when [checked], and the
    line appended. *)
Definition appended (checked : bool) (dstDir dstFile line : string) (w : World) : World :=
  mkWorld (<[dstFile := default "" (files w !! dstFile) +:+ line]> (files w))
          (faulty w)
          (trace w ++ [EvMkdirAll dstDir; EvOpenFile dstFile]
                   ++ (if checked then [EvStat dstFile] else [])
                   ++ [EvWriteString dstFile line])
          (TEST_MODE w) (published w) (publish_outages w) (objects w).

(** [w'] continues [w]: the same calls fail, and the trace has grown. *)
Definition continues (w w' : World) : Prop :=
  faulty w' = faulty w /\ exists evs, trace w' = (trace w ++ evs)%list.

(** A computation that only ever continues the world it is given. *)
Definition framed {A} (m : M A) : Prop := forall w, continues w (snd (m w)).

(** The world after archiveFile renamed [dstFile] to [archiveName] and the
    job [data] was published on [subject], having met [k] outages. *)
Definition archived (dstFile archiveName content subject data : string) (k : nat)
  (w : World) : World :=
  mkWorld (<[archiveName := content]> (delete dstFile (files w)))
          (faulty w)
          (trace w ++ [EvOpen dstFile; EvRename dstFile archiveName]
                   ++ repeat (EvPublish subject data data) (S k))%list
          (TEST_MODE w)
          (published w ++ [(subject, data, data)])
          0
          (objects w).

Definition is_stat (e : Event) : bool :=
  match e with EvStat _ => true | _ => false end.
Definition is_rename (e : Event) : bool :=
  match e with EvRename _ _ => true | _ => false end.

End Model.

(** ** Runs of several calls *)
Module Runs.
Import GoStrings OS Storer.

Section WithPath.
Context `{GoPath}.

(** MsgStore called for each (partition, sequence, payload) in turn, by one
    Storer; a call that fails ends the run. *)
Fixpoint MsgStore_all (calls : list (string * N * string)) (sr : Storer) (w : World)
  : loop_result unit * Storer * World :=
  match calls with
  | [] => (Return (Ok tt), sr, w)
  | (dstPath, seq, rawData) :: rest =>
      match MsgStore sr dstPath seq rawData w with
      | (Return (Ok _), sr', w') => MsgStore_all rest sr' w'
      | (Return (Err e), sr', w') => (Return (Err e), sr', w')
      | (Return Panic, sr', w') => (Return Panic, sr', w')
      | (OutOfFuel, sr', w') => (OutOfFuel, sr', w')
      end
  end.

End WithPath.
End Runs.

(** ** Concrete partitions used to exercise the statements *)
Module Examples.
Import GoStrings OS Storer Model GoPathImpl.

Definition quiet : Event -> bool := fun _ => false.

Definition sr0 : Storer := mkStorer "./datastore" 0 DefaultDomain "host1".

(** The partition of the floor-lookup example: entries 1001->A, 2001->B,
    3001->C and a current segment that starts at sequence 5000. *)
Definition abc_index : list IndexEntry :=
  [mkEntry 1001 "A"; mkEntry 2001 "B"; mkEntry 3001 "C"].

Definition abc_world : World :=
  mkWorld
    (<["datastore/p/current.db" := record_line 5000 "x" +:+ String newline ""]>
       (<["datastore/p/archive.index" := index_file abc_index]> ∅))
    quiet [] "" [] 0 ∅.

End Examples.

(** Partitions with an index that covers sequence 1500 and a current segment
    that is missing, empty, or does not start with a sequence. *)
Module BrokenExamples.
Import GoStrings OS Storer Model.

Definition with_current (content : option string) : World :=
  mkWorld
    (match content with
     | Some c => <["datastore/p/current.db" := c]>
                   (<["datastore/p/archive.index" := index_file Examples.abc_index]> ∅)
     | None => <["datastore/p/archive.index" := index_file Examples.abc_index]> ∅
     end)
    Examples.quiet [] "" [] 0 ∅.

Definition missing_world : World := with_current None.
Definition empty_world : World := with_current (Some "").
Definition garbled_world : World :=
  with_current (Some ("five thousand:x" +:+ String newline "")).

End BrokenExamples.

(** A partition without files, and one whose current segment has grown past
    the rotation threshold. *)
Module RotationExamples.
Import GoStrings OS Storer Model.

Definition fresh_world : World := mkWorld ∅ Examples.quiet [] "" [] 0 ∅.

(** [s] repeated 2^n times. *)
Fixpoint doubled (n : nat) (s : string) : string :=
  match n with
  | O => s
  | S n' => doubled n' (s +:+ s)
  end.

(** A first record with sequence 5000, then 2^20 bytes of further records. *)
Definition big_segment : string :=
  record_line 5000 "x" +:+ String newline (doubled 17 ("5001:y" +:+ String newline "6")).

(** The stream is unreachable for the next two Publish calls. *)
Definition big_world : World :=
  mkWorld (<["datastore/p/current.db" := big_segment]> ∅) Examples.quiet [] "" [] 2 ∅.

Definition sr_due : Storer := mkStorer "./datastore" 100 DefaultDomain "host1".

End RotationExamples.

(** A job for a rotated segment, as triggerUploader publishes it. *)
Module HandlerExamples.
Import GoStrings OS Uploader Model.

Definition u0 : Uploader :=
  mkUploader "onglai-msg" DefaultBucketName DefaultBucketCategory "host1".

Definition job0 : Msg := mkMsg "5000:datastore/p/MSG_5000.db".

Definition segment0 : string :=
  record_line 5000 "x" +:+ String newline (record_line 5001 "y" +:+ String newline "").

(** The line the handler appends to archive.index for [job0]. *)
Definition line0 : string :=
  "5000:https://example.com/msg-store/datastore/p/MSG_5000.db" +:+ String newline "".

Definition job_world : World :=
  mkWorld (<["datastore/p/MSG_5000.db" := segment0]> ∅) Examples.quiet [] "" [] 0 ∅.

End HandlerExamples.

(** Two jobs of one partition whose index has an entry already; the segment
    of the first job cannot be removed, so that job is delivered again. *)
Module RedeliveryExamples.
Import GoStrings OS Uploader Model.







(** The partition with the current segment starting at 3000 and the index
    holding [index]. *)
Definition partition_files (index : string) : gmap string string :=
  <["datastore/p/archive.index" := index]>
    (<["datastore/p/current.db" := record_line 3000 "c" +:+ String newline ""]> ∅).

Definition indexed (index : string) : World :=
  mkWorld (partition_files index) Examples.quiet [] "" [] 0 ∅.



End RedeliveryExamples.

(** ** The world the archival handler leaves behind *)
Module HandlerModel.
Import GoStrings OS Uploader.

Section WithPath.
Context `{GoPath}.

(** The world after the handler has uploaded the segment [data] of the job
    "<seq>:<archiveFilename>", appended the line for the URL made from
    [escaped] to archive.index, and called RemoveAll: with [removed] the
    segment is gone and the message acknowledged, without it the segment is
    still there and the message negatively acknowledged. *)
Definition handled (u : Uploader) (m : Msg) (seq archiveFilename data escaped : string)
  (removed : bool) (w : World) : World :=
  let bucket := bucketName u in
  let key := bucketCategory u +:+ "/" +:+ archiveFilename in
  let idx := path_Join [path_Dir archiveFilename; "archive.index"] in
  let line := seq +:+ ":" +:+ ("https://" +:+ escaped) +:+ String newline "" in
  let indexed := <[idx := default "" (files w !! idx) +:+ line]> (files w) in
  mkWorld (if removed then delete archiveFilename indexed else indexed)
          (faulty w)
          (trace w ++ [EvReadFile archiveFilename;
                       EvCopy bucket key data ACLPublicRead;
                       EvClose bucket key;
                       EvOpenFile idx;
                       EvWriteString idx line;
                       EvRemoveAll archiveFilename;
                       if removed then EvAck (Data m) else EvNak (Data m)])
          (TEST_MODE w) (published w) (publish_outages w)
          (<[(bucket, key) := (data, ACLPublicRead)]> (objects w)).

End WithPath.

(** A text made of whole lines: empty, or ending in a newline. *)
Definition whole_lines (s : string) : Prop :=
  s = "" \/ exists a, s = a +:+ String newline "".

End HandlerModel.

(** ** The backoff as the specification words it, in exact arithmetic *)
Module Backoff.
Import WorkQueue.

(** attempt = the delivery count, at least 1 *)
Definition attempt_of (meta : option MsgMetadata) : Z :=
  match meta with
  | Some md => Z.max 1 (Z.of_N (NumDelivered md))
  | None => 1
  end.

(** base = max(1s, AckWait/4) *)
Definition base_of (AckWait : Z) : Z := Z.max Second (AckWait ÷ 4).

(** the cap AckWait - 1s, replaced by base when it is not positive *)
Definition cap_of (AckWait : Z) : Z :=
  if (AckWait - Second <=? 0)%Z then base_of AckWait else (AckWait - Second)%Z.

(** delay = min(base * 2^(attempt-1), cap) *)
Definition delay_of (AckWait attempt : Z) : Z :=
  Z.min (base_of AckWait * 2 ^ (attempt - 1)) (cap_of AckWait).

(** the jitter is drawn below max(1ms, delay/5) *)
Definition jitter_range (delay : Z) : Z := Z.max Millisecond (delay ÷ 5).

(** rand.Int63n(n) is in [0, n) for n > 0. *)
Definition draws_below (Int63n : Z -> Z) : Prop :=
  forall n, (0 < n)%Z -> (0 <= Int63n n < n)%Z.

End Backoff.

(** ** What the scan loop reads from one line of archive.index *)
Module IndexLines.
Import GoStrings.

(** strconv.ParseUint(parseData[0], 10, 64) for the text of a line. *)
Definition line_sequence (text : string) : result N :=
  match index (SplitN2 text) 0 with
  | Ok field0 => ParseUint field0
  | Err e => Err e
  | Panic => Panic
  end.

(** The reference the loop holds after it has read the entries [es], all of
    them at or below the requested sequence, having held [afile] before. *)
Fixpoint last_reference (es : list Model.IndexEntry) (afile : string) : string :=
  match es with
  | [] => afile
  | e :: es' => last_reference es' (Model.archive_reference e)
  end.

End IndexLines.

(** Partitions whose archive.index is missing or holds more than entries. *)
Module LookupEdgeExamples.
Import GoStrings OS Storer Model.

Definition partition (index : option string) : World :=
  let current := <["datastore/p/current.db" := record_line 5000 "x" +:+ String newline ""]> ∅ in
  mkWorld
    (match index with
     | Some idx => <["datastore/p/archive.index" := idx]> current
     | None => current
     end)
    Examples.quiet [] "" [] 0 ∅.

(** A partition that has never rotated. *)
Definition never_rotated_world : World := partition None.

(** A text of lines, each ended by a newline. *)
Fixpoint unlines (ls : list string) : string :=
  match ls with
  | [] => ""
  | l :: ls' => l +:+ String newline (unlines ls')
  end.

(** An index with a line that is not an entry. *)
Definition commented_world : World :=
  partition (Some (unlines ["1001:A"; "# moved to the bucket"; "2001:B"])).

(** An index with a line that is a sequence and nothing else. *)
Definition colonless_world : World :=
  partition (Some (unlines ["1001:A"; "2001"; "3001:C"])).

(** An index with a line of 2^16 bytes. *)
Definition long_line_world : World :=
  partition (Some (unlines ["1001:A"; RotationExamples.doubled 16 "x"; "3001:C"])).

End LookupEdgeExamples.

(** The oversized partition of the rotation example, in test mode. *)
Module TestModeExamples.
Import GoStrings OS Storer Model.

Definition big_test_world : World :=
  mkWorld (<["datastore/p/current.db" := RotationExamples.big_segment]> ∅)
          Examples.quiet [] "1" [] 0 ∅.

End TestModeExamples.

(** The oversized partition of the rotation example when the rename of its
    segment fails. *)
Module FailureExamples.
Import GoStrings OS Storer Model.

Definition rename_fails : Event -> bool :=
  fun e =>
    match e with
    | EvRename old new =>
        String.eqb old "datastore/p/current.db" && String.eqb new "datastore/p/MSG_5000.db"
    | _ => false
    end.

Definition stuck_rotation_world : World :=
  set_faulty rename_fails RotationExamples.big_world.

(** A disk that takes no more writes. *)
Definition write_fails : Event -> bool :=
  fun e => match e with EvWriteString _ _ => true | _ => false end.

Definition full_disk_world : World :=
  set_faulty write_fails RotationExamples.fresh_world.

End FailureExamples.

(** Worlds in which the archival handler of the example meets a failure. *)
Module RetryExamples.
Import GoStrings OS Uploader Model.

(** The bucket refuses the object when it is closed. *)
Definition close_fails : Event -> bool :=
  fun e => match e with EvClose _ _ => true | _ => false end.

Definition bucket_down_world : World := set_faulty close_fails HandlerExamples.job_world.

(** A message whose data has no colon. *)
Definition poison : Msg := mkMsg "datastore/p/MSG_5000.db".

(** A partition whose name has a colon in it. *)
Definition colon_world : World :=
  mkWorld (<["datastore/a:b/current.db" := HandlerExamples.segment0]> ∅)
          Examples.quiet [] "" [] 0 ∅.

End RetryExamples.

(** ** Permits and handlers of the work queue consumer *)
Module ConsumerBounds.
Import Consumer.

(** The message holds a permit: it was sent on the semaphore, and the
    deferred receive of its goroutine has not run. *)
Definition holds_permit (t : Task) : bool :=
  match sup t with Acquired | Watching => true | _ => false end.

Definition is_running (t : Task) : bool :=
  match hdl t with Running => true | _ => false end.

Fixpoint count (f : Task -> bool) (ts : list Task) : nat :=
  match ts with
  | [] => 0
  | t :: ts' => ((if f t then 1 else 0) + count f ts')%nat
  end.

Definition permits (s : State) : nat := count holds_permit (tasks s).
Definition running (s : State) : nat := count is_running (tasks s).

(** A handler runs for a message whose processMessage is in its loop, or has
    left it through the cancellation. *)
Definition supervised (t : Task) : Prop :=
  is_running t = true -> sup t = Watching \/ sup t = Abandoned.

(** No callback and no processMessage has taken a cancellation branch. *)
Definition none_gave_up (t : Task) : Prop := gave_up (sup t) = false.

(** What holds of the semaphore in every state the consumer can reach. *)
Definition bounded (K : nat) (s : State) : Prop :=
  MaxConcurrent s = K
  /\ in_use s = permits s
  /\ (in_use s <= K)%nat
  /\ Forall supervised (tasks s)
  /\ (cancelled s = false -> Forall none_gave_up (tasks s)).

(** A message that waits for a permit, or gave up waiting for one. *)
Definition waiting_for_permit (t : Task) : Prop :=
  hdl t = NotStarted /\ (sup t = Delivered \/ sup t = Dropped).

(** What holds in every state of a consumer without permits. *)
Definition starved (s : State) : Prop :=
  MaxConcurrent s = 0%nat /\ in_use s = 0%nat /\ wg s = 0%nat
  /\ Forall waiting_for_permit (tasks s).

End ConsumerBounds.

(** ** The configuration of the work queue consumer *)
Module ConsumerConfig.
Import WorkQueue.

Definition DefaultMaxRetries : Z := -1.
Definition DefaultMaxAckPending : Z := DefaultMaxConcurrent.

(** WorkQueueConfig, as far as startConsuming reads it. *)
Record WorkQueueConfig : Type := mkConfig {
  MaxConcurrent : Z;     (* int *)
  AckWait : Z;           (* time.Duration *)
  MaxRetries : Z;        (* int *)
  MaxAckPending : Z      (* int *)
}.

Definition NewWorkQueueConsumerConfig : WorkQueueConfig :=
  mkConfig DefaultMaxConcurrent DefaultAckWait DefaultMaxRetries DefaultMaxAckPending.

(** The first lines of startConsuming: the capacity of the semaphore and the
    prefetch handed to PullMaxMessages.  make panics on a negative size. *)
Definition startConsuming_setup (cfg : WorkQueueConfig) : result (Z * Z) :=
  if (MaxConcurrent cfg <? 0)%Z then Panic
  else
    let capacity := MaxConcurrent cfg in
    let prefetch := MaxConcurrent cfg in
    let prefetch := if (prefetch <=? 0)%Z then DefaultMaxConcurrent else prefetch in
    let prefetch :=
      if (0 <? MaxAckPending cfg)%Z && (MaxAckPending cfg <? prefetch)%Z
      then MaxAckPending cfg else prefetch in
    Ok (capacity, prefetch).

End ConsumerConfig.

(** ** Messages that the consumer has answered *)
Module ConsumerSettled.
Import Consumer.

(** processMessage has called msg.Ack or msg.NakWithDelay. *)
Definition is_settled (p : Supervisor) : bool :=
  match p with Acked | Nakked => true | _ => false end.

(** The answer fits what the handler returned. *)
Definition answered_right (t : Task) : Prop :=
  (sup t = Acked -> hdl t = Finished true) /\ (sup t = Nakked -> hdl t = Finished false).

Definition is_cancel_or_return (a : Action) : bool :=
  match a with TakeCancel _ | ShutdownReturn => true | _ => false end.

End ConsumerSettled.

(** The oversized partition of the rotation example with an index that
    already has the entry of an earlier archive. *)
Module WindowExamples.
Import GoStrings OS Storer Model.

Definition big_indexed_world : World :=
  mkWorld (<["datastore/p/current.db" := RotationExamples.big_segment]>
             (<["datastore/p/archive.index" := index_file [mkEntry 1001 "A"]]> ∅))
          Examples.quiet [] "" [] 0 ∅.

End WindowExamples.

(** ** Calls that keep the size check away from a partition *)
Module Cadence.
Import GoStrings OS Storer Model.






End Cadence.

(** ** Entries written to archive.index one after the other *)
Module IndexWrites.
Import GoStrings OS Model.
Local Open Scope go_scope.

Section WithPath.
Context `{GoPath}.

(** updateIndex called for each entry in turn, for archives of the directory
    of [filename]; a call that fails ends the run. *)
Fixpoint updateIndex_all (filename : string) (es : list IndexEntry) : M unit :=
  match es with
  | [] => ret tt
  | e :: es' =>
      do_ Storer.updateIndex filename (archive_reference e)
                             (FormatUint (recorded_sequence e));
      updateIndex_all filename es'
  end.

End WithPath.
End IndexWrites.

(** * Properties *)

(** [lia] is to reason about division and remainder by constants as well. *)
Ltac Zify.zify_post_hook ::= Z.to_euclidean_division_equations.

(** Projections of a world that a call has just built. *)
Ltac world :=
  unfold OS.log, OS.set_files, OS.set_stream, OS.set_objects, OS.set_faulty,
         OS.msg_Ack, OS.msg_Nak in *;
  cbn [OS.files OS.faulty OS.trace OS.TEST_MODE OS.published OS.publish_outages
       OS.objects] in *.

(** Run the calls of a piece of code in a world without faults [Hnf]. *)
Ltac run_io Hnf :=
  repeat (progress (world; rewrite ?Hnf; cbv beta iota zeta)).

(** ** Strings, decimal numbers and lines *)
Section StringFacts.
Import GoStrings.

Lemma append_cons (c : ascii) (a b : string) : String c a +:+ b = String c (a +:+ b).
Proof. reflexivity. Qed.

Lemma append_nil_l (b : string) : "" +:+ b = b.
Proof. reflexivity. Qed.

Lemma append_nil_r (s : string) : s +:+ "" = s.
Proof. induction s as [|c s IH]; [reflexivity | now rewrite append_cons, IH]. Qed.

Lemma append_assoc (a b c : string) : (a +:+ b) +:+ c = a +:+ (b +:+ c).
Proof. induction a as [|x a IH]; [reflexivity | now rewrite !append_cons, IH]. Qed.

Lemma length_append (a b : string) :
  String.length (a +:+ b) = (String.length a + String.length b)%nat.
Proof. induction a as [|x a IH]; [reflexivity | rewrite append_cons; simpl; now rewrite IH]. Qed.

(** The first separator of [a ++ sep ++ b] is the one after [a] when [a]
    has none. *)
Lemma cut_append (sep : ascii) (a b : string) :
  cut sep a = None -> cut sep (a +:+ String sep b) = Some (a, b).
Proof.
  induction a as [|c a IH]; [intros _; rewrite append_nil_l|rewrite append_cons]; simpl.
  - now rewrite Ascii.eqb_refl.
  - destruct (Ascii.eqb c sep); [discriminate|].
    destruct (cut sep a) as [[? ?]|]; [discriminate|].
    intros _. now rewrite IH.
Qed.

Lemma cut_append_none (sep : ascii) (a b : string) :
  cut sep a = None -> cut sep b = None -> cut sep (a +:+ b) = None.
Proof.
  induction a as [|c a IH]; [auto|rewrite append_cons]; simpl.
  destruct (Ascii.eqb c sep); [discriminate|].
  destruct (cut sep a) as [[? ?]|]; [discriminate|].
  intros _ Hb. now rewrite IH.
Qed.

Lemma digit_char_spec (d : N) :
  (d < 10)%N -> is_digit (digit_char d) = true /\ digit_val (digit_char d) = d.
Proof.
  intros Hd.
  assert (d = 0 \/ d = 1 \/ d = 2 \/ d = 3 \/ d = 4 \/ d = 5 \/ d = 6 \/ d = 7
          \/ d = 8 \/ d = 9)%N as Hc by lia.
  repeat (destruct Hc as [-> | Hc]; [split; reflexivity|]).
  subst d. split; reflexivity.
Qed.

Lemma format_digits_all_digits (fuel : nat) (n : N) (acc : string) :
  all_digits acc = true -> all_digits (format_digits fuel n acc) = true.
Proof.
  revert n acc. induction fuel as [|fuel IH]; intros n acc Hacc; simpl; [assumption|].
  assert (all_digits (String (digit_char (n mod 10)) acc) = true) as Hacc'.
  { simpl. rewrite Hacc, andb_true_r. apply digit_char_spec. apply N.mod_lt. lia. }
  destruct (n / 10 =? 0)%N; [exact Hacc' | now apply IH].
Qed.

Lemma FormatUint_all_digits (n : N) : all_digits (FormatUint n) = true.
Proof. apply format_digits_all_digits. reflexivity. Qed.

Lemma all_digits_cut (sep : ascii) (s : string) :
  is_digit sep = false -> all_digits s = true -> cut sep s = None.
Proof.
  intros Hsep. induction s as [|c s IH]; simpl; [reflexivity|].
  intros [Hc Hs]%andb_true_iff.
  destruct (Ascii.eqb_spec c sep) as [->|_]; [congruence|].
  now rewrite IH.
Qed.

Lemma FormatUint_no_colon (n : N) : cut colon (FormatUint n) = None.
Proof. apply all_digits_cut; [reflexivity | apply FormatUint_all_digits]. Qed.

Lemma FormatUint_no_newline (n : N) : cut newline (FormatUint n) = None.
Proof. apply all_digits_cut; [reflexivity | apply FormatUint_all_digits]. Qed.

Lemma FormatUint_nonempty (n : N) : FormatUint n <> "".
Proof.
  unfold FormatUint.
  change (format_digits 20 n "") with
    (let acc' := String (digit_char (n mod 10)%N) "" in
     if (n / 10 =? 0)%N then acc' else format_digits 19 (n / 10)%N acc').
  cbv zeta. destruct (n / 10 =? 0)%N; [discriminate|].
  assert (forall fuel m acc, acc <> "" -> format_digits fuel m acc <> "") as Hgen.
  { induction fuel as [|fuel IH]; intros m acc Hacc; simpl; [assumption|].
    destruct (m / 10 =? 0)%N; [discriminate | apply IH; discriminate]. }
  apply Hgen. discriminate.
Qed.

Lemma ParseUint_loop_format (fuel : nat) (n : N) (acc : string) :
  (n < 10 ^ N.of_nat fuel)%N -> (n <= maxUint64)%N ->
  ParseUint_loop (format_digits fuel n acc) 0 = ParseUint_loop acc n.
Proof.
  revert n acc. induction fuel as [|fuel IH]; intros n acc Hlt Hmax.
  - simpl in *. assert (n = 0%N) as -> by lia. reflexivity.
  - assert (ParseUint_loop (String (digit_char (n mod 10)) acc) (n / 10)
            = ParseUint_loop acc n) as Hstep.
    { simpl. destruct (digit_char_spec (n mod 10)) as [-> ->]; [lia|].
      unfold maxUint64 in *.
      assert ((n / 10) * 10 + n mod 10 = n)%N as -> by lia.
      change (18446744073709551615 / 10 + 1)%N with 1844674407370955162%N.
      destruct (N.leb_spec 1844674407370955162 (n / 10)); [lia|].
      destruct (N.ltb_spec 18446744073709551615 n); [lia | reflexivity]. }
    simpl. destruct (N.eqb_spec (n / 10) 0) as [Hz|Hnz].
    + rewrite <- Hstep, Hz. reflexivity.
    + rewrite IH; [exact Hstep | | lia].
      rewrite Nat2N.inj_succ, N.pow_succ_r' in Hlt.
      revert Hlt. generalize (10 ^ N.of_nat fuel)%N. intros p Hlt. lia.
Qed.

(** Parsing what %d printed gives the number back. *)
Lemma ParseUint_FormatUint (n : N) :
  (n <= maxUint64)%N -> ParseUint (FormatUint n) = Ok n.
Proof.
  intros Hmax. unfold ParseUint.
  pose proof (FormatUint_nonempty n) as Hne.
  destruct (FormatUint n) as [|c s] eqn:E; [congruence|].
  rewrite <- E. unfold FormatUint. rewrite ParseUint_loop_format; [reflexivity | | assumption].
  unfold maxUint64 in Hmax. change (10 ^ N.of_nat 20)%N with 100000000000000000000%N. lia.
Qed.

(** ParseUint fails with a syntax or a range error only. *)
Lemma ParseUint_error (s : string) :
  (exists n, ParseUint s = Ok n) \/ ParseUint s = Err ErrSyntax \/ ParseUint s = Err ErrRange.
Proof.
  assert (forall t n, (exists m, ParseUint_loop t n = Ok m)
                      \/ ParseUint_loop t n = Err ErrSyntax
                      \/ ParseUint_loop t n = Err ErrRange) as Hloop.
  { induction t as [|c t IH]; intros n; simpl; [eauto|].
    destruct (is_digit c); [|auto].
    destruct (maxUint64 / 10 + 1 <=? n)%N; [auto|].
    destruct (maxUint64 <? n * 10 + digit_val c)%N; [auto | apply IH]. }
  unfold ParseUint. destruct s; [auto | apply Hloop].
Qed.

Lemma SplitN2_append (a b : string) :
  cut colon a = None -> SplitN2 (a +:+ ":" +:+ b) = [a; b].
Proof. intros Ha. unfold SplitN2. change ":" with (String colon ""). 
  change (String colon "" +:+ b) with (String colon b). now rewrite cut_append. Qed.

(** The first field of a segment that starts with a record of sequence [n]. *)
Lemma first_field_record (n : N) (payload rest : string) :
  Model.first_field (Model.record_line n payload +:+ String newline rest) = Ok (FormatUint n).
Proof.
  unfold Model.first_field, Model.record_line, ReadString_newline.
  rewrite !append_assoc.
  change (":" +:+ payload +:+ String newline rest) with (String colon (payload +:+ String newline rest)).
  destruct (cut newline (payload +:+ String newline rest)) as [[a b]|] eqn:Hcut.
  - assert (cut newline (FormatUint n +:+ String colon (payload +:+ String newline rest))
            = Some (FormatUint n +:+ String colon a, b)) as ->.
    { generalize (FormatUint_no_newline n). generalize (FormatUint n) as f.
      induction f as [|c f IH]; intros Hf.
      - rewrite !append_nil_l. simpl. now rewrite Hcut.
      - rewrite !append_cons. simpl in *. destruct (Ascii.eqb c newline); [discriminate|].
        destruct (cut newline f) as [[? ?]|]; [discriminate|]. now rewrite IH. }
    rewrite append_assoc. change (String colon a +:+ String newline "")
      with (":" +:+ (a +:+ String newline "")).
    rewrite SplitN2_append by apply FormatUint_no_colon. reflexivity.
  - exfalso. revert Hcut. generalize payload as q. induction q as [|c q IH].
    + rewrite append_nil_l. simpl. discriminate.
    + rewrite append_cons. simpl. destruct (Ascii.eqb c newline); [discriminate|].
      destruct (cut newline (q +:+ String newline rest)) as [[? ?]|]; [discriminate | auto].
Qed.

(** The only error of reading a first field is the missing end of line. *)
Lemma first_field_error (c : string) (e : error) :
  Model.first_field c = Err e -> e = EOF.
Proof.
  unfold Model.first_field, ReadString_newline, SplitN2, index.
  destruct (cut newline c) as [[a b]|]; [|congruence].
  destruct (cut colon (a +:+ String newline "")) as [[? ?]|]; discriminate.
Qed.

Lemma raw_lines_append (a rest cur : string) :
  Model.no_newline a = true ->
  raw_lines (a +:+ String newline rest) cur = (cur +:+ a) :: raw_lines rest "".
Proof.
  unfold Model.no_newline. revert cur.
  induction a as [|c a IH]; intros cur Ha.
  - rewrite append_nil_l, append_nil_r. reflexivity.
  - rewrite append_cons. simpl in *. destruct (Ascii.eqb c newline); [discriminate|].
    rewrite IH.
    + now rewrite append_assoc.
    + destruct (cut newline a) as [[? ?]|]; [discriminate | reflexivity].
Qed.

Lemma dropCR_append (a b : string) : b <> "" -> dropCR (a +:+ b) = a +:+ dropCR b.
Proof.
  intros Hb. induction a as [|c a IH]; [reflexivity|].
  rewrite !append_cons. simpl. rewrite IH.
  destruct (a +:+ b) as [|x y] eqn:E; [|reflexivity].
  destruct a; [rewrite append_nil_l in E; congruence | discriminate].
Qed.

End StringFacts.

(** ** The archive index and floor lookup *)
Section IndexFacts.
Import GoStrings OS Storer Model.
Context `{GoPath}.

Lemma valid_entry_spec (e : IndexEntry) :
  valid_entry e = true ->
  (recorded_sequence e <= maxUint64)%N
  /\ archive_reference e <> ""
  /\ no_newline (archive_reference e) = true
  /\ dropCR (archive_reference e) = archive_reference e
  /\ (N.of_nat (String.length (entry_line e)) < MaxScanTokenSize)%N.
Proof.
  unfold valid_entry. rewrite !andb_true_iff, negb_true_iff.
  intros [[[[H1 H2] H3] H4] H5].
  apply N.leb_le in H1. apply String.eqb_neq in H2. apply String.eqb_eq in H4.
  apply N.ltb_lt in H5. auto.
Qed.

Lemma entry_line_no_newline (e : IndexEntry) :
  valid_entry e = true -> no_newline (entry_line e) = true.
Proof.
  intros (_ & _ & Hnl & _)%valid_entry_spec. unfold no_newline, entry_line in *.
  rewrite cut_append_none; [reflexivity | apply FormatUint_no_newline |].
  change (":" +:+ archive_reference e) with (String colon (archive_reference e)).
  simpl. destruct (cut newline (archive_reference e)) as [[? ?]|]; [discriminate | reflexivity].
Qed.

(** The Scanner yields the lines of an index file one entry at a time. *)
Lemma Scanner_lines_index_file (es : list IndexEntry) :
  forallb valid_entry es = true ->
  Scanner_lines (index_file es) = map entry_line es.
Proof.
  unfold Scanner_lines. induction es as [|e es IH]; [reflexivity|].
  simpl. intros [He Hes]%andb_true_iff.
  rewrite raw_lines_append by now apply entry_line_no_newline.
  rewrite append_nil_l. simpl.
  destruct (valid_entry_spec e He) as (_ & Hne & _ & Hcr & Hlen).
  destruct (N.leb_spec MaxScanTokenSize (N.of_nat (String.length (entry_line e)))); [lia|].
  rewrite IH by assumption. f_equal.
  unfold entry_line. rewrite <- append_assoc, dropCR_append by assumption.
  now rewrite Hcr, append_assoc.
Qed.

(** The scan loop computes the floor lookup of the specification. *)
Lemma scan_index_floor_lookup (s : N) (es : list IndexEntry) (kept : option string) :
  forallb valid_entry es = true ->
  scan_index s (map entry_line es) (default "" kept)
  = Ok (default "" (floor_lookup es s kept)).
Proof.
  revert kept. induction es as [|e es IH]; intros kept; [reflexivity|].
  simpl. intros [He Hes]%andb_true_iff.
  destruct (valid_entry_spec e He) as (Hmax & _).
  assert (SplitN2 (entry_line e) = [FormatUint (recorded_sequence e); archive_reference e])
    as -> by (unfold entry_line; apply SplitN2_append, FormatUint_no_colon).
  simpl. rewrite ParseUint_FormatUint by assumption.
  destruct (recorded_sequence e <=? s)%N; [|reflexivity].
  apply (IH (Some (archive_reference e))). assumption.
Qed.

Lemma floor_lookup_nonempty (s : N) (es : list IndexEntry) (kept : option string) (ref : string) :
  forallb valid_entry es = true ->
  (forall r, kept = Some r -> r <> "") ->
  floor_lookup es s kept = Some ref -> ref <> "".
Proof.
  revert kept. induction es as [|e es IH]; intros kept; simpl.
  - intros _ Hk Hr. now apply Hk.
  - intros [He Hes]%andb_true_iff Hk.
    destruct (recorded_sequence e <=? s)%N; [|now apply Hk].
    apply IH; [assumption|]. intros r [= <-].
    now destruct (valid_entry_spec e He) as (_ & Hne & _).
Qed.

Lemma index_file_app (es1 es2 : list IndexEntry) :
  index_file (es1 ++ es2) = index_file es1 +:+ index_file es2.
Proof.
  induction es1 as [|e es1 IH]; [reflexivity|].
  cbn [app index_file]. rewrite IH, append_assoc. reflexivity.
Qed.



End IndexFacts.

(** ** GetArchivedFileBySeq *)
Section Lookup.
Import GoStrings OS Storer Model.
Context `{GoPath}.

(** getFirstSeqFromFile opens the file and hands back the first field of its
    first line. *)
Lemma getFirstSeqFromFile_eq (filename : string) (w : World) :
  getFirstSeqFromFile filename w =
  if faulty w (EvOpen filename) then (Err ErrIO, log (EvOpen filename) w)
  else match files w !! filename with
       | Some c => (first_field c, log (EvOpen filename) w)
       | None => (Err ErrNotExist, log (EvOpen filename) w)
       end.
Proof.
  unfold getFirstSeqFromFile, bind, os_Open, lift, first_field. cbn.
  destruct (faulty w (EvOpen filename)); [reflexivity|].
  destruct (files w !! filename) as [c|]; [|reflexivity].
  destruct (ReadString_newline c) as [line| |]; reflexivity.
Qed.

(** GetArchivedFileBySeq with its calls written out. *)
Lemma GetArchivedFileBySeq_eq (sr : Storer) (dstPath : string) (s : N) (w : World) :
  let dstDir := path_Join [datastore sr; dstPath] in
  let currentFile := path_Join [dstDir; DefaultCurrentDB] in
  let indexFile := path_Join [dstDir; DefaultArchiveIndex] in
  let w1 := log (EvOpen currentFile) w in
  let w2 := log (EvOpen indexFile) w1 in
  GetArchivedFileBySeq sr dstPath s w =
  if faulty w (EvOpen currentFile) then (Err ErrIO, w1)
  else match files w !! currentFile with
  | None => (Err ErrNotExist, w1)
  | Some c =>
      match first_field c with
      | Ok field =>
          match ParseUint field with
          | Ok C =>
              if (C <=? s)%N then (Ok currentFile, w1)
              else if faulty w (EvOpen indexFile) then (Err ErrIO, w2)
              else match files w !! indexFile with
              | None => (Err ErrNotExist, w2)
              | Some fr =>
                  match scan_index s (Scanner_lines fr) "" with
                  | Ok afile =>
                      if String.eqb afile "" then (Err ErrSeqNotFound, w2) else (Ok afile, w2)
                  | Err e => (Err e, w2)
                  | Panic => (Panic, w2)
                  end
              end
          | Err e => (Err e, w1)
          | Panic => (Panic, w1)
          end
      | Err e => (Err e, w1)
      | Panic => (Panic, w1)
      end
  end.
Proof.
  intros dstDir currentFile indexFile w1 w2.
  unfold GetArchivedFileBySeq. fold dstDir. fold currentFile. fold indexFile.
  unfold bind at 1. rewrite getFirstSeqFromFile_eq. fold w1.
  destruct (faulty w (EvOpen currentFile)); [reflexivity|].
  destruct (files w !! currentFile) as [c|]; [|reflexivity].
  destruct (first_field c) as [field| |]; [|reflexivity..].
  unfold bind, lift, ret, os_Open.
  destruct (ParseUint field) as [C| |]; [|reflexivity..].
  destruct (C <=? s)%N; [reflexivity|]. cbn. fold w2.
  destruct (faulty w (EvOpen indexFile)); [reflexivity|].
  destruct (files w !! indexFile) as [fr|]; [|reflexivity].
  destruct (scan_index s (Scanner_lines fr) "") as [afile| |]; [|reflexivity..].
  destruct (afile =? "")%string; reflexivity.
Qed.


(** C1, as the code has it.  For a partition whose current segment starts
    with a record of sequence [C]: a request for [s >= C] is answered with the
    path of the current segment.  A request for [s < C] opens archive.index:
    when the partition has an index, it is answered by the floor lookup over
    the entries of the index in file order (the reference of the last entry
    with recorded sequence <= s before the first entry that exceeds s), and
    with ErrSeqNotFound when no entry qualifies; when the partition has no
    index, as before its first rotation, it is answered with the error of
    os.Open, which os.IsNotExist recognises and which is not
    ErrSeqNotFound. *)
Theorem GetArchivedFileBySeq_floor_lookup
  (sr : Storer) (dstPath : string) (s C : N) (payload rest : string) (w : World) :
  let dstDir := path_Join [datastore sr; dstPath] in
  let currentFile := path_Join [dstDir; DefaultCurrentDB] in
  let indexFile := path_Join [dstDir; DefaultArchiveIndex] in
  no_faults w ->
  (C <= maxUint64)%N ->
  files w !! currentFile = Some (record_line C payload +:+ String newline rest) ->
  ((C <= s)%N ->
     GetArchivedFileBySeq sr dstPath s w = (Ok currentFile, log (EvOpen currentFile) w))
  /\ ((s < C)%N ->
      forall es : list IndexEntry,
        files w !! indexFile = Some (index_file es) ->
        forallb valid_entry es = true ->
        GetArchivedFileBySeq sr dstPath s w
        = (lookup_result (floor_lookup es s None),
           log (EvOpen indexFile) (log (EvOpen currentFile) w)))
  /\ ((s < C)%N ->
      files w !! indexFile = None ->
      GetArchivedFileBySeq sr dstPath s w
      = (Err ErrNotExist, log (EvOpen indexFile) (log (EvOpen currentFile) w))
      /\ fst (GetArchivedFileBySeq sr dstPath s w) <> Err ErrSeqNotFound).
Proof.
  intros dstDir currentFile indexFile Hnf Hmax Hcur.
  rewrite GetArchivedFileBySeq_eq. cbv zeta. fold dstDir. fold currentFile. fold indexFile.
  rewrite !Hnf, Hcur, first_field_record, ParseUint_FormatUint by assumption.
  split; [|split].
  - intros Hle. apply N.leb_le in Hle. rewrite Hle. reflexivity.
  - intros Hlt es Hidx Hvalid. apply N.leb_gt in Hlt. rewrite Hlt, Hidx.
    rewrite Scanner_lines_index_file by assumption.
    assert (scan_index s (map entry_line es) "" = Ok (default "" (floor_lookup es s None)))
      as -> by exact (scan_index_floor_lookup s es None Hvalid).
    destruct (floor_lookup es s None) as [ref|] eqn:Hfl; [|reflexivity].
    cbn. apply floor_lookup_nonempty in Hfl; [|assumption|discriminate].
    apply String.eqb_neq in Hfl. rewrite Hfl. reflexivity.
  - intros Hlt Hidx. apply N.leb_gt in Hlt. rewrite Hlt, Hidx.
    split; [reflexivity | discriminate].
Qed.

(** C9.  When the current segment cannot be opened, is missing, has no
    complete first line (an empty file has none), or its first field is not
    an unsigned integer, GetArchivedFileBySeq returns that error after a
    single call, the open of the current segment: archive.index is not
    opened, whatever it holds.  ErrSeqNotFound is returned only after the
    first sequence of the current segment was read and parsed, and the index
    was opened. *)
Theorem GetArchivedFileBySeq_current_unreadable
  (sr : Storer) (dstPath : string) (s : N) (w : World) :
  let dstDir := path_Join [datastore sr; dstPath] in
  let currentFile := path_Join [dstDir; DefaultCurrentDB] in
  let indexFile := path_Join [dstDir; DefaultArchiveIndex] in
  let w1 := log (EvOpen currentFile) w in
  (faulty w (EvOpen currentFile) = true ->
     GetArchivedFileBySeq sr dstPath s w = (Err ErrIO, w1))
  /\ (faulty w (EvOpen currentFile) = false ->
      (files w !! currentFile = None ->
         GetArchivedFileBySeq sr dstPath s w = (Err ErrNotExist, w1))
      /\ (forall c, files w !! currentFile = Some c -> no_newline c = true ->
            GetArchivedFileBySeq sr dstPath s w = (Err EOF, w1))
      /\ (forall c field e, files w !! currentFile = Some c ->
            first_field c = Ok field -> ParseUint field = Err e ->
            GetArchivedFileBySeq sr dstPath s w = (Err e, w1) /\ e <> ErrSeqNotFound))
  /\ (forall w', GetArchivedFileBySeq sr dstPath s w = (Err ErrSeqNotFound, w') ->
        exists c field C,
          files w !! currentFile = Some c /\ first_field c = Ok field
          /\ ParseUint field = Ok C /\ (s < C)%N
          /\ w' = log (EvOpen indexFile) w1).
Proof.
  intros dstDir currentFile indexFile w1.
  rewrite GetArchivedFileBySeq_eq. cbv zeta. fold dstDir. fold currentFile. fold indexFile.
  fold w1.
  split; [|split].
  - intros ->. reflexivity.
  - intros ->. split; [|split].
    + intros ->. reflexivity.
    + intros c -> Hnl. unfold first_field, ReadString_newline.
      unfold no_newline in Hnl. destruct (cut newline c) as [[? ?]|]; [discriminate|].
      reflexivity.
    + intros c field e -> -> Hparse. rewrite Hparse. split; [reflexivity|].
      intros ->. destruct (ParseUint_error field) as [[n Hn]|[Hs|Hr]]; congruence.
  - intros w'. destruct (faulty w (EvOpen currentFile)); [intros [=]|].
    destruct (files w !! currentFile) as [c|] eqn:Hc; [|intros [=]].
    destruct (first_field c) as [field|e|] eqn:Hfield;
      [|apply first_field_error in Hfield as ->; intros [=]|intros [=]].
    destruct (ParseUint_error field) as [[C HC]|[Hs|Hr]];
      rewrite ?Hs, ?Hr; [|intros [=]..].
    rewrite HC. destruct (N.leb_spec C s) as [Hle|Hlt]; [intros [=]|].
    destruct (faulty w (EvOpen indexFile)); [intros [=]|].
    destruct (files w !! indexFile) as [idx|]; [|intros [=]].
    destruct (scan_index s (Scanner_lines idx) "") as [afile| |];
      [destruct (afile =? "")%string|..];
      intros Heq; try discriminate Heq;
      inversion Heq; subst; exists c, field, C; repeat split; auto.
Qed.

End Lookup.

Section LookupExample.
Import GoPathImpl.

(** The example of the specification: entries 1001->A, 2001->B, 3001->C and a
    current segment that starts at 5000; and the same current segment in a
    partition that has no index. *)
Lemma GetArchivedFileBySeq_floor_lookup_witness :
  let lookup s := fst (Storer.GetArchivedFileBySeq Examples.sr0 "p" s Examples.abc_world) in
  let fresh s :=
    fst (Storer.GetArchivedFileBySeq Examples.sr0 "p" s LookupEdgeExamples.never_rotated_world) in
  lookup 1500%N = Ok "A" /\ lookup 2500%N = Ok "B" /\ lookup 3500%N = Ok "C"
  /\ lookup 5000%N = Ok "datastore/p/current.db" /\ lookup 500%N = Err ErrSeqNotFound
  /\ fresh 5000%N = Ok "datastore/p/current.db" /\ fresh 500%N = Err ErrNotExist.
Proof.
  assert (Model.no_faults Examples.abc_world) as Hnf by (intros e; reflexivity).
  assert (Model.no_faults LookupEdgeExamples.never_rotated_world) as Hnf' by (intros e; reflexivity).
  assert (5000 <= GoStrings.maxUint64)%N as Hmax by (vm_compute; discriminate).
  pose proof (fun s => GetArchivedFileBySeq_floor_lookup Examples.sr0 "p" s 5000 "x" ""
                         Examples.abc_world Hnf Hmax eq_refl) as Hthm.
  pose proof (fun s => GetArchivedFileBySeq_floor_lookup Examples.sr0 "p" s 5000 "x" ""
                         LookupEdgeExamples.never_rotated_world Hnf' Hmax eq_refl) as Hfresh.
  cbv zeta. split; [|split; [|split; [|split; [|split; [|split]]]]].
  - destruct (Hthm 1500%N) as (_ & Hlow & _).
    rewrite (Hlow ltac:(lia) Examples.abc_index eq_refl eq_refl). reflexivity.
  - destruct (Hthm 2500%N) as (_ & Hlow & _).
    rewrite (Hlow ltac:(lia) Examples.abc_index eq_refl eq_refl). reflexivity.
  - destruct (Hthm 3500%N) as (_ & Hlow & _).
    rewrite (Hlow ltac:(lia) Examples.abc_index eq_refl eq_refl). reflexivity.
  - destruct (Hthm 5000%N) as (Hhigh & _). rewrite (Hhigh ltac:(lia)). reflexivity.
  - destruct (Hthm 500%N) as (_ & Hlow & _).
    rewrite (Hlow ltac:(lia) Examples.abc_index eq_refl eq_refl). reflexivity.
  - destruct (Hfresh 5000%N) as (Hhigh & _). rewrite (Hhigh ltac:(lia)). reflexivity.
  - destruct (Hfresh 500%N) as (_ & _ & Hnone).
    destruct (Hnone ltac:(lia) eq_refl) as [-> _]. reflexivity.
Defined.

(** C1 as stated fails: a partition that has a current segment starting at
    5000 and has never rotated has no archive.index; no entry qualifies for
    sequence 500, and the answer is the error of opening the index, not
    ErrSeqNotFound. *)
Lemma GetArchivedFileBySeq_never_rotated :
  OS.files LookupEdgeExamples.never_rotated_world !! "datastore/p/archive.index" = None
  /\ fst (Storer.GetArchivedFileBySeq Examples.sr0 "p" 500%N
            LookupEdgeExamples.never_rotated_world) = Err ErrNotExist
  /\ fst (Storer.GetArchivedFileBySeq Examples.sr0 "p" 500%N
            LookupEdgeExamples.never_rotated_world) <> Err ErrSeqNotFound.
Proof.
  split; [|split].
  - reflexivity.
  - vm_compute. reflexivity.
  - vm_compute. discriminate.
Qed.

(** A partition whose index covers sequence 1500 answers a lookup of 1500
    with the error of its current segment: missing, empty, not a number. *)
Lemma GetArchivedFileBySeq_current_unreadable_witness :
  let lookup w := Storer.GetArchivedFileBySeq Examples.sr0 "p" 1500%N w in
  let opened w := OS.log (OS.EvOpen "datastore/p/current.db") w in
  lookup BrokenExamples.missing_world = (Err ErrNotExist, opened BrokenExamples.missing_world)
  /\ lookup BrokenExamples.empty_world = (Err EOF, opened BrokenExamples.empty_world)
  /\ lookup BrokenExamples.garbled_world = (Err ErrSyntax, opened BrokenExamples.garbled_world).
Proof.
  cbv zeta. split; [|split].
  - destruct (GetArchivedFileBySeq_current_unreadable Examples.sr0 "p" 1500%N
                BrokenExamples.missing_world) as (_ & Hread & _).
    destruct (Hread eq_refl) as (Hmissing & _). exact (Hmissing eq_refl).
  - destruct (GetArchivedFileBySeq_current_unreadable Examples.sr0 "p" 1500%N
                BrokenExamples.empty_world) as (_ & Hread & _).
    destruct (Hread eq_refl) as (_ & Hline & _). exact (Hline "" eq_refl eq_refl).
  - destruct (GetArchivedFileBySeq_current_unreadable Examples.sr0 "p" 1500%N
                BrokenExamples.garbled_world) as (_ & Hread & _).
    destruct (Hread eq_refl) as (_ & _ & Hparse).
    exact (proj1 (Hparse _ "five thousand" ErrSyntax eq_refl eq_refl eq_refl)).
Defined.

End LookupExample.

(** ** What every call leaves alone *)
Section Frame.
Import GoStrings OS Storer Model.
Context `{GoPath}.

Lemma continues_refl (w : World) : continues w w.
Proof. split; [reflexivity | exists []; now rewrite app_nil_r]. Qed.

Lemma continues_trans (w1 w2 w3 : World) :
  continues w1 w2 -> continues w2 w3 -> continues w1 w3.
Proof.
  intros [Hf1 [e1 He1]] [Hf2 [e2 He2]]. split; [congruence|].
  exists (e1 ++ e2). now rewrite He2, He1, app_assoc.
Qed.

Lemma continues_log (e : Event) (w : World) : continues w (log e w).
Proof. split; [reflexivity | now exists [e]]. Qed.

Lemma framed_bind {A B} (m : M A) (k : A -> M B) :
  framed m -> (forall a, framed (k a)) -> framed (bind m k).
Proof.
  intros Hm Hk w. unfold bind. specialize (Hm w).
  destruct (m w) as [[a|e|] w']; cbn in *; [|assumption..].
  eapply continues_trans; [exact Hm | apply Hk].
Qed.

Lemma framed_ret {A} (a : A) : framed (ret a).
Proof. intros w. apply continues_refl. Qed.

Lemma framed_lift {A} (r : result A) : framed (lift r).
Proof. intros w. apply continues_refl. Qed.

Ltac framed_prim f :=
  let w := fresh "w" in
  intros w; unfold f;
  repeat match goal with
         | |- context [if ?b then _ else _] => destruct b
         | |- context [match ?x with Some _ => _ | None => _ end] => destruct x
         | |- context [match ?x with O => _ | S _ => _ end] => destruct x
         end;
  cbn [snd]; (split; [reflexivity | eexists; world; reflexivity]).

Lemma framed_MkdirAll (dir : string) : framed (os_MkdirAll dir).
Proof. framed_prim os_MkdirAll. Qed.

Lemma framed_OpenFile (p : string) : framed (os_OpenFile p).
Proof. framed_prim os_OpenFile. Qed.

Lemma framed_Stat (p : string) : framed (file_Stat p).
Proof. framed_prim file_Stat. Qed.

Lemma framed_WriteString (p data : string) : framed (file_WriteString p data).
Proof. framed_prim file_WriteString. Qed.

Lemma framed_Rename (old new : string) : framed (os_Rename old new).
Proof. framed_prim os_Rename. Qed.

Lemma framed_Open (p : string) : framed (os_Open p).
Proof. framed_prim os_Open. Qed.

Lemma framed_Getenv : framed os_Getenv_TEST_MODE.
Proof. intros w. apply continues_refl. Qed.

Lemma framed_Publish (subject data msgid : string) : framed (js_Publish subject data msgid).
Proof. framed_prim js_Publish. Qed.

Lemma framed_getFirstSeqFromFile (filename : string) : framed (getFirstSeqFromFile filename).
Proof.
  unfold getFirstSeqFromFile.
  repeat (apply framed_bind; [|intros ?]);
    auto using framed_Open, framed_lift.
Qed.

Lemma framed_updateIndex (filename archiveName seq : string) :
  framed (Storer.updateIndex filename archiveName seq).
Proof.
  unfold Storer.updateIndex.
  repeat (apply framed_bind; [|intros ?]);
    auto using framed_OpenFile, framed_WriteString, framed_ret.
Qed.

Lemma triggerUploader_loop_continues (fuel : nat) (subject data : string) (w : World) :
  continues w (snd (triggerUploader_loop fuel subject data w)).
Proof.
  revert w. induction fuel as [|fuel IH]; intros w; cbn [triggerUploader_loop].
  - apply continues_refl.
  - pose proof (framed_Publish subject data data w) as Hp.
    destruct (js_Publish subject data data w) as [[[]|e|] w']; cbn [snd] in *;
      [assumption | eapply continues_trans; [exact Hp | apply IH]..].
Qed.

Lemma framed_triggerUploader (sr : Storer) (filename seq : string) :
  framed (triggerUploader sr filename seq).
Proof.
  intros w. unfold triggerUploader.
  pose proof (triggerUploader_loop_continues (S (publish_outages w))
                (DefaultSubject (domain sr) (hostname sr)) (seq +:+ ":" +:+ filename) w) as Hl.
  destruct (triggerUploader_loop _ _ _ w) as [[r|] w']; exact Hl.
Qed.

Lemma framed_archiveFile (sr : Storer) (filename : string) : framed (archiveFile sr filename).
Proof.
  unfold archiveFile.
  apply framed_bind; [apply framed_getFirstSeqFromFile | intros seq].
  apply framed_bind; [apply framed_Getenv | intros mode].
  destruct (negb (mode =? "")%string); cbv zeta;
    repeat (apply framed_bind; [|intros ?]);
    auto using framed_MkdirAll, framed_Rename, framed_updateIndex, framed_OpenFile,
               framed_WriteString, framed_triggerUploader, framed_ret.
Qed.

End Frame.

(** ** MsgStore *)
Section MsgStoreFacts.
Import GoStrings OS Storer Model Runs.
Context `{GoPath}.

Lemma uint64_add_small (c : N) : (c < 100)%N -> uint64_add c 1 = (c + 1)%N.
Proof. intros Hc. unfold uint64_add. apply N.mod_small. lia. Qed.

(** A call of MsgStore on which the size check does not fire, or fires on a
    segment below the threshold, appends one line and nothing else. *)
Lemma MsgStore_append (sr : Storer) (dstPath : string) (seq : N) (rawData : string) (w : World) :
  let dstDir := path_Join [datastore sr; dstPath] in
  let dstFile := path_Join [dstDir; DefaultCurrentDB] in
  let line := record_line seq rawData +:+ String newline "" in
  let checked := negb (counter sr <? 100)%N in
  no_faults w ->
  (counter sr < 100)%N
  \/ (Z.of_nat (String.length (default "" (files w !! dstFile))) < fileSize)%Z ->
  MsgStore sr dstPath seq rawData w
  = (Return (Ok dstFile),
     set_counter (if checked then 0%N else (counter sr + 1)%N) sr,
     appended checked dstDir dstFile line w).
Proof.
  intros dstDir dstFile line checked Hnf Hquiet.
  assert (FormatUint seq +:+ ":" +:+ rawData +:+ String newline "" = line) as Hline.
  { unfold line, record_line. now rewrite !append_assoc. }
  unfold MsgStore, processFilename, bind, ret, os_MkdirAll. fold dstDir. fold dstFile.
  rewrite Hline. run_io Hnf.
  unfold MsgStore_loop, os_OpenFile, file_Stat, file_WriteString, checked, appended.
  run_io Hnf.
  destruct (N.ltb_spec (counter sr) 100) as [Hc|Hc]; cbn [negb].
  - rewrite uint64_add_small by assumption.
    destruct (files w !! dstFile) as [old|] eqn:Hold; run_io Hnf.
    + rewrite Hold, <- !app_assoc. reflexivity.
    + rewrite lookup_insert_eq, insert_insert_eq, <- !app_assoc. reflexivity.
  - destruct Hquiet as [Hlt|Hsize]; [lia|].
    destruct (files w !! dstFile) as [old|] eqn:Hold; run_io Hnf.
    + rewrite Hold. cbn in Hsize.
      destruct (Z.leb_spec fileSize (Z.of_nat (String.length old))); [lia|].
      run_io Hnf. rewrite Hold, <- !app_assoc. reflexivity.
    + rewrite lookup_insert_eq.
      assert ((fileSize <=? Z.of_nat (String.length ""))%Z = false) as -> by reflexivity.
      run_io Hnf. rewrite lookup_insert_eq, insert_insert_eq, <- !app_assoc. reflexivity.
Qed.

(** The retry loop publishes the job once, after as many failed attempts as
    the stream has outages. *)
Lemma triggerUploader_loop_publishes (subject data : string) (k : nat) :
  forall (fuel : nat) (w : World),
    publish_outages w = k -> (k < fuel)%nat ->
    triggerUploader_loop fuel subject data w
    = (Return (Ok tt),
       mkWorld (files w) (faulty w)
               (trace w ++ repeat (EvPublish subject data data) (S k))
               (TEST_MODE w) (published w ++ [(subject, data, data)]) 0 (objects w)).
Proof.
  induction k as [|k IH]; intros fuel w Hk Hfuel;
    (destruct fuel as [|fuel]; [lia|]); cbn [triggerUploader_loop];
    unfold js_Publish; world; rewrite Hk; world.
  - reflexivity.
  - rewrite IH by (cbn; lia). world. cbn [repeat]. rewrite <- app_assoc. reflexivity.
Qed.

(** triggerUploader always returns nil: its loop ends with the Publish that
    follows the last outage. *)
Lemma triggerUploader_returns (sr : Storer) (filename seq : string) (w : World) :
  fst (triggerUploader sr filename seq w) = Ok tt.
Proof.
  unfold triggerUploader.
  rewrite (triggerUploader_loop_publishes _ _ (publish_outages w)) by (cbn; lia).
  reflexivity.
Qed.

(** A pass of the loop that starts with the counter at 0 ends the loop. *)
Lemma MsgStore_loop_fresh_counter (fuel : nat) (sr : Storer) (dstFile : string) (w : World) :
  counter sr = 0%N -> fst (fst (MsgStore_loop (S fuel) sr dstFile w)) <> OutOfFuel.
Proof.
  intros Hc. cbn [MsgStore_loop]. rewrite Hc.
  destruct (os_OpenFile dstFile w) as [[dst|e|] w1]; discriminate.
Qed.

(** MsgStore returns: two rounds of its loop are always enough. *)
Lemma MsgStore_returns (sr : Storer) (dstPath : string) (seq : N) (rawData : string)
  (w : World) :
  fst (fst (MsgStore sr dstPath seq rawData w)) <> OutOfFuel.
Proof.
  unfold MsgStore.
  destruct (processFilename sr dstPath w) as [[dstFile|e|] w0]; [|discriminate..].
  assert (fst (fst (MsgStore_loop 2 sr dstFile w0)) <> OutOfFuel) as Hloop.
  { cbn [MsgStore_loop].
    destruct (os_OpenFile dstFile w0) as [[dst|e|] w1]; [|discriminate..].
    destruct (counter sr <? 100)%N; [discriminate|].
    destruct (file_Stat dst w1) as [[size|e|] w2]; [|discriminate..].
    destruct (fileSize <=? size)%Z; [|discriminate].
    destruct (archiveFile (set_counter 0 sr) dstFile w2) as [[[]|e|] w3]; [|discriminate..].
    destruct (os_OpenFile dstFile w3) as [[dst'|e|] w4]; discriminate. }
  destruct (MsgStore_loop 2 sr dstFile w0) as [[[[dst|e|]|] sr1] w1]; cbn [fst] in *;
    try discriminate; [|congruence].
  destruct (file_WriteString dst _ w1) as [[[]|e|] w2]; discriminate.
Qed.

(** archiveFile outside test mode: the segment is renamed after its first
    sequence and one job is published for it. *)
Lemma archiveFile_publishes (sr : Storer) (filename content seq : string) (w : World) :
  let archiveName := path_Join [path_Dir filename; "MSG_" +:+ seq +:+ ".db"] in
  let subject := DefaultSubject (domain sr) (hostname sr) in
  let data := seq +:+ ":" +:+ archiveName in
  no_faults w ->
  TEST_MODE w = "" ->
  files w !! filename = Some content ->
  first_field content = Ok seq ->
  archiveFile sr filename w
  = (Ok tt, archived filename archiveName content subject data (publish_outages w) w).
Proof.
  intros archiveName subject data Hnf Hmode Hfile Hfirst.
  unfold archiveFile, bind. rewrite getFirstSeqFromFile_eq, Hnf, Hfile, Hfirst.
  unfold os_Getenv_TEST_MODE. run_io Hnf.
  replace (negb (TEST_MODE w =? "")%string) with false by (now rewrite Hmode).
  fold archiveName. unfold os_Rename. run_io Hnf. rewrite Hfile.
  unfold triggerUploader, ret. fold subject. fold data. run_io Hnf.
  rewrite (triggerUploader_loop_publishes subject data (publish_outages w)) by (cbn; lia).
  unfold archived. world. rewrite <- !app_assoc. reflexivity.
Qed.

(** The world after a call of MsgStore that rotated: the old segment sits
    under its archive name, one job was published, and the current segment
    holds the new line only. *)
Lemma MsgStore_rotate
  (sr : Storer) (dstPath : string) (seq : N) (rawData content first : string) (w : World) :
  let dstDir := path_Join [datastore sr; dstPath] in
  let dstFile := path_Join [dstDir; DefaultCurrentDB] in
  let archiveName := path_Join [path_Dir dstFile; "MSG_" +:+ first +:+ ".db"] in
  let subject := DefaultSubject (domain sr) (hostname sr) in
  let job := first +:+ ":" +:+ archiveName in
  let line := record_line seq rawData +:+ String newline "" in
  no_faults w ->
  TEST_MODE w = "" ->
  (100 <= counter sr)%N ->
  files w !! dstFile = Some content ->
  (fileSize <= Z.of_nat (String.length content))%Z ->
  first_field content = Ok first ->
  archiveName <> dstFile ->
  MsgStore sr dstPath seq rawData w
  = (Return (Ok dstFile), set_counter 1 sr,
     mkWorld (<[dstFile := line]> (<[archiveName := content]> (delete dstFile (files w))))
             (faulty w)
             (trace w ++ [EvMkdirAll dstDir; EvOpenFile dstFile; EvStat dstFile;
                          EvOpen dstFile; EvRename dstFile archiveName]
                      ++ repeat (EvPublish subject job job) (S (publish_outages w))
                      ++ [EvOpenFile dstFile; EvWriteString dstFile line])
             (TEST_MODE w) (published w ++ [(subject, job, job)]) 0 (objects w)).
Proof.
  intros dstDir dstFile archiveName subject job line Hnf Hmode Hc Hfile Hsize Hfirst Hne.
  assert (FormatUint seq +:+ ":" +:+ rawData +:+ String newline "" = line) as Hline.
  { unfold line, record_line. now rewrite !append_assoc. }
  unfold MsgStore, processFilename, bind, ret, os_MkdirAll. fold dstDir. fold dstFile.
  rewrite Hline. run_io Hnf.
  cbn [MsgStore_loop]. unfold os_OpenFile at 1. run_io Hnf. rewrite Hfile.
  destruct (N.ltb_spec (counter sr) 100) as [?|_]; [lia|].
  unfold file_Stat. run_io Hnf. rewrite Hfile.
  destruct (Z.leb_spec fileSize (Z.of_nat (String.length content))) as [_|?]; [|lia].
  rewrite (archiveFile_publishes _ dstFile content first); [|assumption..].
  fold archiveName. fold subject. fold job. unfold archived. world.
  unfold os_OpenFile. run_io Hnf.
  rewrite lookup_insert_ne, lookup_delete_eq by assumption.
  cbn [counter set_counter N.ltb N.compare]. unfold file_WriteString. run_io Hnf.
  rewrite lookup_insert_eq, insert_insert_eq. cbn [default id from_option].
  unfold id. rewrite append_nil_l, <- !app_assoc. reflexivity.
Qed.

(** A call of MsgStore that finds the counter at the check interval takes the
    size of the segment and leaves the counter at 0, or at 1 when it went
    round the loop a second time after archiving. *)
Lemma MsgStore_check_call
  (sr : Storer) (dstPath : string) (seq : N) (rawData : string) (w : World)
  (r : loop_result string) (sr' : Storer) (w' : World) :
  let dstDir := path_Join [datastore sr; dstPath] in
  let dstFile := path_Join [dstDir; DefaultCurrentDB] in
  no_faults w ->
  (100 <= counter sr)%N ->
  MsgStore sr dstPath seq rawData w = (r, sr', w') ->
  (counter sr' = 0 \/ counter sr' = 1)%N
  /\ r <> OutOfFuel
  /\ exists evs,
      trace w' = trace w ++ [EvMkdirAll dstDir; EvOpenFile dstFile; EvStat dstFile] ++ evs.
Proof.
  intros dstDir dstFile Hnf Hc.
  unfold MsgStore, processFilename, bind, ret, os_MkdirAll. fold dstDir. fold dstFile.
  run_io Hnf. cbn [MsgStore_loop]. unfold os_OpenFile at 1. run_io Hnf.
  destruct (N.ltb_spec (counter sr) 100) as [?|_]; [lia|].
  unfold file_Stat.
  destruct (files w !! dstFile) as [c0|] eqn:Hc0; run_io Hnf;
    rewrite ?Hc0, ?lookup_insert_eq; cbv beta iota zeta.
  all: match goal with
       | |- context [(fileSize <=? ?n)%Z] => destruct (fileSize <=? n)%Z
       end.
  all: try (unfold file_WriteString; run_io Hnf;
            intros [= <- <- <-]; world; split; [now left|]; split; [discriminate|];
            eexists [_]; now rewrite <- !app_assoc).
  all: match goal with
       | |- context [archiveFile ?s ?f ?w3] =>
           pose proof (framed_archiveFile s f w3) as [Hf4 [evs Ht4]];
           destruct (archiveFile s f w3) as [[[]|e|] w4]; cbn [snd] in *
       end.
  all: world.
  all: try (intros [= <- <- <-]; split; [now left|]; split; [discriminate|];
            rewrite Ht4; exists evs; now rewrite <- !app_assoc).
  all: assert (no_faults w4) as Hnf4 by (intros ev; rewrite Hf4; apply Hnf).
  all: unfold os_OpenFile; run_io Hnf4;
       destruct (files w4 !! dstFile) as [c4|]; cbv beta iota zeta;
       cbn [counter set_counter N.ltb N.compare];
       unfold file_WriteString; run_io Hnf4;
       intros [= <- <- <-]; world; (split; [now right|]); (split; [discriminate|]);
       rewrite Ht4; eexists (evs ++ [_; _]); now rewrite <- !app_assoc.
Qed.

Lemma appended_no_faults (checked : bool) (dstDir dstFile line : string) (w : World) :
  no_faults w -> no_faults (appended checked dstDir dstFile line w).
Proof. intros Hnf e. apply Hnf. Qed.

Lemma appended_files (checked : bool) (dstDir dstFile line : string) (w : World) :
  files (appended checked dstDir dstFile line w) !! dstFile
  = Some (default "" (files w !! dstFile) +:+ line).
Proof. unfold appended. cbn. apply lookup_insert_eq. Qed.

Lemma events_since_app (w w' : World) (evs : list Event) :
  trace w' = trace w ++ evs -> events_since w w' = evs.
Proof. intros Htr. unfold events_since. rewrite Htr. apply drop_app_length. Qed.

Lemma filter_rename_publish (subject data : string) (n : nat) :
  List.filter is_rename (repeat (EvPublish subject data data) n) = [].
Proof. induction n as [|n IH]; [reflexivity | exact IH]. Qed.

(** C3.  A call of MsgStore on which the size check fires (the counter has
    reached the interval) and finds the current segment at or above the
    threshold: the segment is renamed to MSG_<s>.db in its directory, [s]
    being the first field of its first line; one job is stored in the stream,
    with payload "<s>:<archive path>" and that same text as message id; the
    incoming record is then the only line of a new current.db.  The call makes
    one rename, and as many Publish calls as it takes to get the job through. *)
Theorem MsgStore_rotation_publishes_one_job
  (sr : Storer) (dstPath : string) (seq : N) (rawData content first : string) (w : World) :
  let dstDir := path_Join [datastore sr; dstPath] in
  let dstFile := path_Join [dstDir; DefaultCurrentDB] in
  let archiveName := path_Join [path_Dir dstFile; "MSG_" +:+ first +:+ ".db"] in
  let subject := DefaultSubject (domain sr) (hostname sr) in
  let job := first +:+ ":" +:+ archiveName in
  let line := record_line seq rawData +:+ String newline "" in
  no_faults w ->
  TEST_MODE w = "" ->
  (100 <= counter sr)%N ->
  files w !! dstFile = Some content ->
  (fileSize <= Z.of_nat (String.length content))%Z ->
  first_field content = Ok first ->
  archiveName <> dstFile ->
  exists w',
    MsgStore sr dstPath seq rawData w = (Return (Ok dstFile), set_counter 1 sr, w')
    /\ files w' !! archiveName = Some content
    /\ files w' !! dstFile = Some line
    /\ published w' = published w ++ [(subject, job, job)]
    /\ events_since w w'
       = [EvMkdirAll dstDir; EvOpenFile dstFile; EvStat dstFile;
          EvOpen dstFile; EvRename dstFile archiveName]
         ++ repeat (EvPublish subject job job) (S (publish_outages w))
         ++ [EvOpenFile dstFile; EvWriteString dstFile line]
    /\ List.filter is_rename (events_since w w') = [EvRename dstFile archiveName].
Proof.
  intros dstDir dstFile archiveName subject job line Hnf Hmode Hc Hfile Hsize Hfirst Hne.
  eexists. split; [now apply (MsgStore_rotate sr dstPath seq rawData content first)|].
  fold dstDir. fold dstFile. fold archiveName. fold subject. fold job. fold line.
  world. split; [|split; [|split; [|split]]].
  - rewrite lookup_insert_ne by congruence. apply lookup_insert_eq.
  - apply lookup_insert_eq.
  - reflexivity.
  - now apply events_since_app.
  - erewrite events_since_app by reflexivity.
    rewrite !List.filter_app, filter_rename_publish. reflexivity.
Qed.

(** Calls that stay below the check interval, to any partitions: the one
    counter counts them all; no size is taken, nothing renamed or published. *)
Lemma MsgStore_all_below_interval (calls : list (string * N * string)) :
  forall (sr : Storer) (w : World),
    no_faults w ->
    (counter sr + N.of_nat (length calls) <= 100)%N ->
    exists w',
      MsgStore_all calls sr w
      = (Return (Ok tt), set_counter (counter sr + N.of_nat (length calls)) sr, w')
      /\ no_faults w'
      /\ published w' = published w
      /\ exists evs, trace w' = trace w ++ evs
                     /\ forallb (fun e => negb (is_stat e || is_rename e)) evs = true.
Proof.
  induction calls as [|[[dstPath seq] rawData] calls IH]; intros sr w Hnf Hc.
  - exists w. cbn. rewrite N.add_0_r. destruct sr; cbn.
    repeat split; try assumption. exists []. now rewrite app_nil_r.
  - cbn [MsgStore_all]. cbn [length] in Hc. rewrite Nat2N.inj_succ in Hc.
    rewrite MsgStore_append by (assumption || (left; lia)).
    destruct (N.ltb_spec (counter sr) 100) as [_|?]; [cbn [negb]|lia].
    match goal with |- context [MsgStore_all calls ?s ?x] =>
      destruct (IH s x) as (w' & Hrun & Hnf' & Hpub & evs & Htr & Hevs);
        [now apply appended_no_faults | cbn; lia |]
    end.
    exists w'. rewrite Hrun. cbn [length]. rewrite Nat2N.inj_succ.
    split; [|split; [assumption|split; [exact Hpub|]]].
    + f_equal. f_equal. unfold set_counter; cbn. f_equal. lia.
    + eexists. split; [rewrite Htr; unfold appended; world; rewrite <- !app_assoc; reflexivity|].
      cbn. exact Hevs.
Qed.

(** C4.  One Storer has one check counter for all its partitions.  A call of
    MsgStore that finds it below 100 adds one to it and appends the record
    without taking the size of the segment, however large the segment is.
    A call that finds it at 100 takes the size, and the pass of the loop that
    does so sets the counter to 0; the call ends with the counter at 0, or at 1
    when it archived and went round the loop again, counting its own write.
    When the segment is below the threshold it appends and nothing else.  Calls to any mix of
    partitions advance the same counter, so that after 100 of them the next
    call, to whichever partition, is the one that checks. *)
Theorem MsgStore_shared_check_counter (sr : Storer) (w : World) :
  no_faults w ->
  (forall dstPath seq rawData,
     let dstDir := path_Join [datastore sr; dstPath] in
     let dstFile := path_Join [dstDir; DefaultCurrentDB] in
     let line := record_line seq rawData +:+ String newline "" in
     ((counter sr < 100)%N ->
        MsgStore sr dstPath seq rawData w
        = (Return (Ok dstFile), set_counter (counter sr + 1) sr,
           appended false dstDir dstFile line w))
     /\ ((100 <= counter sr)%N ->
         (forall r sr' w',
            MsgStore sr dstPath seq rawData w = (r, sr', w') ->
            (counter sr' = 0 \/ counter sr' = 1)%N
            /\ exists evs,
                events_since w w'
                = [EvMkdirAll dstDir; EvOpenFile dstFile; EvStat dstFile] ++ evs)
         /\ ((Z.of_nat (String.length (default "" (files w !! dstFile))) < fileSize)%Z ->
             MsgStore sr dstPath seq rawData w
             = (Return (Ok dstFile), set_counter 0 sr,
                appended true dstDir dstFile line w))))
  /\ (forall dstFile : string,
        (100 <= counter sr)%N ->
        counter (snd (fst (MsgStore_loop 1 sr dstFile w))) = 0%N)
  /\ (forall calls : list (string * N * string),
        (counter sr + N.of_nat (length calls) <= 100)%N ->
        exists w',
          MsgStore_all calls sr w
          = (Return (Ok tt), set_counter (counter sr + N.of_nat (length calls)) sr, w')
          /\ published w' = published w
          /\ forallb (fun e => negb (is_stat e || is_rename e)) (events_since w w') = true).
Proof.
  intros Hnf. split; [|split].
  - intros dstPath seq rawData dstDir dstFile line. split.
    + intros Hc. rewrite MsgStore_append by (assumption || now left).
      destruct (N.ltb_spec (counter sr) 100) as [_|?]; [reflexivity | lia].
    + intros Hc. split.
      * intros r sr' w' Hrun.
        destruct (MsgStore_check_call sr dstPath seq rawData w r sr' w' Hnf Hc Hrun)
          as (Hcnt & _ & evs & Htr).
        split; [exact Hcnt|]. exists evs. now apply events_since_app.
      * intros Hsize. rewrite MsgStore_append by (assumption || now right).
        destruct (N.ltb_spec (counter sr) 100) as [?|_]; [lia | reflexivity].
  - intros dstFile Hc. cbn [MsgStore_loop]. unfold os_OpenFile. run_io Hnf.
    destruct (N.ltb_spec (counter sr) 100) as [?|_]; [lia|].
    destruct (files w !! dstFile);
      match goal with |- context [file_Stat ?d ?x] =>
        destruct (file_Stat d x) as [[size|e|] w2] end; try reflexivity;
      (destruct (fileSize <=? size)%Z; [|reflexivity]);
      match goal with |- context [archiveFile ?a ?b ?c] =>
        destruct (archiveFile a b c) as [[[]|e|] w3] end; reflexivity.
  - intros calls Hc.
    destruct (MsgStore_all_below_interval calls sr w Hnf Hc)
      as (w' & Hrun & _ & Hpub & evs & Htr & Hevs).
    exists w'. split; [exact Hrun|]. split; [exact Hpub|].
    now rewrite (events_since_app w w' evs Htr).
Qed.

Lemma record_line_no_newline (seq : N) (payload : string) :
  no_newline payload = true -> no_newline (record_line seq payload) = true.
Proof.
  unfold no_newline, record_line. intros Hp.
  rewrite cut_append_none; [reflexivity | apply FormatUint_no_newline |].
  change (":" +:+ payload) with (String colon payload). simpl.
  destruct (cut newline payload) as [[? ?]|]; [discriminate | reflexivity].
Qed.

(** Encoding a record and decoding the line gives the record back. *)
Lemma decode_record_line (seq : N) (payload : string) :
  (seq <= maxUint64)%N -> decode_line (record_line seq payload) = Ok (seq, payload).
Proof.
  intros Hseq. unfold decode_line, record_line.
  rewrite SplitN2_append by apply FormatUint_no_colon.
  cbn. now rewrite ParseUint_FormatUint.
Qed.

(** C6.  Three records appended in turn to one partition, with no rotation
    on the way (the check interval is not reached within the three calls, or
    the segment stays below the threshold), are the last three lines of the
    current segment, in the order of the calls; on a fresh partition they are
    its only lines.  Each line, split at its first colon, gives back the
    sequence and the payload it was written from. *)
Theorem MsgStore_appends_in_order
  (sr : Storer) (dstPath : string) (s1 s2 s3 : N) (p1 p2 p3 : string) (w : World) :
  let dstDir := path_Join [datastore sr; dstPath] in
  let dstFile := path_Join [dstDir; DefaultCurrentDB] in
  let old := default "" (files w !! dstFile) in
  let l1 := record_line s1 p1 in
  let l2 := record_line s2 p2 in
  let l3 := record_line s3 p3 in
  let nl := String newline "" in
  no_faults w ->
  (s1 <= maxUint64)%N -> (s2 <= maxUint64)%N -> (s3 <= maxUint64)%N ->
  no_newline p1 = true -> no_newline p2 = true -> no_newline p3 = true ->
  (counter sr + 3 <= 100)%N
  \/ (Z.of_nat (String.length (old +:+ l1 +:+ nl +:+ l2 +:+ nl)) < fileSize)%Z ->
  exists sr' w',
    MsgStore_all [(dstPath, s1, p1); (dstPath, s2, p2); (dstPath, s3, p3)] sr w
    = (Return (Ok tt), sr', w')
    /\ files w' !! dstFile = Some (old +:+ l1 +:+ nl +:+ l2 +:+ nl +:+ l3 +:+ nl)
    /\ (old = "" -> raw_lines (l1 +:+ nl +:+ l2 +:+ nl +:+ l3 +:+ nl) "" = [l1; l2; l3])
    /\ decode_line l1 = Ok (s1, p1)
    /\ decode_line l2 = Ok (s2, p2)
    /\ decode_line l3 = Ok (s3, p3).
Proof.
  intros dstDir dstFile old l1 l2 l3 nl Hnf Hs1 Hs2 Hs3 Hp1 Hp2 Hp3 Hquiet.
  assert (forall a b : string,
            (Z.of_nat (String.length a) <= Z.of_nat (String.length (a +:+ b)))%Z) as Hlen.
  { intros a b. rewrite length_append. lia. }
  cbn [MsgStore_all].
  (* first call *)
  rewrite MsgStore_append; [|assumption|].
  2:{ destruct Hquiet as [Hc|Hsz]; [left; lia|right].
      fold dstDir. fold dstFile. fold old. specialize (Hlen old (l1 +:+ nl +:+ l2 +:+ nl)). lia. }
  fold dstDir. fold dstFile. fold l1.
  set (sr1 := set_counter _ sr). set (w1 := appended _ dstDir dstFile (l1 +:+ String newline "") w).
  assert (files w1 !! dstFile = Some (old +:+ l1 +:+ nl)) as Hf1 by apply appended_files.
  assert (no_faults w1) as Hnf1 by now apply appended_no_faults.
  (* second call *)
  assert (datastore sr1 = datastore sr) as Hd1 by reflexivity.
  rewrite MsgStore_append; [|assumption|].
  2:{ rewrite Hd1. fold dstDir. fold dstFile. rewrite Hf1. cbn [default id from_option].
      destruct Hquiet as [Hc|Hsz].
      - left. subst sr1. cbn [counter set_counter].
        destruct (N.ltb_spec (counter sr) 100); cbn [negb]; lia.
      - right. specialize (Hlen (old +:+ l1 +:+ nl) (l2 +:+ nl)).
        rewrite !append_assoc in Hlen. unfold id. lia. }
  rewrite Hd1. fold dstDir. fold dstFile. fold l2.
  set (sr2 := set_counter _ sr1).
  set (w2 := appended _ dstDir dstFile (l2 +:+ String newline "") w1).
  assert (files w2 !! dstFile = Some ((old +:+ l1 +:+ nl) +:+ l2 +:+ nl)) as Hf2.
  { subst w2. rewrite appended_files, Hf1. reflexivity. }
  assert (no_faults w2) as Hnf2 by now apply appended_no_faults.
  (* third call *)
  assert (datastore sr2 = datastore sr) as Hd2 by reflexivity.
  rewrite MsgStore_append; [|assumption|].
  2:{ rewrite Hd2. fold dstDir. fold dstFile. rewrite Hf2. cbn [default id from_option].
      destruct Hquiet as [Hc|Hsz].
      - left. subst sr2 sr1. cbn [counter set_counter].
        destruct (N.ltb_spec (counter sr) 100); cbn [negb]; [|lia].
        destruct (N.ltb_spec (counter sr + 1) 100); cbn [negb]; lia.
      - right. unfold id. rewrite !append_assoc. exact Hsz. }
  rewrite Hd2. fold dstDir. fold dstFile. fold l3.
  eexists _, _. split; [reflexivity|]. split; [|split; [|split; [|split]]].
  - rewrite appended_files, Hf2. cbn [default id from_option]. unfold id.
    now rewrite !append_assoc.
  - intros _. subst nl. rewrite !append_cons, !append_nil_l.
    rewrite !raw_lines_append by now apply record_line_no_newline.
    reflexivity.
  - now apply decode_record_line.
  - now apply decode_record_line.
  - now apply decode_record_line.
Qed.

End MsgStoreFacts.

Section MsgStoreExamples.
Import GoStrings OS Storer Model Runs GoPathImpl.

(** A segment of 2^20 bytes and more, a counter at 100 and a stream that
    refuses two Publish calls: the call rotates once and one job gets through. *)
Lemma MsgStore_rotation_publishes_one_job_witness :
  exists w',
    MsgStore RotationExamples.sr_due "p" 7%N "hello" RotationExamples.big_world
    = (Return (Ok "datastore/p/current.db"), set_counter 1 RotationExamples.sr_due, w')
    /\ files w' !! "datastore/p/MSG_5000.db" = Some RotationExamples.big_segment
    /\ files w' !! "datastore/p/current.db" = Some ("7:hello" +:+ String newline "")
    /\ published w' = [("onglai-msg.archive.bucket.job.host1",
                        "5000:datastore/p/MSG_5000.db", "5000:datastore/p/MSG_5000.db")].
Proof.
  destruct (MsgStore_rotation_publishes_one_job RotationExamples.sr_due "p" 7%N "hello"
              RotationExamples.big_segment "5000" RotationExamples.big_world)
    as (w' & Hrun & Harch & Hcur & Hpub & _).
  - intros e. reflexivity.
  - reflexivity.
  - vm_compute. discriminate.
  - reflexivity.
  - vm_compute. discriminate.
  - vm_compute. reflexivity.
  - vm_compute. discriminate.
  - exists w'. split; [exact Hrun|]. split; [exact Harch|]. split; [exact Hcur | exact Hpub].
Defined.

(** With the counter at 0 a record is appended to the same oversized segment
    and its size is not looked at; two calls to two partitions move the one
    counter to 2. *)
Lemma MsgStore_shared_check_counter_witness :
  (exists w',
     MsgStore Examples.sr0 "p" 7%N "hello" RotationExamples.big_world
     = (Return (Ok "datastore/p/current.db"), set_counter 1 Examples.sr0, w')
     /\ trace w' = [EvMkdirAll "datastore/p"; EvOpenFile "datastore/p/current.db";
                    EvWriteString "datastore/p/current.db" ("7:hello" +:+ String newline "")])
  /\ (exists w',
        MsgStore_all [("p", 1%N, "a"); ("q", 2%N, "b")] Examples.sr0 RotationExamples.fresh_world
        = (Return (Ok tt), set_counter 2 Examples.sr0, w')).
Proof.
  split.
  - destruct (MsgStore_shared_check_counter Examples.sr0 RotationExamples.big_world)
      as [Hcall _]; [intros e; reflexivity|].
    destruct (Hcall "p" 7%N "hello") as [Hbelow _].
    eexists. split; [apply Hbelow; vm_compute; reflexivity | reflexivity].
  - destruct (MsgStore_shared_check_counter Examples.sr0 RotationExamples.fresh_world)
      as (_ & _ & Hcalls); [intros e; reflexivity|].
    destruct (Hcalls [("p", 1%N, "a"); ("q", 2%N, "b")]) as (w' & Hrun & _).
    + vm_compute. discriminate.
    + exists w'. exact Hrun.
Defined.

(** Records 1:a, 2:b and 3:c appended to a fresh partition. *)
Lemma MsgStore_appends_in_order_witness :
  exists sr' w',
    MsgStore_all [("p", 1%N, "a"); ("p", 2%N, "b"); ("p", 3%N, "c")]
                 Examples.sr0 RotationExamples.fresh_world
    = (Return (Ok tt), sr', w')
    /\ files w' !! "datastore/p/current.db"
       = Some ("1:a" +:+ String newline ("2:b" +:+ String newline ("3:c" +:+ String newline "")))
    /\ decode_line "2:b" = Ok (2%N, "b").
Proof.
  destruct (MsgStore_appends_in_order Examples.sr0 "p" 1%N 2%N 3%N "a" "b" "c"
              RotationExamples.fresh_world)
    as (sr' & w' & Hrun & Hfile & _ & _ & Hdec & _).
  - intros e. reflexivity.
  - vm_compute. discriminate.
  - vm_compute. discriminate.
  - vm_compute. discriminate.
  - reflexivity.
  - reflexivity.
  - reflexivity.
  - left. vm_compute. discriminate.
  - exists sr', w'. split; [exact Hrun|]. split; [exact Hfile | exact Hdec].
Defined.

End MsgStoreExamples.

(** ** A line that is in the index twice *)
Section Duplicates.
Import GoStrings OS Storer Model HandlerModel.
Context `{GoPath}.

Lemma raw_lines_whole (a rest cur : string) :
  raw_lines ((a +:+ String newline "") +:+ rest) cur
  = raw_lines (a +:+ String newline "") cur ++ raw_lines rest "".
Proof.
  revert cur. induction a as [|c a IH]; intros cur.
  - reflexivity.
  - rewrite !append_cons. cbn [raw_lines].
    destruct (Ascii.eqb c newline); rewrite IH; reflexivity.
Qed.

Lemma raw_lines_whole_lines (old rest : string) :
  whole_lines old -> raw_lines (old +:+ rest) "" = raw_lines old "" ++ raw_lines rest "".
Proof.
  intros [-> | [a ->]]; [reflexivity | apply raw_lines_whole].
Qed.


Lemma scan_index_head (s : N) (x : string) (l1 l2 : list string) :
  (forall afile, scan_index s l1 afile = scan_index s l2 afile) ->
  forall afile, scan_index s (x :: l1) afile = scan_index s (x :: l2) afile.
Proof.
  intros Heq afile. cbn [scan_index].
  destruct (index (SplitN2 x) 0) as [f0| |]; [|reflexivity..].
  destruct (ParseUint f0) as [n| |]; [|apply Heq..].
  destruct (n <=? s)%N; [|reflexivity].
  destruct (index (SplitN2 x) 1); [apply Heq | reflexivity..].
Qed.



End Duplicates.

(** A lookup only depends on the index through its scan. *)
Section LookupDuplicates.
Import GoStrings OS Storer Model HandlerModel.
Context `{GoPath}.


End LookupDuplicates.

(** ** The archival handler *)
Section HandlerFacts.
Import GoStrings OS Uploader Model HandlerModel.
Context `{GoPath} `{GoURL}.

(** The handler on a job whose segment cannot be read. *)
Lemma msgHandler_unread
  (u : Uploader) (m : Msg) (seq archiveFilename : string) (w : World) :
  SplitN2 (Data m) = [seq; archiveFilename] ->
  msgHandler u m w
  = if faulty w (EvReadFile archiveFilename)
    then (Ok tt, log (EvNak (Data m)) (log (EvReadFile archiveFilename) w))
    else match files w !! archiveFilename with
         | None => (Ok tt, log (EvAck (Data m)) (log (EvReadFile archiveFilename) w))
         | Some _ => msgHandler u m w
         end.
Proof.
  intros Hsplit. destruct (faulty w (EvReadFile archiveFilename)) eqn:Hf;
    [|destruct (files w !! archiveFilename) eqn:Hl; [reflexivity|]];
    unfold msgHandler; rewrite Hsplit; cbn [index lookup list_lookup];
    unfold os_ReadFile; cbv zeta; world; rewrite Hf, ?Hl; reflexivity.
Qed.

(** The handler on a job whose segment is read and whose upload and index
    append go through: what it leaves depends on RemoveAll alone. *)
Lemma msgHandler_handled
  (u : Uploader) (m : Msg) (seq archiveFilename data escaped : string) (w : World) :
  let bucket := bucketName u in
  let key := bucketCategory u +:+ "/" +:+ archiveFilename in
  let idx := path_Join [path_Dir archiveFilename; "archive.index"] in
  let line := seq +:+ ":" +:+ ("https://" +:+ escaped) +:+ String newline "" in
  SplitN2 (Data m) = [seq; archiveFilename] ->
  files w !! archiveFilename = Some data ->
  url_EscapedPath (bucket +:+ "/" +:+ key) = Ok escaped ->
  faulty w (EvReadFile archiveFilename) = false ->
  faulty w (EvCopy bucket key data ACLPublicRead) = false ->
  faulty w (EvClose bucket key) = false ->
  faulty w (EvOpenFile idx) = false ->
  faulty w (EvWriteString idx line) = false ->
  msgHandler u m w
  = (Ok tt, handled u m seq archiveFilename data escaped
              (negb (faulty w (EvRemoveAll archiveFilename))) w).
Proof.
  intros bucket key idx line Hsplit Hfile Hurl Hread Hcopy Hclose Hopen Hwrite.
  unfold msgHandler, handled. rewrite Hsplit. cbn [index lookup list_lookup].
  unfold os_ReadFile, saveFile, gcs_Copy, gcs_Close, bind, lift, ret.
  cbn [FileName Category RawData]. fold bucket. fold key.
  repeat (progress (world; cbv beta iota zeta;
                    rewrite ?Hread, ?Hfile, ?Hcopy, ?Hclose, ?Hurl)).
  cbn [fst snd]. rewrite Hurl.
  unfold Uploader.updateIndex, bind, ret, os_OpenFile, file_WriteString, os_RemoveAll.
  fold idx. fold line.
  repeat (progress (world; cbv beta iota zeta; rewrite ?Hopen)).
  destruct (files w !! idx) as [c|] eqn:Hidx;
    repeat (progress (world; cbv beta iota zeta; rewrite ?Hwrite, ?Hidx, ?lookup_insert_eq));
    destruct (faulty w (EvRemoveAll archiveFilename)); cbn [negb];
    world; cbn [default from_option id]; unfold id;
    rewrite ?insert_insert_eq, <- !app_assoc; reflexivity.
Qed.

(** C10.  When the segment named by the job does not exist, the handler
    makes two calls, the read and the Ack: nothing is uploaded, no file is
    written.  When the read fails in any other way, the handler makes two
    calls, the read and the Nak. *)
Theorem msgHandler_missing_segment
  (u : Uploader) (m : Msg) (seq archiveFilename : string) (w : World) :
  SplitN2 (Data m) = [seq; archiveFilename] ->
  (faulty w (EvReadFile archiveFilename) = false ->
   files w !! archiveFilename = None ->
   msgHandler u m w
   = (Ok tt, log (EvAck (Data m)) (log (EvReadFile archiveFilename) w)))
  /\ (faulty w (EvReadFile archiveFilename) = true ->
      msgHandler u m w
      = (Ok tt, log (EvNak (Data m)) (log (EvReadFile archiveFilename) w))).
Proof.
  intros Hsplit. rewrite (msgHandler_unread u m seq archiveFilename w Hsplit). split.
  - intros -> ->. reflexivity.
  - intros ->. reflexivity.
Qed.

(** Run the handler's calls with what is known about the faults. *)
Ltac run_handler :=
  repeat (progress (world; cbv beta iota zeta;
                    repeat match goal with
                           | Hf : faulty _ _ = _ |- _ => rewrite Hf
                           | Hl : files _ !! _ = _ |- _ => rewrite Hl
                           | Hu : url_EscapedPath _ = _ |- _ => rewrite Hu
                           end)).

(** C7.  For a job "<seq>:<path>" whose segment exists and is read, the
    handler calls, in this order: ReadFile of the segment; Copy of its bytes
    into the object <category>/<path> of the bucket, written with the
    public-read ACL, and Close of that object; OpenFile and WriteString of the
    line "<seq>:<url>" on archive.index in the directory of the segment;
    RemoveAll of the segment; Ack.  A failure of the upload (Copy, Close, or
    the URL of the result), of the index append (OpenFile, WriteString) or of
    RemoveAll ends the handler with a Nak and without an Ack; when the upload
    fails, no file has changed. *)
Theorem msgHandler_archives
  (u : Uploader) (m : Msg) (seq archiveFilename data : string) (w : World) :
  let bucket := bucketName u in
  let key := bucketCategory u +:+ "/" +:+ archiveFilename in
  let idx := path_Join [path_Dir archiveFilename; "archive.index"] in
  let read := EvReadFile archiveFilename in
  let copy := EvCopy bucket key data ACLPublicRead in
  let close := EvClose bucket key in
  let remove := EvRemoveAll archiveFilename in
  let nak := EvNak (Data m) in
  let stored := set_objects (<[(bucket, key) := (data, ACLPublicRead)]> (objects w))
                            (log close (log copy (log read w))) in
  SplitN2 (Data m) = [seq; archiveFilename] ->
  faulty w read = false ->
  files w !! archiveFilename = Some data ->
  (faulty w copy = true ->
     msgHandler u m w = (Ok tt, log nak (log copy (log read w))))
  /\ (faulty w copy = false -> faulty w close = true ->
      msgHandler u m w = (Ok tt, log nak (log close (log copy (log read w)))))
  /\ (faulty w copy = false -> faulty w close = false ->
      (forall e, url_EscapedPath (bucket +:+ "/" +:+ key) = Err e ->
         msgHandler u m w = (Ok tt, log nak stored))
      /\ (forall escaped, url_EscapedPath (bucket +:+ "/" +:+ key) = Ok escaped ->
          let line := seq +:+ ":" +:+ ("https://" +:+ escaped) +:+ String newline "" in
          let open := EvOpenFile idx in
          let write := EvWriteString idx line in
          let old := default "" (files w !! idx) in
          (faulty w open = true ->
             msgHandler u m w = (Ok tt, log nak (log open stored)))
          /\ (faulty w open = false -> faulty w write = true ->
              exists w',
                msgHandler u m w = (Ok tt, w')
                /\ events_since w w' = [read; copy; close; open; write; nak]
                /\ files w' = <[idx := old]> (files w))
          /\ (faulty w open = false -> faulty w write = false ->
              (faulty w remove = true ->
                 exists w',
                   msgHandler u m w = (Ok tt, w')
                   /\ events_since w w' = [read; copy; close; open; write; remove; nak]
                   /\ files w' = <[idx := old +:+ line]> (files w))
              /\ (faulty w remove = false ->
                  exists w',
                    msgHandler u m w = (Ok tt, w')
                    /\ events_since w w'
                       = [read; copy; close; open; write; remove; EvAck (Data m)]
                    /\ files w' = delete archiveFilename (<[idx := old +:+ line]> (files w))
                    /\ objects w' = <[(bucket, key) := (data, ACLPublicRead)]> (objects w))))).
Proof.
  intros bucket key idx read copy close remove nak stored.
  subst read copy close remove nak stored. intros Hsplit Hread Hfile.
  unfold msgHandler. rewrite Hsplit. cbn [index lookup list_lookup].
  unfold os_ReadFile, saveFile, gcs_Copy, gcs_Close, bind, lift, ret.
  cbn [FileName Category RawData].
  fold bucket. fold key.
  run_handler.
  split; [|split].
  - intros Hcopy. run_handler. reflexivity.
  - intros Hcopy Hclose. run_handler. reflexivity.
  - intros Hcopy Hclose. run_handler. cbn [fst snd]. split.
    + intros e Hurl. run_handler. reflexivity.
    + intros escaped Hurl. run_handler.
      unfold Uploader.updateIndex, bind, ret, os_OpenFile, file_WriteString, os_RemoveAll.
      fold idx. run_handler.
      split; [|split].
      * intros Hopen. run_handler. reflexivity.
      * intros Hopen Hwrite. run_handler.
        destruct (files w !! idx) as [c|] eqn:Hidx; run_handler;
          (eexists; split; [reflexivity|]; split;
           [apply events_since_app; world; rewrite <- !app_assoc; reflexivity|]).
        -- world. cbn. rewrite insert_id by assumption. reflexivity.
        -- world. reflexivity.
      * intros Hopen Hwrite. split; intros Hremove; run_handler.
        -- destruct (files w !! idx) as [c|] eqn:Hidx; run_handler;
             rewrite ?lookup_insert_eq; run_handler;
             (eexists; split; [reflexivity|]; split;
              [apply events_since_app; world; rewrite <- !app_assoc; reflexivity|]);
             world; cbn; rewrite ?insert_insert_eq; reflexivity.
        -- destruct (files w !! idx) as [c|] eqn:Hidx; run_handler;
             rewrite ?lookup_insert_eq; run_handler;
             (eexists; split; [reflexivity|]; split;
              [apply events_since_app; world; rewrite <- !app_assoc; reflexivity|]);
             world; cbn; rewrite ?insert_insert_eq; split; reflexivity.
Qed.


End HandlerFacts.

Section HandlerExamples.
Import GoStrings OS Uploader Model HandlerModel GoPathImpl HandlerExamples RedeliveryExamples.

(** The job of the example, handled without a fault. *)
Lemma msgHandler_archives_witness :
  exists w',
    msgHandler u0 job0 job_world = (Ok tt, w')
    /\ events_since job_world w'
       = [EvReadFile "datastore/p/MSG_5000.db";
          EvCopy "example.com" "msg-store/datastore/p/MSG_5000.db" segment0 ACLPublicRead;
          EvClose "example.com" "msg-store/datastore/p/MSG_5000.db";
          EvOpenFile "datastore/p/archive.index";
          EvWriteString "datastore/p/archive.index" line0;
          EvRemoveAll "datastore/p/MSG_5000.db";
          EvAck "5000:datastore/p/MSG_5000.db"]
    /\ files w' = delete "datastore/p/MSG_5000.db"
                    (<["datastore/p/archive.index" := line0]> (files job_world))
    /\ objects w' = <[("example.com", "msg-store/datastore/p/MSG_5000.db")
                      := (segment0, ACLPublicRead)]> (objects job_world).
Proof.
  destruct (@msgHandler_archives go_path plain_url u0 job0 "5000" "datastore/p/MSG_5000.db" segment0 job_world
              eq_refl eq_refl eq_refl) as (_ & _ & Hupload).
  destruct (Hupload eq_refl eq_refl) as [_ Hurl].
  destruct (Hurl "example.com/msg-store/datastore/p/MSG_5000.db" eq_refl) as (_ & _ & Hindex).
  destruct (Hindex eq_refl eq_refl) as [_ Hremove].
  exact (Hremove eq_refl).
Defined.

(** The same job when the segment is not there. *)
Lemma msgHandler_missing_segment_witness :
  msgHandler u0 job0 RotationExamples.fresh_world
  = (Ok tt, log (EvAck "5000:datastore/p/MSG_5000.db")
              (log (EvReadFile "datastore/p/MSG_5000.db") RotationExamples.fresh_world)).
Proof.
  destruct (@msgHandler_missing_segment go_path plain_url u0 job0 "5000" "datastore/p/MSG_5000.db"
              RotationExamples.fresh_world eq_refl) as [Hmissing _].
  exact (Hmissing eq_refl eq_refl).
Defined.



End HandlerExamples.

(** ** nakDelay *)
Section BackoffFacts.
Import WorkQueue Backoff.
Local Open Scope Z_scope.

Lemma wrap64_small (z : Z) : - 2 ^ 63 <= z < 2 ^ 63 -> wrap64 z = z.
Proof. intros Hz. unfold wrap64. rewrite Z.mod_small; lia. Qed.

Lemma shl1_pow (n : Z) : 0 <= n < 63 -> shl1 n = 2 ^ n.
Proof.
  intros Hn. unfold shl1. destruct (Z.leb_spec 64 n); [lia|].
  rewrite Z.shiftl_1_l. apply wrap64_small.
  split; [pose proof (Z.pow_pos_nonneg 2 n); lia|].
  apply Z.pow_lt_mono_r; lia.
Qed.

(** C2, the positive part that holds for all inputs: a delay that nakDelay
    returns is positive, because a sum that is not is replaced by the base. *)
Lemma nakDelay_positive (AckWait : Z) (meta : option MsgMetadata) (Int63n : Z -> Z) (r : Z) :
  nakDelay AckWait meta Int63n = Ok r -> 0 < r.
Proof.
  unfold nakDelay.
  set (ackWait := if AckWait <=? 0 then DefaultAckWait else AckWait).
  set (base := if ackWait ÷ 4 <? Second then Second else ackWait ÷ 4).
  assert (0 < base) as Hbase.
  { unfold base, Second. destruct (Z.ltb_spec (ackWait ÷ 4) 1000000000); lia. }
  destruct (wrap64 (_ - 1) <? 0); [discriminate|].
  match goal with |- context [wrap64 (?d + ?j) <=? 0] =>
    destruct (Z.leb_spec (wrap64 (d + j)) 0) end; intros [= <-]; lia.
Qed.

(** nakDelay computes the backoff of the specification whenever neither the
    product nor the sum leaves the range of int64. *)
Lemma nakDelay_exact (AckWait : Z) (meta : option MsgMetadata) (Int63n : Z -> Z) :
  let attempt := attempt_of meta in
  let delay := delay_of AckWait attempt in
  0 < AckWait < 2 ^ 63 ->
  draws_below Int63n ->
  base_of AckWait * 2 ^ (attempt - 1) < 2 ^ 63 ->
  delay + jitter_range delay <= 2 ^ 63 ->
  exists jitter,
    0 <= jitter < jitter_range delay
    /\ nakDelay AckWait meta Int63n = Ok (delay + jitter)
    /\ 0 < delay + jitter.
Proof.
  intros attempt delay HAck Hdraw Hprod Hsum.
  assert (1000000000 <= base_of AckWait) as Hbase by (unfold base_of, Second; lia).
  assert (1 <= attempt) as Hatt1 by (unfold attempt, attempt_of; destruct meta; lia).
  assert (attempt - 1 < 63) as Hatt63.
  { destruct (Z.lt_ge_cases (attempt - 1) 63) as [?|Hge]; [assumption|exfalso].
    assert (2 ^ 63 <= 2 ^ (attempt - 1)) as Hpow by (apply Z.pow_le_mono_r; lia).
    nia. }
  assert (0 < 2 ^ (attempt - 1)) as Hpowpos by (apply Z.pow_pos_nonneg; lia).
  assert (0 < cap_of AckWait) as Hcap.
  { unfold cap_of. destruct (Z.leb_spec (AckWait - Second) 0); unfold Second in *; lia. }
  assert (base_of AckWait <= base_of AckWait * 2 ^ (attempt - 1)) as Hge.
  { rewrite <- (Z.mul_1_r (base_of AckWait)) at 1.
    apply Z.mul_le_mono_nonneg_l; lia. }
  assert (0 < delay) as Hdelay by (unfold delay, delay_of, Second in *; lia).
  assert (0 < jitter_range delay) as Hrange by (unfold jitter_range, Millisecond; lia).
  exists (Int63n (jitter_range delay)).
  pose proof (Hdraw _ Hrange) as Hj.
  split; [exact Hj|]. split; [|lia].
  unfold nakDelay.
  (* attempt *)
  assert ((match meta with
           | Some md => if (0 <? NumDelivered md)%N then wrap64 (Z.of_N (NumDelivered md)) else 1
           | None => 1
           end) = attempt) as ->.
  { unfold attempt, attempt_of in *. destruct meta as [md|]; [|reflexivity].
    destruct (N.ltb_spec 0 (NumDelivered md)); [|lia].
    rewrite wrap64_small; lia. }
  (* ackWait, baseDelay, maxDelay *)
  destruct (Z.leb_spec AckWait 0) as [?|_]; [lia|].
  assert ((if AckWait ÷ 4 <? Second then Second else AckWait ÷ 4) = base_of AckWait) as ->.
  { unfold base_of. destruct (Z.ltb_spec (AckWait ÷ 4) Second); unfold Second in *; lia. }
  assert (wrap64 (AckWait - Second) = AckWait - Second) as ->
    by (apply wrap64_small; unfold Second; lia).
  fold (cap_of AckWait).
  (* the shift *)
  rewrite (wrap64_small (attempt - 1)) by lia.
  destruct (Z.ltb_spec (attempt - 1) 0) as [?|_]; [lia|].
  rewrite shl1_pow by lia.
  rewrite (wrap64_small (base_of AckWait * 2 ^ (attempt - 1))) by lia.
  assert ((if cap_of AckWait <? base_of AckWait * 2 ^ (attempt - 1)
           then cap_of AckWait else base_of AckWait * 2 ^ (attempt - 1)) = delay) as ->.
  { unfold delay, delay_of.
    destruct (Z.ltb_spec (cap_of AckWait) (base_of AckWait * 2 ^ (attempt - 1))); lia. }
  (* the jitter and the sum *)
  assert ((if delay ÷ 5 <? Millisecond then Millisecond else delay ÷ 5) = jitter_range delay)
    as ->.
  { unfold jitter_range.
    destruct (Z.ltb_spec (delay ÷ 5) Millisecond); unfold Millisecond in *; lia. }
  rewrite wrap64_small by lia.
  destruct (Z.leb_spec (delay + Int63n (jitter_range delay)) 0); [lia | reflexivity].
Qed.

(** C2, as the code has it.  For an AckWait > 0 and a delivery count for
    which base * 2^(attempt-1) and delay + max(1ms, delay/5) stay within
    int64, nakDelay returns delay + jitter, with attempt = max(1, NumDelivered),
    base = max(1s, AckWait/4), delay = min(base * 2^(attempt-1), AckWait - 1s)
    (the cap being base when AckWait - 1s <= 0) and 0 <= jitter <
    max(1ms, delay/5); that sum is positive.  For all inputs a returned delay
    is positive.  With AckWait = 30s the first attempt gets a delay in
    [7.5s, 9s) and the third one in [29s, 29s + 5.8s). *)
Theorem nakDelay_backoff (Int63n : Z -> Z) :
  draws_below Int63n ->
  (forall (AckWait : Z) (meta : option MsgMetadata),
     let attempt := attempt_of meta in
     let delay := delay_of AckWait attempt in
     0 < AckWait < 2 ^ 63 ->
     base_of AckWait * 2 ^ (attempt - 1) < 2 ^ 63 ->
     delay + jitter_range delay <= 2 ^ 63 ->
     exists jitter,
       0 <= jitter < jitter_range delay
       /\ nakDelay AckWait meta Int63n = Ok (delay + jitter)
       /\ 0 < delay + jitter)
  /\ (forall (AckWait : Z) (meta : option MsgMetadata) (r : Z),
        nakDelay AckWait meta Int63n = Ok r -> 0 < r)
  /\ (exists r, nakDelay (30 * Second) (Some (mkMeta 1)) Int63n = Ok r
                /\ 7500000000 <= r < 9000000000)
  /\ (exists r, nakDelay (30 * Second) (Some (mkMeta 3)) Int63n = Ok r
                /\ 29 * Second <= r < 29 * Second + 5800000000).
Proof.
  intros Hdraw. split; [|split; [|split]].
  - intros AckWait meta attempt delay HAck Hprod Hsum. now apply nakDelay_exact.
  - intros AckWait meta r. apply nakDelay_positive.
  - destruct (nakDelay_exact (30 * Second) (Some (mkMeta 1)) Int63n) as (j & Hj & Hr & _);
      [vm_compute; split; reflexivity | assumption | vm_compute; reflexivity
      | vm_compute; discriminate |].
    eexists. split; [exact Hr|].
    change (delay_of (30 * Second) (attempt_of (Some (mkMeta 1)))) with 7500000000 in *.
    change (jitter_range 7500000000) with 1500000000 in Hj. lia.
  - destruct (nakDelay_exact (30 * Second) (Some (mkMeta 3)) Int63n) as (j & Hj & Hr & _);
      [vm_compute; split; reflexivity | assumption | vm_compute; reflexivity
      | vm_compute; discriminate |].
    eexists. split; [exact Hr|].
    change (delay_of (30 * Second) (attempt_of (Some (mkMeta 3)))) with 29000000000 in *.
    change (jitter_range 29000000000) with 5800000000 in Hj.
    change (29 * Second) with 29000000000. lia.
Qed.

End BackoffFacts.

Section BackoffExamples.
Import WorkQueue Backoff.
Local Open Scope Z_scope.

(** C2 as stated fails on the 32nd delivery with AckWait = 30s: the product
    7.5s * 2^31 wraps to a negative int64, the sum is not positive, and the
    delay is the base, 7.5s, where the formula gives 29s plus jitter. *)
Lemma nakDelay_wraps_at_32 :
  nakDelay (30 * Second) (Some (mkMeta 32)) (fun _ => 0) = Ok 7500000000
  /\ delay_of (30 * Second) (attempt_of (Some (mkMeta 32))) = 29000000000
  /\ wrap64 (7500000000 * 2 ^ 31) = -2340616713709551616.
Proof. vm_compute. repeat split. Qed.

(** The bounds of the specification, with a generator that always draws the
    largest value. *)
Lemma nakDelay_backoff_witness :
  (exists r, nakDelay (30 * Second) (Some (mkMeta 1)) (fun n => n - 1) = Ok r
             /\ 7500000000 <= r < 9000000000)
  /\ (exists r, nakDelay (30 * Second) (Some (mkMeta 3)) (fun n => n - 1) = Ok r
                /\ 29 * Second <= r < 29 * Second + 5800000000).
Proof.
  assert (draws_below (fun n => n - 1)) as Hdraw by (intros n Hn; lia).
  destruct (nakDelay_backoff (fun n => n - 1) Hdraw) as (_ & _ & Hfirst & Hthird).
  split; [exact Hfirst | exact Hthird].
Defined.

End BackoffExamples.

(** ** Shutdown of the work queue consumer *)
Section ConsumerFacts.
Import Consumer.

Lemma run_app (sched1 sched2 : list Action) (s : State) :
  run (sched1 ++ sched2) s
  = match run sched1 s with
    | Some s' => run sched2 s'
    | None => None
    end.
Proof.
  revert s. induction sched1 as [|a sched1 IH]; intros s; cbn [app run]; [reflexivity|].
  destruct (fire a s); [apply IH | reflexivity].
Qed.

Lemma count_watching_app (l1 l2 : list Task) :
  count_watching (l1 ++ l2) = (count_watching l1 + count_watching l2)%nat.
Proof. induction l1 as [|t l1 IH]; cbn; [reflexivity | rewrite IH; lia]. Qed.

(** Replacing a task changes the count by what the two tasks contribute. *)
Lemma count_watching_insert (l : list Task) (i : nat) (t t' : Task) :
  l !! i = Some t ->
  (count_watching (<[i := t']> l) + (if is_watching t then 1 else 0)
   = count_watching l + (if is_watching t' then 1 else 0))%nat.
Proof.
  revert i. induction l as [|x l IH]; intros [|i] Hi; try discriminate.
  - injection Hi as ->. change (<[0%nat := t']> (t :: l)) with (t' :: l).
    cbn [count_watching]. destruct (is_watching t), (is_watching t'); lia.
  - change (<[S i := t']> (x :: l)) with (x :: <[i := t']> l).
    cbn [count_watching]. specialize (IH i Hi).
    destruct (is_watching t), (is_watching t'), (is_watching x); lia.
Qed.

Lemma lookup_set_task (s : State) (i j : nat) (t t' : Task) :
  tasks s !! i = Some t ->
  tasks (set_task i t' s) !! j = if decide (i = j) then Some t' else tasks s !! j.
Proof.
  intros Hi. unfold set_task. cbn [tasks]. rewrite list_lookup_insert.
  apply lookup_lt_Some in Hi.
  destruct (decide (i = j)); destruct (decide (i = j ∧ i < length (tasks s)));
    try reflexivity; tauto.
Qed.

(** The three parts of the invariant after one task was replaced. *)
Lemma invariant_set_task (s : State) (i : nat) (t t' : Task) (w u : nat) :
  invariant s ->
  tasks s !! i = Some t ->
  (w + (if is_watching t then 1 else 0) = wg s + (if is_watching t' then 1 else 0))%nat ->
  (sup t' = Acked -> hdl t' = Finished true) ->
  invariant (set_counts w u (set_task i t' s)).
Proof.
  intros (Hwg & Hsh & Hack) Hi Hw Ht'. split; [|split].
  - unfold watching, set_counts, set_task. cbn [wg tasks].
    pose proof (count_watching_insert (tasks s) i t t' Hi) as Hcount.
    unfold watching in Hwg. lia.
  - exact Hsh.
  - intros j tj. unfold set_counts. cbn [tasks].
    rewrite (lookup_set_task s i j t t' Hi).
    destruct (decide (i = j)); [intros [= <-]; exact Ht' | apply Hack].
Qed.

(** Every action keeps the invariant. *)
Lemma fire_invariant (a : Action) (s s' : State) :
  invariant s -> fire a s = Some s' -> invariant s'.
Proof.
  intros Hinv Hfire. pose proof Hinv as (Hwg & Hsh & Hack).
  destruct a; cbn [fire] in Hfire.
  - (* Deliver *)
    injection Hfire as <-. split; [|split]; cbn [wg tasks shutdown cancelled].
    + unfold watching. cbn [tasks]. rewrite count_watching_app. cbn. unfold watching in Hwg. lia.
    + exact Hsh.
    + intros j tj [Hj|[_ <-]]%lookup_snoc_Some; [now apply (Hack j) | discriminate].
  - (* TakePermit *)
    destruct (tasks s !! i) as [[[] h n]|] eqn:Hi; try discriminate.
    destruct (in_use s <? MaxConcurrent s)%nat; [|discriminate]. injection Hfire as <-.
    apply (invariant_set_task s i _ _ _ _ Hinv Hi); cbn; [lia | discriminate].
  - (* TakeDrop *)
    destruct (tasks s !! i) as [[[] h n]|] eqn:Hi; try discriminate.
    destruct (cancelled s); [|discriminate]. injection Hfire as <-.
    replace (set_task i _ s) with (set_counts (wg s) (in_use s) (set_task i (mkTask Dropped h n) s))
      by reflexivity.
    apply (invariant_set_task s i _ _ _ _ Hinv Hi); cbn; [lia | discriminate].
  - (* Spawn *)
    destruct (tasks s !! i) as [[[] h n]|] eqn:Hi; try discriminate.
    injection Hfire as <-.
    apply (invariant_set_task s i _ _ _ _ Hinv Hi); cbn; [lia | discriminate].
  - (* HandlerStart *)
    destruct (tasks s !! i) as [[[] [] n]|] eqn:Hi; try discriminate; injection Hfire as <-.
    + replace (set_task i _ s)
        with (set_counts (wg s) (in_use s) (set_task i (mkTask Watching Running n) s))
        by reflexivity.
      apply (invariant_set_task s i _ _ _ _ Hinv Hi); cbn; [lia | discriminate].
    + replace (set_task i _ s)
        with (set_counts (wg s) (in_use s) (set_task i (mkTask Abandoned Running n) s))
        by reflexivity.
      apply (invariant_set_task s i _ _ _ _ Hinv Hi); cbn; [lia | discriminate].
  - (* HandlerReturn *)
    destruct (tasks s !! i) as [[p [] n]|] eqn:Hi; try discriminate. injection Hfire as <-.
    replace (set_task i _ s)
      with (set_counts (wg s) (in_use s) (set_task i (mkTask p (Finished ok) n) s))
      by reflexivity.
    apply (invariant_set_task s i _ _ _ _ Hinv Hi).
    + unfold is_watching. cbn. lia.
    + cbn. intros ->. specialize (Hack i _ Hi eq_refl). discriminate.
  - (* TakeDone *)
    destruct (tasks s !! i) as [[[] [] n]|] eqn:Hi; try discriminate. injection Hfire as <-.
    assert (1 <= wg s)%nat as Hpos.
    { pose proof (count_watching_insert (tasks s) i _ (mkTask Dropped (Finished ok) n) Hi) as Hc.
      cbn in Hc. unfold watching in Hwg. lia. }
    apply (invariant_set_task s i _ _ _ _ Hinv Hi).
    + cbn. destruct ok; cbn; lia.
    + cbn. destruct ok; [reflexivity | discriminate].
  - (* TakeTick *)
    destruct (tasks s !! i) as [[[] h n]|] eqn:Hi; try discriminate. injection Hfire as <-.
    replace (set_task i _ s)
      with (set_counts (wg s) (in_use s) (set_task i (mkTask Watching h (S n)) s))
      by reflexivity.
    apply (invariant_set_task s i _ _ _ _ Hinv Hi); cbn; [lia | discriminate].
  - (* TakeCancel *)
    destruct (tasks s !! i) as [[[] h n]|] eqn:Hi; try discriminate.
    destruct (cancelled s); [|discriminate]. injection Hfire as <-.
    assert (1 <= wg s)%nat as Hpos.
    { pose proof (count_watching_insert (tasks s) i _ (mkTask Dropped h n) Hi) as Hc.
      cbn in Hc. unfold watching in Hwg. lia. }
    apply (invariant_set_task s i _ _ _ _ Hinv Hi); cbn; [lia | discriminate].
  - (* ShutdownCall *)
    destruct (shutdown s); try discriminate. injection Hfire as <-.
    split; [exact Hwg | split; [reflexivity | exact Hack]].
  - (* ShutdownReturn *)
    destruct (shutdown s) eqn:Hs; try discriminate.
    destruct (wg s) eqn:Hw; try discriminate. injection Hfire as <-.
    split; [|split]; cbn [wg tasks shutdown cancelled].
    + unfold watching in *. cbn [tasks]. congruence.
    + intros _. apply Hsh. congruence.
    + exact Hack.
Qed.

Lemma init_invariant (K : nat) : invariant (init K).
Proof. split; [reflexivity | split; [intros []; reflexivity | intros i t; discriminate]]. Qed.

Lemma run_invariant (sched : list Action) (s s' : State) :
  invariant s -> run sched s = Some s' -> invariant s'.
Proof.
  revert s. induction sched as [|a sched IH]; intros s Hinv; cbn [run].
  - now intros [= <-].
  - destruct (fire a s) as [s1|] eqn:Hfire; [|discriminate].
    apply IH. now apply (fire_invariant a s).
Qed.

(** An action leaves alone the supervisor of a message that took a
    cancellation branch. *)
Lemma fire_gave_up (a : Action) (s s' : State) (i : nat) (p : Supervisor) :
  fire a s = Some s' ->
  supervisor_of s i = Some p -> gave_up p = true ->
  supervisor_of s' i = Some p.
Proof.
  unfold supervisor_of. intros Hfire Hp Hgave.
  destruct (tasks s !! i) as [ti|] eqn:Hti; [|discriminate].
  injection Hp as <-.
  assert (forall j tj tj' w u,
            tasks s !! j = Some tj ->
            (j = i -> sup tj' = sup ti) ->
            sup <$> tasks (set_counts w u (set_task j tj' s)) !! i = Some (sup ti)) as Hset.
  { intros j tj tj' w u Hj Hsame. unfold set_counts. cbn [tasks].
    rewrite (lookup_set_task s j i tj tj' Hj).
    destruct (decide (j = i)) as [->|_]; [cbn; f_equal; now apply Hsame | now rewrite Hti]. }
  assert (forall j tj tj',
            tasks s !! j = Some tj ->
            (j = i -> sup tj' = sup ti) ->
            sup <$> tasks (set_task j tj' s) !! i = Some (sup ti)) as Hset'.
  { intros j tj tj' Hj Hsame. apply (Hset j tj tj' (wg s) (in_use s) Hj Hsame). }
  destruct a; cbn [fire] in Hfire.
  - injection Hfire as <-. cbn [tasks].
    rewrite (lookup_app_l_Some _ _ _ _ Hti). reflexivity.
  - destruct (tasks s !! i0) as [[[] h n]|] eqn:Hi; try discriminate.
    destruct (in_use s <? MaxConcurrent s)%nat; [|discriminate]. injection Hfire as <-.
    apply (Hset _ _ _ _ _ Hi). intros ->. rewrite Hti in Hi. injection Hi as ->. discriminate.
  - destruct (tasks s !! i0) as [[[] h n]|] eqn:Hi; try discriminate.
    destruct (cancelled s); [|discriminate]. injection Hfire as <-.
    apply (Hset' _ _ _ Hi). intros ->. rewrite Hti in Hi. injection Hi as ->. discriminate.
  - destruct (tasks s !! i0) as [[[] h n]|] eqn:Hi; try discriminate.
    injection Hfire as <-.
    apply (Hset _ _ _ _ _ Hi). intros ->. rewrite Hti in Hi. injection Hi as ->. discriminate.
  - destruct (tasks s !! i0) as [[[] [] n]|] eqn:Hi; try discriminate; injection Hfire as <-;
      apply (Hset' _ _ _ Hi); intros ->; rewrite Hti in Hi; injection Hi as ->;
      first [reflexivity | discriminate].
  - destruct (tasks s !! i0) as [[p0 [] n]|] eqn:Hi; try discriminate. injection Hfire as <-.
    apply (Hset' _ _ _ Hi). intros ->. rewrite Hti in Hi. injection Hi as ->. reflexivity.
  - destruct (tasks s !! i0) as [[[] [] n]|] eqn:Hi; try discriminate. injection Hfire as <-.
    apply (Hset _ _ _ _ _ Hi). intros ->. rewrite Hti in Hi. injection Hi as ->. discriminate.
  - destruct (tasks s !! i0) as [[[] h n]|] eqn:Hi; try discriminate. injection Hfire as <-.
    apply (Hset' _ _ _ Hi). intros ->. rewrite Hti in Hi. injection Hi as ->. discriminate.
  - destruct (tasks s !! i0) as [[[] h n]|] eqn:Hi; try discriminate.
    destruct (cancelled s); [|discriminate]. injection Hfire as <-.
    apply (Hset _ _ _ _ _ Hi). intros ->. rewrite Hti in Hi. injection Hi as ->. discriminate.
  - destruct (shutdown s); try discriminate. injection Hfire as <-. cbn [tasks].
    now rewrite Hti.
  - destruct (shutdown s); try discriminate. destruct (wg s); try discriminate.
    injection Hfire as <-. cbn [tasks]. now rewrite Hti.
Qed.

(** C5, as the code has it.  In every state the consumer can reach: the
    wait group counts the processMessage goroutines that are in their select
    loop; Shutdown cancels the context before it waits, and it can return only
    with that count at zero, and does return then.  Once the context is
    cancelled every such goroutine can leave through the cancellation branch,
    whether its handler has finished or not, so the handlers themselves are not
    waited for.  A message is acknowledged only with a handler that returned
    nil; a message whose callback or processMessage took a cancellation branch
    is not acknowledged by any later action. *)
Theorem Shutdown_drains_wait_group (K : nat) (sched : list Action) (s : State) :
  run sched (init K) = Some s ->
  wg s = watching s
  /\ (shutdown s <> NotCalled -> cancelled s = true)
  /\ (forall s', fire ShutdownReturn s = Some s' -> watching s' = 0%nat /\ cancelled s' = true)
  /\ (shutdown s = Waiting -> watching s = 0%nat ->
      exists s', fire ShutdownReturn s = Some s' /\ shutdown s' = Returned)
  /\ (cancelled s = true ->
      forall i, supervisor_of s i = Some Watching ->
                exists s', fire (TakeCancel i) s = Some s'
                           /\ supervisor_of s' i = Some Abandoned
                           /\ handler_of s' i = handler_of s i)
  /\ (forall i, supervisor_of s i = Some Acked -> handler_of s i = Some (Finished true))
  /\ (forall a s' i p,
        fire a s = Some s' -> supervisor_of s i = Some p -> gave_up p = true ->
        supervisor_of s' i = Some p).
Proof.
  intros Hrun.
  pose proof (run_invariant sched (init K) s (init_invariant K) Hrun) as Hinv.
  pose proof Hinv as (Hwg & Hsh & Hack).
  split; [exact Hwg|]. split; [exact Hsh|]. split; [|split; [|split; [|split]]].
  - intros s' Hfire.
    pose proof (fire_invariant ShutdownReturn s s' Hinv Hfire) as (Hwg' & Hsh' & _).
    cbn [fire] in Hfire. destruct (shutdown s); try discriminate.
    destruct (wg s) eqn:Hw; try discriminate. injection Hfire as <-.
    cbn [wg shutdown cancelled] in *. split; [congruence | apply Hsh'; discriminate].
  - intros Hs Hw. cbn [fire]. rewrite Hs. rewrite Hwg, Hw. eexists. split; reflexivity.
  - intros Hc i Hi. unfold supervisor_of, handler_of in *. cbn [fire].
    destruct (tasks s !! i) as [[p h n]|] eqn:Hti; [|discriminate].
    injection Hi as ->. rewrite Hc. eexists. split; [reflexivity|].
    unfold set_counts. cbn [tasks].
    rewrite (lookup_set_task s i i _ _ Hti). destruct (decide (i = i)); [|congruence].
    split; reflexivity.
  - intros i Hi. unfold supervisor_of, handler_of in *.
    destruct (tasks s !! i) as [t|] eqn:Hti; [|discriminate].
    injection Hi as Hi. cbn. f_equal. now apply (Hack i).
  - intros a s' i p. apply fire_gave_up.
Qed.

End ConsumerFacts.

Section ConsumerExamples.
Import Consumer.

(** C5 as stated fails.  With one handler running, Shutdown is called, the
    processMessage goroutine takes the cancellation branch, the wait group
    drops to zero and Shutdown returns while the handler still runs.  And a
    message that was delivered but not started when the context is cancelled
    can still win the permit, run its handler and be acknowledged. *)
Lemma Shutdown_leaves_handler_running :
  ~ Shutdown_waits_for_handlers /\ ~ no_ack_after_cancel.
Proof.
  split.
  - intros Hclaim.
    destruct (Hclaim 1%nat
                [Deliver; TakePermit 0; Spawn 0; HandlerStart 0]
                [TakeCancel 0; ShutdownReturn]
                _ _ _ 0%nat eq_refl eq_refl eq_refl eq_refl eq_refl) as [ok Hok].
    discriminate Hok.
  - intros Hclaim.
    apply (Hclaim 1%nat
             [Deliver]
             [TakePermit 0; Spawn 0; HandlerStart 0; HandlerReturn 0 true; TakeDone 0]
             _ _ _ 0%nat eq_refl eq_refl eq_refl eq_refl).
    reflexivity.
Qed.

(** One message, its handler running when Shutdown is called: Shutdown
    returns with the wait group at zero and the handler still running. *)
Lemma Shutdown_drains_wait_group_witness :
  exists s,
    run [Deliver; TakePermit 0; Spawn 0; HandlerStart 0; ShutdownCall; TakeCancel 0;
         ShutdownReturn] (init 1) = Some s
    /\ shutdown s = Returned /\ wg s = watching s /\ cancelled s = true
    /\ handler_of s 0 = Some Running.
Proof.
  eexists. split; [reflexivity|].
  destruct (Shutdown_drains_wait_group 1
              [Deliver; TakePermit 0; Spawn 0; HandlerStart 0; ShutdownCall; TakeCancel 0;
               ShutdownReturn] _ eq_refl) as (Hwg & Hsh & _).
  split; [reflexivity|]. split; [exact Hwg|]. split; [apply Hsh; discriminate | reflexivity].
Defined.

End ConsumerExamples.

(** ** Lookups at the edges of the index *)
Section LookupEdges.
Import GoStrings OS Storer Model.
Context `{GoPath}.

(** X1.  A partition that has a current segment and no archive.index (it has
    never rotated) answers a request below the first sequence of the current
    segment with the error of opening the index, which os.IsNotExist
    recognises; ErrSeqNotFound is the answer only when the index is there and
    no line of it qualifies, as with an empty index. *)
Theorem GetArchivedFileBySeq_without_index
  (sr : Storer) (dstPath : string) (s C : N) (payload rest : string) (w : World) :
  let dstDir := path_Join [datastore sr; dstPath] in
  let currentFile := path_Join [dstDir; DefaultCurrentDB] in
  let indexFile := path_Join [dstDir; DefaultArchiveIndex] in
  let w' := log (EvOpen indexFile) (log (EvOpen currentFile) w) in
  no_faults w ->
  (C <= maxUint64)%N ->
  files w !! currentFile = Some (record_line C payload +:+ String newline rest) ->
  (s < C)%N ->
  (files w !! indexFile = None ->
     exists e, GetArchivedFileBySeq sr dstPath s w = (Err e, w')
               /\ os_IsNotExist e = true /\ e <> ErrSeqNotFound)
  /\ (files w !! indexFile = Some "" ->
      GetArchivedFileBySeq sr dstPath s w = (Err ErrSeqNotFound, w')).
Proof.
  intros dstDir currentFile indexFile w' Hnf Hmax Hcur Hlt.
  rewrite GetArchivedFileBySeq_eq. cbv zeta. fold dstDir. fold currentFile. fold indexFile.
  rewrite !Hnf, Hcur, first_field_record, ParseUint_FormatUint by assumption.
  apply N.leb_gt in Hlt. rewrite Hlt. split.
  - intros ->. exists ErrNotExist. split; [reflexivity|]. split; [reflexivity | discriminate].
  - intros ->. reflexivity.
Qed.

(** X2.  GetArchivedFileBySeq only reads: whatever fails and whatever the
    files hold, it leaves every file, the stream and the bucket as they were,
    and it makes one call, the open of the current segment, or two, that open
    and the open of archive.index. *)
Theorem GetArchivedFileBySeq_read_only
  (sr : Storer) (dstPath : string) (s : N) (w : World) :
  let dstDir := path_Join [datastore sr; dstPath] in
  let currentFile := path_Join [dstDir; DefaultCurrentDB] in
  let indexFile := path_Join [dstDir; DefaultArchiveIndex] in
  let w' := snd (GetArchivedFileBySeq sr dstPath s w) in
  files w' = files w /\ published w' = published w /\ objects w' = objects w
  /\ (events_since w w' = [EvOpen currentFile]
      \/ events_since w w' = [EvOpen currentFile; EvOpen indexFile]).
Proof.
  intros dstDir currentFile indexFile.
  rewrite GetArchivedFileBySeq_eq. cbv zeta. fold dstDir. fold currentFile. fold indexFile.
  assert (forall r : result string,
            let w1 := (r, log (EvOpen currentFile) w) in
            files (snd w1) = files w /\ published (snd w1) = published w
            /\ objects (snd w1) = objects w
            /\ (events_since w (snd w1) = [EvOpen currentFile]
                \/ events_since w (snd w1) = [EvOpen currentFile; EvOpen indexFile])) as Hone.
  { intros r. cbn. repeat split. left. now apply events_since_app. }
  assert (forall r : result string,
            let w2 := (r, log (EvOpen indexFile) (log (EvOpen currentFile) w)) in
            files (snd w2) = files w /\ published (snd w2) = published w
            /\ objects (snd w2) = objects w
            /\ (events_since w (snd w2) = [EvOpen currentFile]
                \/ events_since w (snd w2) = [EvOpen currentFile; EvOpen indexFile])) as Htwo.
  { intros r. cbn. repeat split. right. apply events_since_app. cbn.
    now rewrite <- app_assoc. }
  destruct (faulty w (EvOpen currentFile)); [apply Hone|].
  destruct (files w !! currentFile) as [c|]; [|apply Hone].
  destruct (first_field c) as [field| |]; [|apply Hone..].
  destruct (ParseUint field) as [C| |]; [|apply Hone..].
  destruct (C <=? s)%N; [apply Hone|].
  destruct (faulty w (EvOpen indexFile)); [apply Htwo|].
  destruct (files w !! indexFile) as [fr|]; [|apply Htwo].
  destruct (scan_index s (Scanner_lines fr) "") as [afile| |]; [|apply Htwo..].
  destruct (afile =? "")%string; apply Htwo.
Qed.

(** A lookup depends on archive.index through the scan of its lines only. *)
Lemma GetArchivedFileBySeq_same_scan
  (sr : Storer) (dstPath : string) (s : N) (idx1 idx2 : string) (w : World) :
  let dstDir := path_Join [datastore sr; dstPath] in
  let currentFile := path_Join [dstDir; DefaultCurrentDB] in
  let indexFile := path_Join [dstDir; DefaultArchiveIndex] in
  currentFile <> indexFile ->
  files w !! indexFile = Some idx1 ->
  scan_index s (Scanner_lines idx1) "" = scan_index s (Scanner_lines idx2) "" ->
  fst (GetArchivedFileBySeq sr dstPath s w)
  = fst (GetArchivedFileBySeq sr dstPath s
           (set_files (<[indexFile := idx2]> (files w)) w)).
Proof.
  intros dstDir currentFile indexFile Hne Hidx Hscan.
  rewrite !GetArchivedFileBySeq_eq. cbv zeta.
  fold dstDir. fold currentFile. fold indexFile. world.
  rewrite lookup_insert_ne by congruence. rewrite lookup_insert_eq, Hidx, Hscan.
  destruct (faulty w (EvOpen currentFile)); [reflexivity|].
  destruct (files w !! currentFile) as [c|]; [|reflexivity].
  destruct (first_field c) as [field| |]; [|reflexivity..].
  destruct (ParseUint field) as [C| |]; [|reflexivity..].
  destruct (C <=? s)%N; [reflexivity|].
  destruct (faulty w (EvOpen indexFile)); [reflexivity|].
  destruct (scan_index s (Scanner_lines idx2) "") as [afile| |]; [|reflexivity..].
  destruct (afile =? "")%string; reflexivity.
Qed.

(** The lines of a text that continues after a line [x]. *)
Lemma raw_lines_middle (old x rest : string) :
  HandlerModel.whole_lines old -> no_newline x = true ->
  raw_lines (old +:+ x +:+ String newline rest) ""
  = raw_lines old "" ++ x :: raw_lines rest "".
Proof.
  intros Hold Hx.
  rewrite (raw_lines_whole_lines old (x +:+ String newline rest) Hold).
  rewrite raw_lines_append by assumption. now rewrite append_nil_l.
Qed.

(** The loop passes over a line whose first field is not a number. *)
Lemma scan_tokens_skip (s : N) (x : string) (e : error) (ls rest : list string) :
  (N.of_nat (String.length x) < MaxScanTokenSize)%N ->
  IndexLines.line_sequence (dropCR x) = Err e ->
  forall afile,
    scan_index s (scan_tokens (ls ++ x :: rest)) afile
    = scan_index s (scan_tokens (ls ++ rest)) afile.
Proof.
  intros Hlen Hseq. induction ls as [|l ls IH]; cbn [app scan_tokens].
  - intros afile.
    destruct (N.leb_spec MaxScanTokenSize (N.of_nat (String.length x))); [lia|].
    cbn [scan_index]. unfold IndexLines.line_sequence, index in *.
    destruct (SplitN2 (dropCR x) !! 0%nat) as [f0|]; [|discriminate].
    now rewrite Hseq.
  - destruct (MaxScanTokenSize <=? N.of_nat (String.length l))%N; [reflexivity|].
    now apply scan_index_head.
Qed.

(** The Scanner stops at a line that does not fit its buffer. *)
Lemma scan_tokens_too_long (s : N) (x : string) (ls rest : list string) :
  (MaxScanTokenSize <= N.of_nat (String.length x))%N ->
  forall afile,
    scan_index s (scan_tokens (ls ++ x :: rest)) afile
    = scan_index s (scan_tokens ls) afile.
Proof.
  intros Hlen. induction ls as [|l ls IH]; cbn [app scan_tokens].
  - intros afile.
    destruct (N.leb_spec MaxScanTokenSize (N.of_nat (String.length x))); [reflexivity | lia].
  - destruct (MaxScanTokenSize <=? N.of_nat (String.length l))%N; [reflexivity|].
    now apply scan_index_head.
Qed.

(** X3.  A line of archive.index whose first field is not an unsigned
    integer (a blank line, a comment, a damaged entry) is logged and passed
    over: every lookup is answered as if the line were not in the file. *)
Theorem GetArchivedFileBySeq_skips_unparsed_line
  (sr : Storer) (dstPath : string) (s : N) (old bad rest : string) (e : error) (w : World) :
  let dstDir := path_Join [datastore sr; dstPath] in
  let currentFile := path_Join [dstDir; DefaultCurrentDB] in
  let indexFile := path_Join [dstDir; DefaultArchiveIndex] in
  HandlerModel.whole_lines old ->
  no_newline bad = true ->
  (N.of_nat (String.length bad) < MaxScanTokenSize)%N ->
  IndexLines.line_sequence (dropCR bad) = Err e ->
  currentFile <> indexFile ->
  files w !! indexFile = Some (old +:+ bad +:+ String newline rest) ->
  fst (GetArchivedFileBySeq sr dstPath s w)
  = fst (GetArchivedFileBySeq sr dstPath s
           (set_files (<[indexFile := old +:+ rest]> (files w)) w)).
Proof.
  intros dstDir currentFile indexFile Hold Hbad Hlen Hseq Hne Hidx.
  apply GetArchivedFileBySeq_same_scan with (idx1 := old +:+ bad +:+ String newline rest);
    [assumption..|].
  unfold Scanner_lines.
  rewrite raw_lines_middle, (raw_lines_whole_lines old rest) by assumption.
  now apply scan_tokens_skip with (e := e).
Qed.

(** X4.  A line of archive.index of 65536 bytes or more ends the scan: the
    Scanner stops there, its error is not looked at, and every lookup is
    answered from the lines before that line alone; entries after it are
    never found. *)
Theorem GetArchivedFileBySeq_long_line_ends_scan
  (sr : Storer) (dstPath : string) (s : N) (old long rest : string) (w : World) :
  let dstDir := path_Join [datastore sr; dstPath] in
  let currentFile := path_Join [dstDir; DefaultCurrentDB] in
  let indexFile := path_Join [dstDir; DefaultArchiveIndex] in
  HandlerModel.whole_lines old ->
  no_newline long = true ->
  (MaxScanTokenSize <= N.of_nat (String.length long))%N ->
  currentFile <> indexFile ->
  files w !! indexFile = Some (old +:+ long +:+ String newline rest) ->
  fst (GetArchivedFileBySeq sr dstPath s w)
  = fst (GetArchivedFileBySeq sr dstPath s
           (set_files (<[indexFile := old]> (files w)) w)).
Proof.
  intros dstDir currentFile indexFile Hold Hlong Hlen Hne Hidx.
  apply GetArchivedFileBySeq_same_scan with (idx1 := old +:+ long +:+ String newline rest);
    [assumption..|].
  unfold Scanner_lines. rewrite raw_lines_middle by assumption.
  now apply scan_tokens_too_long.
Qed.

Lemma raw_lines_index_file_app (es : list IndexEntry) (rest : string) :
  forallb valid_entry es = true ->
  raw_lines (index_file es +:+ rest) "" = map entry_line es ++ raw_lines rest "".
Proof.
  induction es as [|e es IH]; [reflexivity|].
  cbn [index_file forallb map app]. intros [He Hes]%andb_true_iff.
  rewrite append_assoc, append_cons.
  rewrite raw_lines_append by now apply entry_line_no_newline.
  rewrite append_nil_l, IH by assumption. reflexivity.
Qed.

(** The Scanner yields an entry as it was written. *)
Lemma scan_tokens_entries (es : list IndexEntry) (ls : list string) :
  forallb valid_entry es = true ->
  scan_tokens (map entry_line es ++ ls) = map entry_line es ++ scan_tokens ls.
Proof.
  induction es as [|e es IH]; [reflexivity|].
  cbn [forallb map app scan_tokens]. intros [He Hes]%andb_true_iff.
  destruct (valid_entry_spec e He) as (_ & Hne & _ & Hcr & Hlen).
  destruct (N.leb_spec MaxScanTokenSize (N.of_nat (String.length (entry_line e)))); [lia|].
  rewrite IH by assumption. f_equal.
  unfold entry_line. rewrite <- append_assoc, dropCR_append by assumption.
  now rewrite Hcr, append_assoc.
Qed.

(** Entries at or below the requested sequence are read one after the other;
    the loop goes on with the reference of the last of them. *)
Lemma scan_index_entries_below (s : N) (es : list IndexEntry) (ls : list string) :
  forallb valid_entry es = true ->
  forallb (fun e => recorded_sequence e <=? s)%N es = true ->
  forall afile,
    scan_index s (map entry_line es ++ ls) afile
    = scan_index s ls (IndexLines.last_reference es afile).
Proof.
  induction es as [|e es IH]; [reflexivity|].
  cbn [forallb map app]. intros [He Hes]%andb_true_iff [Hle Hles]%andb_true_iff afile.
  destruct (valid_entry_spec e He) as (Hmax & _).
  cbn [scan_index IndexLines.last_reference].
  assert (SplitN2 (entry_line e) = [FormatUint (recorded_sequence e); archive_reference e])
    as -> by (unfold entry_line; apply SplitN2_append, FormatUint_no_colon).
  cbn [index lookup list_lookup]. rewrite ParseUint_FormatUint, Hle by assumption.
  now apply IH.
Qed.

Lemma length_format_digits (fuel : nat) (n : N) (acc : string) :
  (String.length (format_digits fuel n acc) <= fuel + String.length acc)%nat.
Proof.
  revert n acc. induction fuel as [|fuel IH]; intros n acc; cbn [format_digits]; [lia|].
  cbv zeta. destruct (n / 10 =? 0)%N; [cbn; lia|].
  etransitivity; [apply IH|]. cbn. lia.
Qed.

Lemma dropCR_all_digits (t : string) : all_digits t = true -> dropCR t = t.
Proof.
  induction t as [|c t IH]; [reflexivity|].
  cbn [all_digits]. intros [Hc Ht]%andb_true_iff.
  destruct t as [|c' t'].
  - cbn. destruct (Ascii.eqb_spec c carriage_return) as [->|_]; [discriminate | reflexivity].
  - change (dropCR (String c (String c' t'))) with (String c (dropCR (String c' t'))).
    now rewrite IH.
Qed.

(** X5.  A line of archive.index that is a sequence and nothing else, with
    no colon after it, makes the lookup panic (parseData[1] is out of range)
    as soon as the loop reaches it with a requested sequence at or above the
    one on the line. *)
Theorem GetArchivedFileBySeq_line_without_colon
  (sr : Storer) (dstPath : string) (s C n : N) (payload rest tail : string)
  (es : list IndexEntry) (w : World) :
  let dstDir := path_Join [datastore sr; dstPath] in
  let currentFile := path_Join [dstDir; DefaultCurrentDB] in
  let indexFile := path_Join [dstDir; DefaultArchiveIndex] in
  no_faults w ->
  (C <= maxUint64)%N ->
  files w !! currentFile = Some (record_line C payload +:+ String newline rest) ->
  (s < C)%N ->
  forallb valid_entry es = true ->
  forallb (fun e => recorded_sequence e <=? s)%N es = true ->
  (n <= s)%N ->
  files w !! indexFile = Some (index_file es +:+ FormatUint n +:+ String newline tail) ->
  fst (GetArchivedFileBySeq sr dstPath s w) = Panic.
Proof.
  intros dstDir currentFile indexFile Hnf Hmax Hcur Hlt Hvalid Hbelow Hn Hidx.
  rewrite GetArchivedFileBySeq_eq. cbv zeta. fold dstDir. fold currentFile. fold indexFile.
  rewrite !Hnf, Hcur, first_field_record, ParseUint_FormatUint by assumption.
  apply N.leb_gt in Hlt. rewrite Hlt, Hidx. unfold Scanner_lines.
  rewrite raw_lines_index_file_app by assumption.
  rewrite raw_lines_append by (unfold no_newline; now rewrite FormatUint_no_newline).
  rewrite append_nil_l, scan_tokens_entries by assumption.
  rewrite scan_index_entries_below by assumption.
  cbn [scan_tokens].
  pose proof (length_format_digits 20 n "") as Hlen. fold (FormatUint n) in Hlen.
  cbn [String.length] in Hlen.
  destruct (N.leb_spec MaxScanTokenSize (N.of_nat (String.length (FormatUint n))));
    [unfold MaxScanTokenSize in *; lia|].
  rewrite dropCR_all_digits by apply FormatUint_all_digits.
  cbn [scan_index]. unfold SplitN2. rewrite FormatUint_no_colon.
  cbn [index lookup list_lookup].
  apply N.leb_gt in Hlt.
  rewrite ParseUint_FormatUint by (unfold maxUint64 in *; lia).
  apply N.leb_le in Hn. rewrite Hn. reflexivity.
Qed.

(** X6.  On an index in ascending order the lookup returns the entry
    with the greatest recorded sequence at or below the request: the reference
    of an entry at or below the requested sequence is returned when all
    entries before it are at or below it too and the entry after it, if there
    is one, is above.  An index whose first entry is above the requested
    sequence gives ErrSeqNotFound whatever entries follow, qualifying ones
    included. *)
Theorem GetArchivedFileBySeq_greatest_entry
  (sr : Storer) (dstPath : string) (s C : N) (payload rest : string) (w : World) :
  let dstDir := path_Join [datastore sr; dstPath] in
  let currentFile := path_Join [dstDir; DefaultCurrentDB] in
  let indexFile := path_Join [dstDir; DefaultArchiveIndex] in
  no_faults w ->
  (C <= maxUint64)%N ->
  files w !! currentFile = Some (record_line C payload +:+ String newline rest) ->
  (s < C)%N ->
  (forall (es1 es2 : list IndexEntry) (e : IndexEntry),
     files w !! indexFile = Some (index_file (es1 ++ e :: es2)) ->
     forallb valid_entry (es1 ++ e :: es2) = true ->
     forallb (fun x => recorded_sequence x <=? s)%N es1 = true ->
     (recorded_sequence e <= s)%N ->
     (forall e2, head es2 = Some e2 -> (s < recorded_sequence e2)%N) ->
     fst (GetArchivedFileBySeq sr dstPath s w) = Ok (archive_reference e))
  /\ (forall (es : list IndexEntry) (e : IndexEntry),
        files w !! indexFile = Some (index_file (e :: es)) ->
        valid_entry e = true ->
        (s < recorded_sequence e)%N ->
        fst (GetArchivedFileBySeq sr dstPath s w) = Err ErrSeqNotFound).
Proof.
  intros dstDir currentFile indexFile Hnf Hmax Hcur Hlt.
  apply N.leb_gt in Hlt.
  split.
  - intros es1 es2 e Hidx Hvalid Hbelow He Hnext.
    rewrite GetArchivedFileBySeq_eq. cbv zeta. fold dstDir. fold currentFile. fold indexFile.
    rewrite !Hnf, Hcur, first_field_record, ParseUint_FormatUint, Hlt, Hidx by assumption.
    rewrite Scanner_lines_index_file by assumption.
    replace (es1 ++ e :: es2) with ((es1 ++ [e]) ++ es2) in * by now rewrite <- app_assoc.
    rewrite forallb_app in Hvalid. apply andb_true_iff in Hvalid as [Hv1 Hv2].
    rewrite map_app, scan_index_entries_below; [|assumption|].
    2:{ rewrite forallb_app, Hbelow. cbn [forallb]. apply N.leb_le in He. now rewrite He. }
    assert (IndexLines.last_reference (es1 ++ [e]) "" = archive_reference e) as ->.
    { generalize "". clear. induction es1 as [|x es1 IH]; intros a; [reflexivity | apply IH]. }
    assert (archive_reference e <> "") as Hne.
    { rewrite forallb_app in Hv1. apply andb_true_iff in Hv1 as [_ Hve]. cbn in Hve.
      rewrite andb_true_r in Hve. now destruct (valid_entry_spec e Hve) as (_ & Hne & _). }
    apply String.eqb_neq in Hne.
    destruct es2 as [|e2 es2]; cbn [map scan_index].
    + now rewrite Hne.
    + cbn [forallb] in Hv2. apply andb_true_iff in Hv2 as [Hve2 _].
      destruct (valid_entry_spec e2 Hve2) as (Hmax2 & _).
      assert (SplitN2 (entry_line e2)
              = [FormatUint (recorded_sequence e2); archive_reference e2]) as ->
        by (unfold entry_line; apply SplitN2_append, FormatUint_no_colon).
      cbn [index lookup list_lookup]. rewrite ParseUint_FormatUint by assumption.
      specialize (Hnext e2 eq_refl). apply N.leb_gt in Hnext. rewrite Hnext.
      now rewrite Hne.
  - intros es e Hidx Hve Hs.
    rewrite GetArchivedFileBySeq_eq. cbv zeta. fold dstDir. fold currentFile. fold indexFile.
    rewrite !Hnf, Hcur, first_field_record, ParseUint_FormatUint, Hlt, Hidx by assumption.
    unfold Scanner_lines. cbn [index_file].
    rewrite raw_lines_append by now apply entry_line_no_newline.
    rewrite append_nil_l. cbn [scan_tokens].
    destruct (valid_entry_spec e Hve) as (Hmaxe & Hne & _ & Hcr & Hlen).
    destruct (N.leb_spec MaxScanTokenSize (N.of_nat (String.length (entry_line e)))); [lia|].
    assert (dropCR (entry_line e) = entry_line e) as ->.
    { unfold entry_line. rewrite <- append_assoc, dropCR_append by assumption.
      now rewrite Hcr, append_assoc. }
    cbn [scan_index].
    assert (SplitN2 (entry_line e)
            = [FormatUint (recorded_sequence e); archive_reference e]) as ->
      by (unfold entry_line; apply SplitN2_append, FormatUint_no_colon).
    cbn [index lookup list_lookup]. rewrite ParseUint_FormatUint by assumption.
    apply N.leb_gt in Hs. rewrite Hs. reflexivity.
Qed.

End LookupEdges.

Section LookupEdgeExamples.
Import GoStrings OS Storer Model GoPathImpl.

(** The first record of a partition is 5000 and nothing was archived: a
    request for 1500 ends with the error of opening archive.index. *)
Lemma GetArchivedFileBySeq_without_index_witness :
  exists e,
    fst (GetArchivedFileBySeq Examples.sr0 "p" 1500%N LookupEdgeExamples.never_rotated_world)
    = Err e /\ os_IsNotExist e = true.
Proof.
  destruct (GetArchivedFileBySeq_without_index Examples.sr0 "p" 1500%N 5000%N "x" ""
              LookupEdgeExamples.never_rotated_world) as [Hmissing _].
  - intros e. reflexivity.
  - vm_compute. discriminate.
  - reflexivity.
  - reflexivity.
  - destruct (Hmissing eq_refl) as (e & Hrun & Hne & _).
    exists e. rewrite Hrun. split; [reflexivity | exact Hne].
Defined.

(** A comment between two entries changes no answer. *)
Lemma GetArchivedFileBySeq_skips_unparsed_line_witness :
  fst (GetArchivedFileBySeq Examples.sr0 "p" 2500%N LookupEdgeExamples.commented_world)
  = Ok "B".
Proof.
  rewrite (GetArchivedFileBySeq_skips_unparsed_line Examples.sr0 "p" 2500%N
             (LookupEdgeExamples.unlines ["1001:A"]) "# moved to the bucket"
             (LookupEdgeExamples.unlines ["2001:B"]) ErrSyntax
             LookupEdgeExamples.commented_world).
  - reflexivity.
  - right. exists "1001:A". reflexivity.
  - reflexivity.
  - vm_compute. reflexivity.
  - reflexivity.
  - vm_compute. discriminate.
  - reflexivity.
Defined.

(** The entry 3001->C after a line of 2^16 bytes is not found: a request for
    3500 is answered with A. *)
Lemma GetArchivedFileBySeq_long_line_ends_scan_witness :
  fst (GetArchivedFileBySeq Examples.sr0 "p" 3500%N LookupEdgeExamples.long_line_world)
  = Ok "A".
Proof.
  rewrite (GetArchivedFileBySeq_long_line_ends_scan Examples.sr0 "p" 3500%N
             (LookupEdgeExamples.unlines ["1001:A"]) (RotationExamples.doubled 16 "x")
             (LookupEdgeExamples.unlines ["3001:C"])
             LookupEdgeExamples.long_line_world).
  - reflexivity.
  - right. exists "1001:A". reflexivity.
  - vm_compute. reflexivity.
  - vm_compute. discriminate.
  - vm_compute. discriminate.
  - reflexivity.
Defined.

(** The index of the example with the colon and the reference of its second
    entry lost: a request for 2500 panics. *)
Lemma GetArchivedFileBySeq_line_without_colon_witness :
  fst (GetArchivedFileBySeq Examples.sr0 "p" 2500%N LookupEdgeExamples.colonless_world)
  = Panic.
Proof.
  apply (GetArchivedFileBySeq_line_without_colon Examples.sr0 "p" 2500%N 5000%N 2001%N
           "x" "" (LookupEdgeExamples.unlines ["3001:C"]) [mkEntry 1001 "A"]
           LookupEdgeExamples.colonless_world).
  - intros e. reflexivity.
  - vm_compute. discriminate.
  - reflexivity.
  - reflexivity.
  - reflexivity.
  - reflexivity.
  - vm_compute. discriminate.
  - reflexivity.
Defined.

(** The index of the floor-lookup example is in ascending order: 2500 is
    answered with B, the entry 2001; the same entries with 3001 moved to the
    front answer 2500 with ErrSeqNotFound. *)
Lemma GetArchivedFileBySeq_greatest_entry_witness :
  fst (GetArchivedFileBySeq Examples.sr0 "p" 2500%N Examples.abc_world) = Ok "B"
  /\ fst (GetArchivedFileBySeq Examples.sr0 "p" 2500%N
            (LookupEdgeExamples.partition
               (Some (index_file [mkEntry 3001 "C"; mkEntry 1001 "A"; mkEntry 2001 "B"]))))
     = Err ErrSeqNotFound.
Proof.
  split.
  - destruct (GetArchivedFileBySeq_greatest_entry Examples.sr0 "p" 2500%N 5000%N "x" ""
                Examples.abc_world) as [Hfound _].
    + intros e. reflexivity.
    + vm_compute. discriminate.
    + reflexivity.
    + reflexivity.
    + apply (Hfound [mkEntry 1001 "A"] [mkEntry 3001 "C"] (mkEntry 2001 "B")).
      * reflexivity.
      * reflexivity.
      * reflexivity.
      * vm_compute. discriminate.
      * intros e2 [= <-]. reflexivity.
  - destruct (GetArchivedFileBySeq_greatest_entry Examples.sr0 "p" 2500%N 5000%N "x" ""
                (LookupEdgeExamples.partition
                   (Some (index_file [mkEntry 3001 "C"; mkEntry 1001 "A"; mkEntry 2001 "B"]))))
      as [_ Hfirst].
    + intros e. reflexivity.
    + vm_compute. discriminate.
    + reflexivity.
    + reflexivity.
    + apply (Hfirst [mkEntry 1001 "A"; mkEntry 2001 "B"] (mkEntry 3001 "C")).
      * reflexivity.
      * reflexivity.
      * reflexivity.
Defined.

End LookupEdgeExamples.

(** ** A partition from its first record on *)
Section FirstRecord.
Import GoStrings OS Storer Model.
Context `{GoPath}.

(** X7.  MsgStore followed by GetArchivedFileBySeq.  On a partition without
    files, the record stored first decides the answers: every request at or
    above its sequence is answered with the current segment, every request
    below it ends with the error of opening the missing archive.index.  On a
    partition whose current segment starts with sequence [C], a record
    appended without rotation, whatever its sequence, leaves [C] as the first
    sequence: requests at or above [C] are still answered with the current
    segment. *)
Theorem MsgStore_then_lookup
  (sr : Storer) (dstPath : string) (seq : N) (rawData : string) (w : World) :
  let dstDir := path_Join [datastore sr; dstPath] in
  let dstFile := path_Join [dstDir; DefaultCurrentDB] in
  let indexFile := path_Join [dstDir; DefaultArchiveIndex] in
  no_faults w ->
  (files w !! dstFile = None ->
   files w !! indexFile = None ->
   dstFile <> indexFile ->
   (seq <= maxUint64)%N ->
   exists sr' w',
     MsgStore sr dstPath seq rawData w = (Return (Ok dstFile), sr', w')
     /\ (forall s, (seq <= s)%N -> fst (GetArchivedFileBySeq sr' dstPath s w') = Ok dstFile)
     /\ (forall s, (s < seq)%N ->
           fst (GetArchivedFileBySeq sr' dstPath s w') = Err ErrNotExist))
  /\ (forall (C : N) (payload rest : string),
        files w !! dstFile = Some (record_line C payload +:+ String newline rest) ->
        (C <= maxUint64)%N ->
        (counter sr < 100)%N
        \/ (Z.of_nat (String.length (record_line C payload +:+ String newline rest))
            < fileSize)%Z ->
        exists sr' w',
          MsgStore sr dstPath seq rawData w = (Return (Ok dstFile), sr', w')
          /\ (forall s, (C <= s)%N ->
                fst (GetArchivedFileBySeq sr' dstPath s w') = Ok dstFile)).
Proof.
  intros dstDir dstFile indexFile Hnf. split.
  - intros Hfresh Hnoidx Hne Hmax.
    rewrite MsgStore_append; [|assumption|].
    2:{ right. fold dstDir. fold dstFile. rewrite Hfresh. reflexivity. }
    fold dstDir. fold dstFile. eexists _, _. split; [reflexivity|].
    assert (forall s c,
              fst (GetArchivedFileBySeq (set_counter c sr) dstPath s
                     (appended (negb (counter sr <? 100)%N) dstDir dstFile
                        (record_line seq rawData +:+ String newline "") w))
              = if (seq <=? s)%N then Ok dstFile else Err ErrNotExist) as Hlook.
    { intros s c. rewrite GetArchivedFileBySeq_eq. cbv zeta.
      change (datastore (set_counter c sr)) with (datastore sr).
      fold dstDir. fold dstFile. fold indexFile.
      rewrite !(appended_no_faults _ _ _ _ _ Hnf), appended_files, Hfresh.
      cbn [default from_option]. rewrite append_nil_l.
      rewrite first_field_record, ParseUint_FormatUint by assumption.
      destruct (seq <=? s)%N; [reflexivity|].
      unfold appended. cbn [files]. rewrite lookup_insert_ne by congruence.
      rewrite Hnoidx. reflexivity. }
    split; intros s Hs; rewrite Hlook.
    + apply N.leb_le in Hs. now rewrite Hs.
    + apply N.leb_gt in Hs. now rewrite Hs.
  - intros C payload rest Hcur Hmax Hquiet.
    rewrite MsgStore_append; [|assumption|].
    2:{ fold dstDir. fold dstFile. rewrite Hcur. exact Hquiet. }
    fold dstDir. fold dstFile. eexists _, _. split; [reflexivity|].
    intros s Hs. rewrite GetArchivedFileBySeq_eq. cbv zeta.
    match goal with |- context [datastore (set_counter ?c sr)] =>
      change (datastore (set_counter c sr)) with (datastore sr) end.
    fold dstDir. fold dstFile. fold indexFile.
    rewrite !(appended_no_faults _ _ _ _ _ Hnf), appended_files, Hcur.
    cbn [default from_option]. unfold id.
    rewrite append_assoc, append_cons.
    rewrite first_field_record, ParseUint_FormatUint by assumption.
    apply N.leb_le in Hs. now rewrite Hs.
Qed.

End FirstRecord.

Section FirstRecordExamples.
Import GoStrings OS Storer Model GoPathImpl.

(** The record 7:hello stored first in a partition: 7 and 8 are answered
    with the current segment, 6 with the missing index. *)
Lemma MsgStore_then_lookup_witness :
  exists sr' w',
    MsgStore Examples.sr0 "p" 7%N "hello" RotationExamples.fresh_world
    = (Return (Ok "datastore/p/current.db"), sr', w')
    /\ fst (GetArchivedFileBySeq sr' "p" 7%N w') = Ok "datastore/p/current.db"
    /\ fst (GetArchivedFileBySeq sr' "p" 8%N w') = Ok "datastore/p/current.db"
    /\ fst (GetArchivedFileBySeq sr' "p" 6%N w') = Err ErrNotExist.
Proof.
  destruct (MsgStore_then_lookup Examples.sr0 "p" 7%N "hello" RotationExamples.fresh_world)
    as [Hfresh _]; [intros e; reflexivity|].
  destruct Hfresh as (sr' & w' & Hrun & Hhigh & Hlow).
  - reflexivity.
  - reflexivity.
  - vm_compute. discriminate.
  - vm_compute. discriminate.
  - exists sr', w'. split; [exact Hrun|]. split; [|split].
    + apply Hhigh. lia.
    + apply Hhigh. lia.
    + apply Hlow. lia.
Defined.

End FirstRecordExamples.

(** ** From a rotation to the lookup of the archived sequences *)
Section Archived.
Import GoStrings OS Model.
Context `{GoPath}.

Lemma forallb_below_trans (C s : N) (es : list IndexEntry) :
  (C <= s)%N ->
  forallb (fun e => recorded_sequence e <=? C)%N es = true ->
  forallb (fun e => recorded_sequence e <=? s)%N es = true.
Proof.
  intros Hle. induction es as [|e es IH]; [reflexivity|].
  cbn [forallb]. intros [He Hes]%andb_true_iff. rewrite IH by assumption.
  apply N.leb_le in He. rewrite andb_true_r. apply N.leb_le. lia.
Qed.

Lemma last_reference_snoc (es : list IndexEntry) (e : IndexEntry) (afile : string) :
  IndexLines.last_reference (es ++ [e]) afile = archive_reference e.
Proof.
  revert afile. induction es as [|x es IH]; intros afile; [reflexivity | apply IH].
Qed.

(** A partition whose current segment holds one record, [seq], and whose
    index ends in the entry for the segment that started at [C]. *)
Lemma GetArchivedFileBySeq_archived
  (sr : Storer.Storer) (dstPath : string) (seq C : N) (rawData ref : string)
  (es : list IndexEntry) (w : World) :
  let dstDir := path_Join [Storer.datastore sr; dstPath] in
  let currentFile := path_Join [dstDir; Storer.DefaultCurrentDB] in
  let indexFile := path_Join [dstDir; Storer.DefaultArchiveIndex] in
  no_faults w ->
  (seq <= maxUint64)%N ->
  files w !! currentFile = Some (record_line seq rawData +:+ String newline "") ->
  files w !! indexFile = Some (index_file (es ++ [mkEntry C ref])) ->
  forallb valid_entry es = true ->
  valid_entry (mkEntry C ref) = true ->
  forallb (fun e => recorded_sequence e <=? C)%N es = true ->
  (forall s, (C <= s < seq)%N ->
     fst (Storer.GetArchivedFileBySeq sr dstPath s w) = Ok ref)
  /\ (forall s, (seq <= s)%N ->
        fst (Storer.GetArchivedFileBySeq sr dstPath s w) = Ok currentFile).
Proof.
  intros dstDir currentFile indexFile Hnf Hmax Hcur Hidx Hvalid He Hbelow.
  assert (forallb valid_entry (es ++ [mkEntry C ref]) = true) as Hall.
  { rewrite forallb_app, Hvalid. cbn [forallb]. now rewrite He. }
  split; intros s Hs; rewrite GetArchivedFileBySeq_eq; cbv zeta;
    fold dstDir; fold currentFile; fold indexFile;
    rewrite !Hnf, Hcur, first_field_record, ParseUint_FormatUint by assumption.
  - destruct (N.leb_spec seq s) as [?|_]; [lia|].
    rewrite Hidx, Scanner_lines_index_file by assumption.
    rewrite <- (app_nil_r (map entry_line (es ++ [mkEntry C ref]))).
    rewrite scan_index_entries_below; [|assumption|].
    2:{ rewrite forallb_app. rewrite (forallb_below_trans C s) by (assumption || lia).
        cbn [forallb recorded_sequence]. destruct (N.leb_spec C s); [reflexivity | lia]. }
    cbn [Storer.scan_index]. rewrite last_reference_snoc. cbn [archive_reference].
    destruct (valid_entry_spec _ He) as (_ & Hne & _). cbn [archive_reference] in Hne.
    apply String.eqb_neq in Hne. now rewrite Hne.
  - destruct (N.leb_spec seq s) as [_|?]; [reflexivity | lia].
Qed.

End Archived.

Section Pipeline.
Import GoStrings OS Model HandlerModel.
Context `{GoPath} `{GoURL}.

(** X8.  From the rotation to the lookup, outside test mode.  A call of
    MsgStore that rotates a segment starting with sequence [C] publishes the
    job "<C>:<archive path>"; the archival handler, given that job, uploads
    the segment, appends "<C>:<url>" to the archive.index that lookups of the
    partition read, removes the local archive and acknowledges; from then on
    GetArchivedFileBySeq answers every sequence from [C] up to the record that
    opened the new segment with the URL of the object, and every sequence from
    that record on with the current segment. *)
Theorem rotation_upload_lookup
  (sr : Storer.Storer) (u : Uploader.Uploader) (dstPath : string) (seq C : N)
  (rawData payload rest escaped : string) (es : list IndexEntry) (w : World) :
  let dstDir := path_Join [Storer.datastore sr; dstPath] in
  let dstFile := path_Join [dstDir; Storer.DefaultCurrentDB] in
  let indexFile := path_Join [dstDir; Storer.DefaultArchiveIndex] in
  let content := record_line C payload +:+ String newline rest in
  let archiveName := path_Join [path_Dir dstFile; "MSG_" +:+ FormatUint C +:+ ".db"] in
  let job := FormatUint C +:+ ":" +:+ archiveName in
  let subject := Storer.DefaultSubject (Storer.domain sr) (Storer.hostname sr) in
  let bucket := Uploader.bucketName u in
  let key := Uploader.bucketCategory u +:+ "/" +:+ archiveName in
  let url := "https://" +:+ escaped in
  no_faults w ->
  TEST_MODE w = "" ->
  (100 <= Storer.counter sr)%N ->
  files w !! dstFile = Some content ->
  (Storer.fileSize <= Z.of_nat (String.length content))%Z ->
  (C <= maxUint64)%N ->
  (seq <= maxUint64)%N ->
  archiveName <> dstFile ->
  indexFile <> dstFile ->
  indexFile <> archiveName ->
  path_Join [path_Dir archiveName; "archive.index"] = indexFile ->
  default "" (files w !! indexFile) = index_file es ->
  forallb valid_entry es = true ->
  forallb (fun e => recorded_sequence e <=? C)%N es = true ->
  url_EscapedPath (bucket +:+ "/" +:+ key) = Ok escaped ->
  valid_entry (mkEntry C url) = true ->
  exists w1 w2,
    Storer.MsgStore sr dstPath seq rawData w
    = (Storer.Return (Ok dstFile), Storer.set_counter 1 sr, w1)
    /\ published w1 = published w ++ [(subject, job, job)]
    /\ Uploader.msgHandler u (Uploader.mkMsg job) w1 = (Ok tt, w2)
    /\ last (trace w2) = Some (EvAck job)
    /\ files w2 !! archiveName = None
    /\ objects w2 !! (bucket, key) = Some (content, ACLPublicRead)
    /\ files w2 !! indexFile = Some (index_file (es ++ [mkEntry C url]))
    /\ (forall s, (C <= s < seq)%N ->
          fst (Storer.GetArchivedFileBySeq (Storer.set_counter 1 sr) dstPath s w2) = Ok url)
    /\ (forall s, (seq <= s)%N ->
          fst (Storer.GetArchivedFileBySeq (Storer.set_counter 1 sr) dstPath s w2)
          = Ok dstFile).
Proof.
  intros dstDir dstFile indexFile content archiveName job subject bucket key url
         Hnf Hmode Hc Hfile Hsize HC Hseq Hne1 Hne2 Hne3 Hidxpath Hidx Hvalid Hbelow Hurl He.
  pose proof (MsgStore_rotate sr dstPath seq rawData content (FormatUint C) w
                Hnf Hmode Hc Hfile Hsize (first_field_record C payload rest) Hne1) as Hrot.
  cbv zeta in Hrot. fold dstDir dstFile archiveName subject job in Hrot.
  match type of Hrot with _ = (_, _, ?x) => set (w1 := x) in * end.
  assert (SplitN2 job = [FormatUint C; archiveName]) as Hsplit
    by apply SplitN2_append, FormatUint_no_colon.
  assert (files w1 !! archiveName = Some content) as Harch.
  { unfold w1. cbn [files]. rewrite lookup_insert_ne by congruence. apply lookup_insert_eq. }
  assert (files w1 !! indexFile = files w !! indexFile) as Hidx1.
  { unfold w1. cbn [files]. rewrite !lookup_insert_ne by congruence.
    apply lookup_delete_ne. congruence. }
  pose proof (msgHandler_handled u (Uploader.mkMsg job) (FormatUint C) archiveName content
                escaped w1 Hsplit Harch Hurl (Hnf _) (Hnf _) (Hnf _) (Hnf _) (Hnf _)) as Hrun.
  replace (faulty w1 (EvRemoveAll archiveName)) with false in Hrun by (symmetry; apply Hnf).
  cbn [negb] in Hrun.
  set (w2 := handled u (Uploader.mkMsg job) (FormatUint C) archiveName content escaped true w1)
    in *.
  assert (files w2 !! indexFile = Some (index_file (es ++ [mkEntry C url]))) as Hidx2.
  { unfold w2, handled. cbn [files]. rewrite Hidxpath.
    rewrite lookup_delete_ne by congruence. rewrite lookup_insert_eq, Hidx1, Hidx.
    rewrite index_file_app. cbn [index_file]. unfold entry_line.
    cbn [recorded_sequence archive_reference]. fold url.
    now rewrite !append_assoc. }
  assert (files w2 !! dstFile
          = Some (record_line seq rawData +:+ String newline "")) as Hcur2.
  { unfold w2, handled. cbn [files]. rewrite Hidxpath.
    rewrite lookup_delete_ne, lookup_insert_ne by congruence.
    unfold w1. cbn [files]. apply lookup_insert_eq. }
  destruct (GetArchivedFileBySeq_archived (Storer.set_counter 1 sr) dstPath seq C rawData url
              es w2) as [Hlow Hhigh]; try assumption.
  exists w1, w2.
  split; [exact Hrot|]. split; [reflexivity|]. split; [exact Hrun|].
  split; [unfold w2, handled; cbn [trace Uploader.Data]; rewrite last_app; reflexivity|].
  split; [unfold w2, handled; cbn [files]; apply lookup_delete_eq|].
  split; [unfold w2, handled; cbn [objects]; apply lookup_insert_eq|].
  split; [exact Hidx2|]. split; [exact Hlow | exact Hhigh].
Qed.

End Pipeline.

(** ** Rotation in test mode *)
Section TestMode.
Import GoStrings OS Storer Model.
Context `{GoPath}.

(** archiveFile in test mode: the segment is moved below the archive
    directory of the datastore and entered in archive.index at once. *)
Lemma archiveFile_test_mode (sr : Storer) (filename content seq : string) (w : World) :
  let archivePath :=
    ReplaceAll filename (path_Join [datastore sr]) (path_Join [datastore sr; "archive"]) in
  let archiveName := path_Join [path_Dir archivePath; "MSG_" +:+ seq +:+ ".db"] in
  let idx := path_Join [path_Dir filename; DefaultArchiveIndex] in
  let line := seq +:+ ":" +:+ archiveName +:+ String newline "" in
  let moved := <[archiveName := content]> (delete filename (files w)) in
  no_faults w ->
  TEST_MODE w <> "" ->
  files w !! filename = Some content ->
  first_field content = Ok seq ->
  archiveFile sr filename w
  = (Ok tt,
     mkWorld (<[idx := default "" (moved !! idx) +:+ line]> moved)
             (faulty w)
             (trace w ++ [EvOpen filename; EvMkdirAll (path_Dir archiveName);
                          EvRename filename archiveName; EvOpenFile idx;
                          EvWriteString idx line])
             (TEST_MODE w) (published w) (publish_outages w) (objects w)).
Proof.
  intros archivePath archiveName idx line moved Hnf Hmode Hfile Hfirst.
  unfold archiveFile, bind. rewrite getFirstSeqFromFile_eq, Hnf, Hfile, Hfirst.
  unfold os_Getenv_TEST_MODE. run_io Hnf.
  apply String.eqb_neq in Hmode.
  replace (negb (TEST_MODE w =? "")%string) with true by (now rewrite Hmode).
  fold archivePath. fold archiveName.
  unfold os_MkdirAll, os_Rename. run_io Hnf. rewrite Hfile.
  unfold updateIndex, bind, ret, os_OpenFile, file_WriteString. fold idx. fold line.
  run_io Hnf. fold moved.
  destruct (moved !! idx) as [c|] eqn:Hidx; run_io Hnf.
  - rewrite Hidx, <- !app_assoc. reflexivity.
  - rewrite lookup_insert_eq, insert_insert_eq, <- !app_assoc. reflexivity.
Qed.

(** X9.  A rotation in test mode (TEST_MODE set in the environment).  The
    call of MsgStore whose size check finds the segment at or above the
    threshold moves it to MSG_<C>.db below the archive directory of the
    datastore, appends "<C>:<archive path>" to archive.index itself and
    publishes nothing; the record is then the only line of a new current
    segment.  From then on GetArchivedFileBySeq answers every sequence from
    [C] up to that record with the archive path, and every sequence from that
    record on with the current segment. *)
Theorem MsgStore_rotation_test_mode
  (sr : Storer) (dstPath : string) (seq C : N) (rawData payload rest : string)
  (es : list IndexEntry) (w : World) :
  let dstDir := path_Join [datastore sr; dstPath] in
  let dstFile := path_Join [dstDir; DefaultCurrentDB] in
  let indexFile := path_Join [dstDir; DefaultArchiveIndex] in
  let content := record_line C payload +:+ String newline rest in
  let archivePath :=
    ReplaceAll dstFile (path_Join [datastore sr]) (path_Join [datastore sr; "archive"]) in
  let archiveName := path_Join [path_Dir archivePath; "MSG_" +:+ FormatUint C +:+ ".db"] in
  let entry := FormatUint C +:+ ":" +:+ archiveName +:+ String newline "" in
  let line := record_line seq rawData +:+ String newline "" in
  no_faults w ->
  TEST_MODE w <> "" ->
  (100 <= counter sr)%N ->
  files w !! dstFile = Some content ->
  (fileSize <= Z.of_nat (String.length content))%Z ->
  (C <= maxUint64)%N ->
  (seq <= maxUint64)%N ->
  archiveName <> dstFile ->
  indexFile <> dstFile ->
  indexFile <> archiveName ->
  path_Join [path_Dir dstFile; DefaultArchiveIndex] = indexFile ->
  default "" (files w !! indexFile) = index_file es ->
  forallb valid_entry es = true ->
  forallb (fun e => recorded_sequence e <=? C)%N es = true ->
  valid_entry (mkEntry C archiveName) = true ->
  exists w',
    MsgStore sr dstPath seq rawData w = (Return (Ok dstFile), set_counter 1 sr, w')
    /\ published w' = published w
    /\ events_since w w'
       = [EvMkdirAll dstDir; EvOpenFile dstFile; EvStat dstFile; EvOpen dstFile;
          EvMkdirAll (path_Dir archiveName); EvRename dstFile archiveName;
          EvOpenFile indexFile; EvWriteString indexFile entry;
          EvOpenFile dstFile; EvWriteString dstFile line]
    /\ files w' !! archiveName = Some content
    /\ files w' !! indexFile = Some (index_file (es ++ [mkEntry C archiveName]))
    /\ files w' !! dstFile = Some line
    /\ (forall s, (C <= s < seq)%N ->
          fst (GetArchivedFileBySeq (set_counter 1 sr) dstPath s w') = Ok archiveName)
    /\ (forall s, (seq <= s)%N ->
          fst (GetArchivedFileBySeq (set_counter 1 sr) dstPath s w') = Ok dstFile).
Proof.
  intros dstDir dstFile indexFile content archivePath archiveName entry line
         Hnf Hmode Hc Hfile Hsize HC Hseq Hne1 Hne2 Hne3 Hidxpath Hidx Hvalid Hbelow He.
  assert (FormatUint seq +:+ ":" +:+ rawData +:+ String newline "" = line) as Hline.
  { unfold line, record_line. now rewrite !append_assoc. }
  set (moved := <[archiveName := content]> (delete dstFile (files w))).
  assert (moved !! indexFile = files w !! indexFile) as Hmoved.
  { unfold moved. rewrite lookup_insert_ne by congruence. apply lookup_delete_ne. congruence. }
  set (indexed := <[indexFile := default "" (moved !! indexFile) +:+ entry]> moved).
  assert (indexed !! dstFile = None) as Hgone.
  { unfold indexed, moved. rewrite !lookup_insert_ne by congruence. apply lookup_delete_eq. }
  assert (MsgStore sr dstPath seq rawData w
          = (Return (Ok dstFile), set_counter 1 sr,
             mkWorld (<[dstFile := line]> indexed) (faulty w)
                     (trace w ++ [EvMkdirAll dstDir; EvOpenFile dstFile; EvStat dstFile;
                                  EvOpen dstFile; EvMkdirAll (path_Dir archiveName);
                                  EvRename dstFile archiveName; EvOpenFile indexFile;
                                  EvWriteString indexFile entry;
                                  EvOpenFile dstFile; EvWriteString dstFile line])
                     (TEST_MODE w) (published w) (publish_outages w) (objects w))) as Hrun.
  { unfold MsgStore, processFilename, bind, ret, os_MkdirAll. fold dstDir. fold dstFile.
    rewrite Hline. run_io Hnf.
    cbn [MsgStore_loop]. unfold os_OpenFile at 1. run_io Hnf. rewrite Hfile.
    destruct (N.ltb_spec (counter sr) 100) as [?|_]; [lia|].
    unfold file_Stat. run_io Hnf. rewrite Hfile.
    destruct (Z.leb_spec fileSize (Z.of_nat (String.length content))) as [_|?]; [|lia].
    rewrite (archiveFile_test_mode _ dstFile content (FormatUint C));
      [|assumption..|apply first_field_record].
    change (datastore (set_counter 0 sr)) with (datastore sr).
    fold archivePath. fold archiveName. rewrite Hidxpath. fold entry.
    world. fold moved. fold indexed. clearbody indexed.
    unfold os_OpenFile. run_io Hnf. rewrite Hgone.
    cbn [counter set_counter N.ltb N.compare]. unfold file_WriteString. run_io Hnf.
    rewrite lookup_insert_eq, insert_insert_eq. cbn [default id from_option].
    rewrite append_nil_l, <- !app_assoc. reflexivity. }
  eexists. split; [exact Hrun|]. cbn [published files].
  assert (indexed !! indexFile = Some (index_file (es ++ [mkEntry C archiveName]))) as Hidx'.
  { unfold indexed. rewrite lookup_insert_eq, Hmoved, Hidx, index_file_app.
    cbn [index_file]. unfold entry_line, entry. cbn [recorded_sequence archive_reference].
    now rewrite !append_assoc. }
  split; [reflexivity|]. split; [now apply events_since_app|].
  split; [|split; [|split]].
  - rewrite lookup_insert_ne by congruence. unfold indexed.
    rewrite lookup_insert_ne by congruence. apply lookup_insert_eq.
  - rewrite lookup_insert_ne by congruence. exact Hidx'.
  - apply lookup_insert_eq.
  - apply (GetArchivedFileBySeq_archived (set_counter 1 sr) dstPath seq C rawData archiveName es);
      try assumption.
    + apply lookup_insert_eq.
    + cbn [files]. change (datastore (set_counter 1 sr)) with (datastore sr).
      fold dstDir. fold indexFile. fold dstFile.
      rewrite lookup_insert_ne by congruence. exact Hidx'.
Qed.

End TestMode.

(** ** Writing the index and reading it back *)
Section IndexRoundTrip.
Import GoStrings OS Storer Model IndexWrites.
Context `{GoPath}.

(** updateIndex in a world without faults appends its line to archive.index,
    which it creates when it is not there. *)
Lemma updateIndex_appends (filename archiveName seq : string) (w : World) :
  let idx := path_Join [path_Dir filename; DefaultArchiveIndex] in
  no_faults w ->
  exists w',
    Storer.updateIndex filename archiveName seq w = (Ok tt, w')
    /\ no_faults w'
    /\ files w' = <[idx := default "" (files w !! idx)
                           +:+ seq +:+ ":" +:+ archiveName +:+ String newline ""]> (files w).
Proof.
  intros idx Hnf.
  unfold Storer.updateIndex, bind, os_OpenFile, file_WriteString, ret. fold idx.
  run_io Hnf.
  destruct (files w !! idx) as [c|] eqn:Hc; run_io Hnf.
  - eexists. split; [reflexivity|]. split; [intros ev; apply Hnf|]. world.
    now rewrite Hc.
  - eexists. split; [reflexivity|]. split; [intros ev; apply Hnf|]. world.
    now rewrite lookup_insert_eq, insert_insert_eq.
Qed.

(** X10.  What updateIndex writes, the lookup reads back.  Calls of
    updateIndex for the entries [es], in order, on an index that holds the
    entries [es0] (or is not there, with [es0] empty) leave archive.index
    holding the entries [es0 ++ es] in that order and change no other file;
    the Scanner then yields them line by line, and GetArchivedFileBySeq on a
    partition with that index answers a request below the current segment by
    the floor lookup over [es0 ++ es].  The updateIndex of the uploader is the
    same function. *)
Theorem updateIndex_then_lookup
  (filename : string) (es0 es : list IndexEntry) (w : World) :
  let idx := path_Join [path_Dir filename; DefaultArchiveIndex] in
  no_faults w ->
  default "" (files w !! idx) = index_file es0 ->
  forallb valid_entry (es0 ++ es) = true ->
  (forall archiveName seq, Uploader.updateIndex filename archiveName seq
                           = Storer.updateIndex filename archiveName seq)
  /\ exists w',
       updateIndex_all filename es w = (Ok tt, w')
       /\ no_faults w'
       /\ default "" (files w' !! idx) = index_file (es0 ++ es)
       /\ (forall f, f <> idx -> files w' !! f = files w !! f)
       /\ Scanner_lines (default "" (files w' !! idx)) = map entry_line (es0 ++ es)
       /\ forall (sr : Storer) (dstPath : string) (s C : N) (payload rest : string),
            path_Join [path_Join [datastore sr; dstPath]; DefaultArchiveIndex] = idx ->
            es <> [] ->
            (C <= maxUint64)%N ->
            files w' !! path_Join [path_Join [datastore sr; dstPath]; DefaultCurrentDB]
            = Some (record_line C payload +:+ String newline rest) ->
            (s < C)%N ->
            fst (GetArchivedFileBySeq sr dstPath s w')
            = lookup_result (floor_lookup (es0 ++ es) s None).
Proof.
  intros idx Hnf Hidx Hvalid. split; [reflexivity|].
  assert (exists w',
            updateIndex_all filename es w = (Ok tt, w')
            /\ no_faults w'
            /\ default "" (files w' !! idx) = index_file (es0 ++ es)
            /\ (forall f, f <> idx -> files w' !! f = files w !! f)
            /\ (es <> [] -> files w' !! idx = Some (index_file (es0 ++ es))))
    as (w' & Hrun & Hnf' & Hidx' & Hothers & Hsome).
  { clear Hvalid. revert es0 w Hnf Hidx.
    induction es as [|e es IH]; intros es0 w Hnf Hidx.
    - exists w. rewrite app_nil_r. repeat split; try assumption. congruence.
    - cbn [updateIndex_all]. unfold bind.
      destruct (updateIndex_appends filename (archive_reference e)
                  (FormatUint (recorded_sequence e)) w Hnf) as (w1 & -> & Hnf1 & Hfiles1).
      fold idx in Hfiles1.
      assert (files w1 !! idx = Some (index_file (es0 ++ [e]))) as Hidx1.
      { rewrite Hfiles1, lookup_insert_eq, Hidx, index_file_app. cbn [index_file].
        unfold entry_line. now rewrite !append_assoc. }
      destruct (IH (es0 ++ [e]) w1 Hnf1) as (w' & Hrun & Hnf' & Hidx' & Hothers & Hsome).
      { now rewrite Hidx1. }
      rewrite <- app_assoc in Hidx', Hsome. cbn [app] in Hidx', Hsome.
      exists w'. split; [exact Hrun|]. split; [exact Hnf'|]. split; [exact Hidx'|]. split.
      + intros f Hf. rewrite (Hothers f Hf), Hfiles1. now apply lookup_insert_ne.
      + intros _. destruct es as [|e' es'].
        * cbn [updateIndex_all ret] in Hrun. injection Hrun as <-.
          exact Hidx1.
        * apply Hsome. discriminate. }
  exists w'. split; [exact Hrun|]. split; [exact Hnf'|]. split; [exact Hidx'|].
  split; [exact Hothers|]. split.
  - rewrite Hidx'. now apply Scanner_lines_index_file.
  - intros sr dstPath s C payload rest Hpath Hne Hmax Hcur Hlt.
    rewrite GetArchivedFileBySeq_eq. cbv zeta. rewrite Hpath.
    rewrite !Hnf', Hcur, first_field_record, ParseUint_FormatUint by assumption.
    apply N.leb_gt in Hlt. rewrite Hlt, (Hsome Hne).
    rewrite Scanner_lines_index_file by assumption.
    assert (scan_index s (map entry_line (es0 ++ es)) ""
            = Ok (default "" (floor_lookup (es0 ++ es) s None))) as ->
      by exact (scan_index_floor_lookup s (es0 ++ es) None Hvalid).
    destruct (floor_lookup (es0 ++ es) s None) as [ref|] eqn:Hfl; [|reflexivity].
    cbn. apply floor_lookup_nonempty in Hfl; [|assumption|discriminate].
    apply String.eqb_neq in Hfl. rewrite Hfl. reflexivity.
Qed.

End IndexRoundTrip.

Section IndexRoundTripExamples.
Import GoStrings OS Storer Model IndexWrites GoPathImpl.

(** The three entries of the floor-lookup example written by updateIndex to
    a partition that has a current segment only: 2500 is answered with B. *)
Lemma updateIndex_then_lookup_witness :
  exists w',
    updateIndex_all "datastore/p/current.db" Examples.abc_index
                    LookupEdgeExamples.never_rotated_world = (Ok tt, w')
    /\ files w' !! "datastore/p/archive.index" = Some (index_file Examples.abc_index)
    /\ fst (GetArchivedFileBySeq Examples.sr0 "p" 2500%N w') = Ok "B".
Proof.
  destruct (updateIndex_then_lookup "datastore/p/current.db" [] Examples.abc_index
              LookupEdgeExamples.never_rotated_world)
    as (_ & w' & Hrun & _ & Hidx & Hothers & _ & Hlook).
  - intros e. reflexivity.
  - reflexivity.
  - reflexivity.
  - exists w'. split; [exact Hrun|]. split.
    + change (path_Join [path_Dir "datastore/p/current.db"; DefaultArchiveIndex])
        with "datastore/p/archive.index" in Hidx.
      destruct (files w' !! "datastore/p/archive.index") as [c|]; cbn in Hidx.
      * now rewrite Hidx.
      * discriminate Hidx.
    + rewrite (Hlook Examples.sr0 "p" 2500%N 5000%N "x" "").
      * reflexivity.
      * reflexivity.
      * discriminate.
      * vm_compute. discriminate.
      * rewrite Hothers by (vm_compute; discriminate). reflexivity.
      * reflexivity.
Defined.

End IndexRoundTripExamples.

(** ** Between a rotation and the handling of its job *)
Section Window.
Import GoStrings OS Storer Model.
Context `{GoPath}.

Lemma last_reference_last (es : list IndexEntry) (afile : string) :
  IndexLines.last_reference es afile
  = match last es with Some e => archive_reference e | None => afile end.
Proof.
  revert afile. induction es as [|e es IH]; intros afile; [reflexivity|].
  cbn [IndexLines.last_reference]. rewrite IH.
  destruct es as [|e' es']; [reflexivity|]. rewrite last_cons_cons.
  destruct (last (e' :: es')) eqn:Hlast; [reflexivity|].
  now apply last_None in Hlast.
Qed.

Lemma last_valid_entry (es : list IndexEntry) (e : IndexEntry) :
  forallb valid_entry es = true -> last es = Some e -> valid_entry e = true.
Proof.
  intros Hall [es' ->]%last_Some. rewrite forallb_app in Hall.
  apply andb_true_iff in Hall as [_ He]. cbn in He. now rewrite andb_true_r in He.
Qed.

(** X11.  The window between a rotation and the handling of its job,
    outside test mode.  MsgStore has renamed the segment that started at [C]
    and the index has no entry for it yet: until the handler has appended
    one, a lookup of a sequence of that segment is not answered with the
    segment.  It ends with the error of opening archive.index when the
    partition has none, with ErrSeqNotFound when the index is empty, and
    otherwise with the reference of the last entry, an archive that ends below
    [C]. *)
Theorem rotation_before_upload
  (sr : Storer) (dstPath : string) (seq C : N) (rawData payload rest : string)
  (es : list IndexEntry) (w : World) :
  let dstDir := path_Join [datastore sr; dstPath] in
  let dstFile := path_Join [dstDir; DefaultCurrentDB] in
  let indexFile := path_Join [dstDir; DefaultArchiveIndex] in
  let content := record_line C payload +:+ String newline rest in
  let archiveName := path_Join [path_Dir dstFile; "MSG_" +:+ FormatUint C +:+ ".db"] in
  no_faults w ->
  TEST_MODE w = "" ->
  (100 <= counter sr)%N ->
  files w !! dstFile = Some content ->
  (fileSize <= Z.of_nat (String.length content))%Z ->
  (seq <= maxUint64)%N ->
  archiveName <> dstFile ->
  indexFile <> dstFile ->
  indexFile <> archiveName ->
  forallb valid_entry es = true ->
  forallb (fun e => recorded_sequence e <=? C)%N es = true ->
  exists w1,
    MsgStore sr dstPath seq rawData w = (Return (Ok dstFile), set_counter 1 sr, w1)
    /\ files w1 !! archiveName = Some content
    /\ forall s, (C <= s < seq)%N ->
         (files w !! indexFile = None ->
            fst (GetArchivedFileBySeq (set_counter 1 sr) dstPath s w1) = Err ErrNotExist)
         /\ (files w !! indexFile = Some (index_file es) ->
             fst (GetArchivedFileBySeq (set_counter 1 sr) dstPath s w1)
             = match last es with
               | Some e => Ok (archive_reference e)
               | None => Err ErrSeqNotFound
               end).
Proof.
  intros dstDir dstFile indexFile content archiveName
         Hnf Hmode Hc Hfile Hsize Hseq Hne1 Hne2 Hne3 Hvalid Hbelow.
  pose proof (MsgStore_rotate sr dstPath seq rawData content (FormatUint C) w
                Hnf Hmode Hc Hfile Hsize (first_field_record C payload rest) Hne1) as Hrot.
  cbv zeta in Hrot. fold dstDir dstFile archiveName in Hrot.
  match type of Hrot with _ = (_, _, ?x) => set (w1 := x) in * end.
  assert (files w1 !! archiveName = Some content) as Harch.
  { unfold w1. cbn [files]. rewrite lookup_insert_ne by congruence. apply lookup_insert_eq. }
  assert (files w1 !! indexFile = files w !! indexFile) as Hidx1.
  { unfold w1. cbn [files]. rewrite !lookup_insert_ne by congruence.
    apply lookup_delete_ne. congruence. }
  assert (files w1 !! dstFile = Some (record_line seq rawData +:+ String newline "")) as Hcur1
    by (unfold w1; cbn [files]; apply lookup_insert_eq).
  exists w1. split; [exact Hrot|]. split; [exact Harch|].
  intros s [HCs Hs].
  assert (forall e, faulty w1 e = false) as Hnf1 by (intros e; apply Hnf).
  rewrite GetArchivedFileBySeq_eq. cbv zeta.
  change (datastore (set_counter 1 sr)) with (datastore sr).
  fold dstDir. fold dstFile. fold indexFile.
  rewrite !Hnf1, Hcur1, first_field_record, ParseUint_FormatUint, Hidx1 by assumption.
  destruct (N.leb_spec seq s) as [?|_]; [lia|].
  split; [intros ->; reflexivity|]. intros ->.
  rewrite Scanner_lines_index_file by assumption.
  rewrite <- (app_nil_r (map entry_line es)).
  rewrite scan_index_entries_below;
    [|assumption | now apply (forallb_below_trans C s)].
  cbn [scan_index]. rewrite last_reference_last.
  destruct (last es) as [e|] eqn:Hlast; [|reflexivity].
  destruct (valid_entry_spec e (last_valid_entry es e Hvalid Hlast)) as (_ & Hne & _).
  apply String.eqb_neq in Hne. now rewrite Hne.
Qed.

End Window.

Section PipelineExamples.
Import GoStrings OS Model HandlerModel GoPathImpl.

(** The oversized segment of the example, rotated by the record 9000:hello
    and archived by the handler: 6000 is answered with the URL of the object,
    9000 with the current segment. *)
Lemma rotation_upload_lookup_witness :
  exists w1 w2,
    Storer.MsgStore RotationExamples.sr_due "p" 9000%N "hello" RotationExamples.big_world
    = (Storer.Return (Ok "datastore/p/current.db"),
       Storer.set_counter 1 RotationExamples.sr_due, w1)
    /\ Uploader.msgHandler HandlerExamples.u0 (Uploader.mkMsg "5000:datastore/p/MSG_5000.db") w1
       = (Ok tt, w2)
    /\ fst (Storer.GetArchivedFileBySeq (Storer.set_counter 1 RotationExamples.sr_due)
              "p" 6000%N w2)
       = Ok "https://example.com/msg-store/datastore/p/MSG_5000.db"
    /\ fst (Storer.GetArchivedFileBySeq (Storer.set_counter 1 RotationExamples.sr_due)
              "p" 9000%N w2)
       = Ok "datastore/p/current.db".
Proof.
  destruct (@rotation_upload_lookup go_path plain_url RotationExamples.sr_due
              HandlerExamples.u0 "p" 9000%N 5000%N "hello" "x"
              (RotationExamples.doubled 17 ("5001:y" +:+ String newline "6"))
              "example.com/msg-store/datastore/p/MSG_5000.db" []
              RotationExamples.big_world)
    as (w1 & w2 & Hstore & _ & Hrun & _ & _ & _ & _ & Hlow & Hhigh).
  - intros e. reflexivity.
  - reflexivity.
  - vm_compute. discriminate.
  - reflexivity.
  - vm_compute. discriminate.
  - vm_compute. discriminate.
  - vm_compute. discriminate.
  - vm_compute. discriminate.
  - vm_compute. discriminate.
  - vm_compute. discriminate.
  - reflexivity.
  - reflexivity.
  - reflexivity.
  - reflexivity.
  - reflexivity.
  - vm_compute. reflexivity.
  - exists w1, w2. split; [exact Hstore|]. split; [exact Hrun|]. split.
    + apply Hlow. lia.
    + apply Hhigh. lia.
Defined.

(** The same segment rotated in test mode: 6000 is answered with the path of
    the archive, and nothing is published. *)
Lemma MsgStore_rotation_test_mode_witness :
  exists w',
    Storer.MsgStore RotationExamples.sr_due "p" 9000%N "hello" TestModeExamples.big_test_world
    = (Storer.Return (Ok "datastore/p/current.db"),
       Storer.set_counter 1 RotationExamples.sr_due, w')
    /\ published w' = []
    /\ files w' !! "datastore/archive/p/MSG_5000.db" = Some RotationExamples.big_segment
    /\ fst (Storer.GetArchivedFileBySeq (Storer.set_counter 1 RotationExamples.sr_due)
              "p" 6000%N w')
       = Ok "datastore/archive/p/MSG_5000.db".
Proof.
  destruct (MsgStore_rotation_test_mode RotationExamples.sr_due "p" 9000%N 5000%N "hello" "x"
              (RotationExamples.doubled 17 ("5001:y" +:+ String newline "6")) []
              TestModeExamples.big_test_world)
    as (w' & Hstore & Hpub & _ & Harch & _ & _ & Hlow & _).
  - intros e. reflexivity.
  - vm_compute. discriminate.
  - vm_compute. discriminate.
  - reflexivity.
  - vm_compute. discriminate.
  - vm_compute. discriminate.
  - vm_compute. discriminate.
  - vm_compute. discriminate.
  - vm_compute. discriminate.
  - vm_compute. discriminate.
  - reflexivity.
  - reflexivity.
  - reflexivity.
  - reflexivity.
  - vm_compute. reflexivity.
  - exists w'. split; [exact Hstore|]. split; [exact Hpub|]. split; [exact Harch|].
    apply Hlow. lia.
Defined.

End PipelineExamples.

Section WindowExamples.
Import GoStrings OS Storer Model GoPathImpl.

(** The oversized segment of the example, which starts at 5000, rotated by
    the record 9000:hello while the index holds 1001->A: until the job is
    handled a request for 6000 is answered with A. *)
Lemma rotation_before_upload_witness :
  exists w1,
    MsgStore RotationExamples.sr_due "p" 9000%N "hello" WindowExamples.big_indexed_world
    = (Return (Ok "datastore/p/current.db"), set_counter 1 RotationExamples.sr_due, w1)
    /\ files w1 !! "datastore/p/MSG_5000.db" = Some RotationExamples.big_segment
    /\ fst (GetArchivedFileBySeq (set_counter 1 RotationExamples.sr_due) "p" 6000%N w1)
       = Ok "A".
Proof.
  destruct (rotation_before_upload RotationExamples.sr_due "p" 9000%N 5000%N "hello" "x"
              (RotationExamples.doubled 17 ("5001:y" +:+ String newline "6"))
              [mkEntry 1001 "A"] WindowExamples.big_indexed_world)
    as (w1 & Hstore & Harch & Hlook).
  - intros e. reflexivity.
  - reflexivity.
  - vm_compute. discriminate.
  - reflexivity.
  - vm_compute. discriminate.
  - vm_compute. discriminate.
  - vm_compute. discriminate.
  - vm_compute. discriminate.
  - vm_compute. discriminate.
  - reflexivity.
  - reflexivity.
  - exists w1. split; [exact Hstore|]. split; [exact Harch|].
    destruct (Hlook 6000%N) as [_ Hidx]; [lia|]. exact (Hidx eq_refl).
Defined.

End WindowExamples.

(** ** MsgStore when a call fails *)
Section MsgStoreErrors.
Import GoStrings OS Storer Model Runs.
Context `{GoPath}.

(** X12.  A rotation whose rename fails, outside test mode.  MsgStore returns
    the error of the rename; the record of the call is not stored; no file has
    changed and nothing is published; the counter is back at 0, so that the
    oversized segment is looked at again only after another 100 calls. *)
Theorem MsgStore_rotation_rename_fails
  (sr : Storer) (dstPath : string) (seq : N) (rawData content first : string) (w : World) :
  let dstDir := path_Join [datastore sr; dstPath] in
  let dstFile := path_Join [dstDir; DefaultCurrentDB] in
  let archiveName := path_Join [path_Dir dstFile; "MSG_" +:+ first +:+ ".db"] in
  let rename := EvRename dstFile archiveName in
  (forall e, e <> rename -> faulty w e = false) ->
  faulty w rename = true ->
  TEST_MODE w = "" ->
  (100 <= counter sr)%N ->
  files w !! dstFile = Some content ->
  (fileSize <= Z.of_nat (String.length content))%Z ->
  first_field content = Ok first ->
  exists w',
    MsgStore sr dstPath seq rawData w = (Return (Err ErrIO), set_counter 0 sr, w')
    /\ files w' = files w
    /\ published w' = published w
    /\ events_since w w'
       = [EvMkdirAll dstDir; EvOpenFile dstFile; EvStat dstFile; EvOpen dstFile; rename].
Proof.
  intros dstDir dstFile archiveName rename Hquiet Hrename Hmode Hc Hfile Hsize Hfirst.
  assert (faulty w (EvMkdirAll dstDir) = false) as Hf1 by (apply Hquiet; discriminate).
  assert (faulty w (EvOpenFile dstFile) = false) as Hf2 by (apply Hquiet; discriminate).
  assert (faulty w (EvStat dstFile) = false) as Hf3 by (apply Hquiet; discriminate).
  assert (faulty w (EvOpen dstFile) = false) as Hf4 by (apply Hquiet; discriminate).
  unfold MsgStore, processFilename, bind, ret, os_MkdirAll. fold dstDir. fold dstFile.
  world. rewrite Hf1. cbv beta iota zeta.
  cbn [MsgStore_loop]. unfold os_OpenFile at 1. world. rewrite Hf2, Hfile. cbv beta iota zeta.
  destruct (N.ltb_spec (counter sr) 100) as [?|_]; [lia|].
  unfold file_Stat. world. rewrite Hf3, Hfile. cbv beta iota zeta.
  destruct (Z.leb_spec fileSize (Z.of_nat (String.length content))) as [_|?]; [|lia].
  unfold archiveFile, bind. rewrite getFirstSeqFromFile_eq. world.
  rewrite Hf4, Hfile, Hfirst. unfold os_Getenv_TEST_MODE. world. cbv beta iota zeta.
  replace (negb (TEST_MODE w =? "")%string) with false by (now rewrite Hmode).
  fold archiveName. unfold os_Rename. world. fold rename. rewrite Hrename.
  eexists. split; [reflexivity|]. world. split; [reflexivity|]. split; [reflexivity|].
  apply events_since_app. world. now rewrite <- !app_assoc.
Qed.

(** X13.  What MsgStore leaves when one of its first calls fails.  A failed
    MkdirAll or OpenFile ends the call with the counter as it was.  A failed
    Stat ends it with the counter reset to 0.  A failed WriteString, on a call
    that did not check, ends it with the counter advanced all the same; the
    segment has been created by then if it was not there, and is otherwise
    as it was. *)
Theorem MsgStore_io_errors
  (sr : Storer) (dstPath : string) (seq : N) (rawData : string) (w : World) :
  let dstDir := path_Join [datastore sr; dstPath] in
  let dstFile := path_Join [dstDir; DefaultCurrentDB] in
  let line := record_line seq rawData +:+ String newline "" in
  let mkdir := EvMkdirAll dstDir in
  let open := EvOpenFile dstFile in
  let stat := EvStat dstFile in
  let write := EvWriteString dstFile line in
  let opened := <[dstFile := default "" (files w !! dstFile)]> (files w) in
  (faulty w mkdir = true ->
     MsgStore sr dstPath seq rawData w = (Return (Err ErrIO), sr, log mkdir w))
  /\ (faulty w mkdir = false -> faulty w open = true ->
      MsgStore sr dstPath seq rawData w = (Return (Err ErrIO), sr, log open (log mkdir w)))
  /\ (faulty w mkdir = false -> faulty w open = false ->
      (100 <= counter sr)%N -> faulty w stat = true ->
      exists w',
        MsgStore sr dstPath seq rawData w = (Return (Err ErrIO), set_counter 0 sr, w')
        /\ files w' = opened
        /\ events_since w w' = [mkdir; open; stat])
  /\ (faulty w mkdir = false -> faulty w open = false ->
      (counter sr < 100)%N -> faulty w write = true ->
      exists w',
        MsgStore sr dstPath seq rawData w
        = (Return (Err ErrIO), set_counter (counter sr + 1) sr, w')
        /\ files w' = opened
        /\ events_since w w' = [mkdir; open; write]).
Proof.
  intros dstDir dstFile line mkdir open stat write opened.
  assert (FormatUint seq +:+ ":" +:+ rawData +:+ String newline "" = line) as Hline.
  { unfold line, record_line. now rewrite !append_assoc. }
  unfold MsgStore, processFilename, bind, ret, os_MkdirAll. fold dstDir. fold dstFile.
  rewrite Hline. world. fold mkdir.
  split; [|split; [|split]].
  - intros ->. reflexivity.
  - intros -> Hopen. cbv beta iota zeta. cbn [MsgStore_loop]. unfold os_OpenFile. world.
    fold open. rewrite Hopen. reflexivity.
  - intros -> Hopen Hc Hstat. cbv beta iota zeta. cbn [MsgStore_loop].
    unfold os_OpenFile at 1. world. fold open. rewrite Hopen.
    destruct (N.ltb_spec (counter sr) 100) as [?|_]; [lia|].
    unfold file_Stat.
    destruct (files w !! dstFile) as [c|] eqn:Hold; world; fold stat; rewrite Hstat;
      (eexists; split; [reflexivity|]; world; split;
       [|apply events_since_app; world; now rewrite <- !app_assoc]).
    + unfold opened. cbn. now rewrite insert_id.
    + reflexivity.
  - intros -> Hopen Hc Hwrite. cbv beta iota zeta. cbn [MsgStore_loop].
    unfold os_OpenFile at 1. world. fold open. rewrite Hopen.
    destruct (N.ltb_spec (counter sr) 100) as [_|?]; [|lia].
    rewrite uint64_add_small by assumption.
    unfold file_WriteString.
    destruct (files w !! dstFile) as [c|] eqn:Hold; world; fold write; rewrite Hwrite;
      (eexists; split; [reflexivity|]; world; split;
       [|apply events_since_app; world; now rewrite <- !app_assoc]).
    + unfold opened. cbn. now rewrite insert_id.
    + reflexivity.
Qed.

(** The counter after one call. *)
Lemma MsgStore_counter_step
  (sr : Storer) (dstPath : string) (seq : N) (rawData : string) (w : World)
  (r : loop_result string) (sr' : Storer) (w' : World) :
  (counter sr <= 100)%N ->
  MsgStore sr dstPath seq rawData w = (r, sr', w') ->
  exists c, sr' = set_counter c sr /\ (c <= 100)%N.
Proof.
  intros Hc. unfold MsgStore.
  assert (sr = set_counter (counter sr) sr) as Hsame by (now destruct sr).
  destruct (processFilename sr dstPath w) as [[dstFile|e|] w0];
    [|intros [= <- <- <-]; eauto..].
  cbn [MsgStore_loop].
  destruct (os_OpenFile dstFile w0) as [[dst|e|] w1]; [|intros [= <- <- <-]; eauto..].
  destruct (N.ltb_spec (counter sr) 100) as [Hlt|Hge].
  - rewrite uint64_add_small by assumption.
    destruct (file_WriteString dst _ w1) as [[[]|e|] w2];
      intros [= <- <- <-]; exists (counter sr + 1)%N; (split; [reflexivity | lia]).
  - destruct (file_Stat dst w1) as [[size|e|] w2];
      [|intros [= <- <- <-]; exists 0%N; (split; [reflexivity | lia])..].
    destruct (fileSize <=? size)%Z.
    + destruct (archiveFile (set_counter 0 sr) dstFile w2) as [[[]|e|] w3];
        [|intros [= <- <- <-]; exists 0%N; (split; [reflexivity | lia])..].
      destruct (os_OpenFile dstFile w3) as [[dst'|e|] w4];
        [|intros [= <- <- <-]; exists 0%N; (split; [reflexivity | lia])..].
      cbn [counter set_counter N.ltb N.compare].
      destruct (file_WriteString dst' _ w4) as [[[]|e|] w5];
        intros [= <- <- <-]; exists 1%N; (split; [reflexivity | lia]).
    + destruct (file_WriteString dst _ w2) as [[[]|e|] w3];
        intros [= <- <- <-]; exists 0%N; (split; [reflexivity | lia]).
Qed.

(** X14.  The counter of a Storer never passes the check interval: whatever
    the calls, their order, their partitions and the failures they meet, a
    counter that is at most 100 (onStart sets it to 0) is at most 100 after
    every call, so that the uint64 addition never wraps; and no call changes
    the datastore, the domain or the host name of the Storer. *)
Theorem MsgStore_counter_bounded
  (calls : list (string * N * string)) (sr : Storer) (w : World)
  (r : loop_result unit) (sr' : Storer) (w' : World) :
  (counter sr <= 100)%N ->
  MsgStore_all calls sr w = (r, sr', w') ->
  (counter sr' <= 100)%N
  /\ datastore sr' = datastore sr /\ domain sr' = domain sr /\ hostname sr' = hostname sr.
Proof.
  revert sr w. induction calls as [|[[dstPath seq] rawData] calls IH]; intros sr w Hc.
  - cbn. intros [= <- <- <-]. auto.
  - cbn [MsgStore_all].
    destruct (MsgStore sr dstPath seq rawData w) as [[r1 sr1] w1] eqn:Hcall.
    destruct (MsgStore_counter_step sr dstPath seq rawData w r1 sr1 w1 Hc Hcall)
      as (c & -> & Hle).
    destruct r1 as [[dst|e|]|]; try (intros [= <- <- <-]; cbn; auto).
    intros Hrest. destruct (IH (set_counter c sr) w1 Hle Hrest) as (H1 & H2 & H3 & H4). auto.
Qed.

End MsgStoreErrors.

Section MsgStoreErrorExamples.
Import GoStrings OS Storer Model Runs GoPathImpl.

(** The oversized segment of the example stays where it is when the rename
    fails, and the record 7:hello is not stored. *)
Lemma MsgStore_rotation_rename_fails_witness :
  exists w',
    MsgStore RotationExamples.sr_due "p" 7%N "hello" FailureExamples.stuck_rotation_world
    = (Return (Err ErrIO), set_counter 0 RotationExamples.sr_due, w')
    /\ files w' = files FailureExamples.stuck_rotation_world
    /\ published w' = [].
Proof.
  destruct (MsgStore_rotation_rename_fails RotationExamples.sr_due "p" 7%N "hello"
              RotationExamples.big_segment "5000" FailureExamples.stuck_rotation_world)
    as (w' & Hrun & Hfiles & Hpub & _).
  - intros e He. destruct e; try reflexivity.
    change (String.eqb old "datastore/p/current.db"
            && String.eqb new "datastore/p/MSG_5000.db" = false).
    destruct (String.eqb_spec old "datastore/p/current.db") as [->|_]; [|reflexivity].
    destruct (String.eqb_spec new "datastore/p/MSG_5000.db") as [->|_]; [|reflexivity].
    now contradiction He.
  - reflexivity.
  - reflexivity.
  - vm_compute. discriminate.
  - reflexivity.
  - vm_compute. discriminate.
  - vm_compute. reflexivity.
  - exists w'. split; [exact Hrun|]. split; [exact Hfiles | exact Hpub].
Defined.

(** A first write to a partition that fails: the counter moves from 0 to 1
    and an empty current segment is left behind. *)
Lemma MsgStore_io_errors_witness :
  exists w',
    MsgStore Examples.sr0 "p" 7%N "hello" FailureExamples.full_disk_world
    = (Return (Err ErrIO), set_counter 1 Examples.sr0, w')
    /\ files w' !! "datastore/p/current.db" = Some "".
Proof.
  destruct (MsgStore_io_errors Examples.sr0 "p" 7%N "hello" FailureExamples.full_disk_world)
    as (_ & _ & _ & Hwrite).
  destruct (Hwrite eq_refl eq_refl) as (w' & Hrun & Hfiles & _).
  - vm_compute. reflexivity.
  - reflexivity.
  - exists w'. split; [exact Hrun|]. rewrite Hfiles. reflexivity.
Defined.

(** A run of two records, started with the counter at 99, on a disk where
    every write fails: the first call fails and ends the run. *)
Lemma MsgStore_counter_bounded_witness :
  (counter (snd (fst (MsgStore_all [("p", 1%N, "a"); ("q", 2%N, "b")]
                        (mkStorer "./datastore" 99 DefaultDomain "host1")
                        FailureExamples.full_disk_world))) <= 100)%N.
Proof.
  destruct (MsgStore_all [("p", 1%N, "a"); ("q", 2%N, "b")]
              (mkStorer "./datastore" 99 DefaultDomain "host1")
              FailureExamples.full_disk_world) as [[r sr'] w'] eqn:Hrun.
  cbn [fst snd].
  destruct (MsgStore_counter_bounded [("p", 1%N, "a"); ("q", 2%N, "b")]
              (mkStorer "./datastore" 99 DefaultDomain "host1")
              FailureExamples.full_disk_world r sr' w') as [Hle _].
  - vm_compute. discriminate.
  - exact Hrun.
  - exact Hle.
Defined.

End MsgStoreErrorExamples.

(** ** A partition that the size check never reaches *)
Section CadenceFacts.
Import GoStrings OS Storer Model Runs Cadence.
Context `{GoPath}.







End CadenceFacts.

Section CadenceExamples.
Import GoStrings OS Storer Model Runs Cadence GoPathImpl.


End CadenceExamples.

(** ** The archival handler from one delivery to the next *)
Section HandlerRetry.
Import GoStrings OS Uploader Model HandlerModel.
Context `{GoPath} `{GoURL}.

Lemma cut_before_no_sep (sep : ascii) (t a b : string) :
  cut sep t = Some (a, b) -> cut sep a = None.
Proof.
  revert a b. induction t as [|c t IH]; intros a b; cbn [cut]; [discriminate|].
  destruct (Ascii.eqb c sep) eqn:Hc; [intros [= <- <-]; reflexivity|].
  destruct (cut sep t) as [[a' b']|]; [|discriminate].
  intros [= <- <-]. cbn [cut]. now rewrite Hc, (IH a' b').
Qed.

(** The first field of a first line has no colon in it. *)
Lemma first_field_no_colon (content seq : string) :
  first_field content = Ok seq -> cut colon seq = None.
Proof.
  unfold first_field, SplitN2, index.
  destruct (ReadString_newline content) as [line| |]; [|discriminate..].
  destruct (cut colon line) as [[a b]|] eqn:Hcut; cbn; intros [= <-].
  - now apply cut_before_no_sep in Hcut.
  - exact Hcut.
Qed.

(** X16.  The job that archiveFile publishes is the text
    "<first field>:<archive path>", and the handler, which splits the data of
    a message at its first colon, gets the two back as they were, colons in
    the path included.  A message whose data has no colon makes the handler
    panic (mdata[1] is out of range) before it has made any call: the message
    is neither acknowledged nor negatively acknowledged. *)
Theorem archiveFile_job_decodes
  (sr : Storer.Storer) (filename content seq : string) (w : World) :
  let archiveName := path_Join [path_Dir filename; "MSG_" +:+ seq +:+ ".db"] in
  let subject := Storer.DefaultSubject (Storer.domain sr) (Storer.hostname sr) in
  let job := seq +:+ ":" +:+ archiveName in
  (no_faults w -> TEST_MODE w = "" ->
   files w !! filename = Some content -> first_field content = Ok seq ->
   exists w',
     Storer.archiveFile sr filename w = (Ok tt, w')
     /\ published w' = published w ++ [(subject, job, job)]
     /\ SplitN2 job = [seq; archiveName])
  /\ (forall (u : Uploader) (m : Msg) (w0 : World),
        cut colon (Data m) = None -> msgHandler u m w0 = (Panic, w0)).
Proof.
  intros archiveName subject job. split.
  - intros Hnf Hmode Hfile Hfirst.
    eexists. split; [now apply (archiveFile_publishes sr filename content seq)|].
    split; [reflexivity|].
    apply SplitN2_append. now apply first_field_no_colon with (content := content).
  - intros u m w0 Hcut. unfold msgHandler, SplitN2. rewrite Hcut. reflexivity.
Qed.

(** Run the handler's calls with what is known about the faults. *)
Ltac step_handler :=
  repeat (progress (world; cbv beta iota zeta;
                    repeat match goal with
                           | Hf : faulty _ _ = _ |- _ => rewrite Hf
                           | Hl : files _ !! _ = _ |- _ => rewrite Hl
                           | Hu : url_EscapedPath _ = _ |- _ => rewrite Hu
                           end)).

(** A delivery of a job whose segment is there: either it goes through, or
    it leaves the segment in place and archive.index as it was, created, or
    one line longer. *)
Lemma msgHandler_attempt
  (u : Uploader) (m : Msg) (seq archiveFilename data escaped : string) (w : World) :
  let bucket := bucketName u in
  let key := bucketCategory u +:+ "/" +:+ archiveFilename in
  let idx := path_Join [path_Dir archiveFilename; "archive.index"] in
  let line := seq +:+ ":" +:+ ("https://" +:+ escaped) +:+ String newline "" in
  let old := default "" (files w !! idx) in
  SplitN2 (Data m) = [seq; archiveFilename] ->
  files w !! archiveFilename = Some data ->
  url_EscapedPath (bucket +:+ "/" +:+ key) = Ok escaped ->
  idx <> archiveFilename ->
  exists w1,
    msgHandler u m w = (Ok tt, w1)
    /\ ((files w1 = delete archiveFilename (<[idx := old +:+ line]> (files w))
         /\ objects w1 !! (bucket, key) = Some (data, ACLPublicRead)
         /\ last (trace w1) = Some (EvAck (Data m)))
        \/ (files w1 !! archiveFilename = Some data
            /\ (default "" (files w1 !! idx) = old
                \/ default "" (files w1 !! idx) = old +:+ line)
            /\ forall p, p <> idx -> files w1 !! p = files w !! p)).
Proof.
  intros bucket key idx line old Hsplit Hfile Hurl Hne.
  assert (forall w1 : World,
            files w1 = files w ->
            files w1 !! archiveFilename = Some data
            /\ (default "" (files w1 !! idx) = old
                \/ default "" (files w1 !! idx) = old +:+ line)
            /\ forall p, p <> idx -> files w1 !! p = files w !! p) as Hsame.
  { intros w1 ->. split; [exact Hfile|]. split; [now left | reflexivity]. }
  assert (forall (w1 : World) (c : string),
            (c = old \/ c = old +:+ line) ->
            files w1 = <[idx := c]> (files w) ->
            files w1 !! archiveFilename = Some data
            /\ (default "" (files w1 !! idx) = old
                \/ default "" (files w1 !! idx) = old +:+ line)
            /\ forall p, p <> idx -> files w1 !! p = files w !! p) as Hins.
  { intros w1 c Hc ->. split; [now rewrite lookup_insert_ne|].
    split; [now rewrite lookup_insert_eq|].
    intros p Hp. now rewrite lookup_insert_ne by congruence. }
  unfold msgHandler. rewrite Hsplit. cbn [index lookup list_lookup].
  unfold os_ReadFile, saveFile, gcs_Copy, gcs_Close, bind, lift, ret.
  cbn [FileName Category RawData]. fold bucket. fold key.
  destruct (faulty w (EvReadFile archiveFilename)) eqn:Hread; step_handler;
    [eexists; split; [reflexivity|]; right; now apply Hsame|].
  destruct (faulty w (EvCopy bucket key data ACLPublicRead)) eqn:Hcopy; step_handler;
    [eexists; split; [reflexivity|]; right; now apply Hsame|].
  destruct (faulty w (EvClose bucket key)) eqn:Hclose; step_handler;
    [eexists; split; [reflexivity|]; right; now apply Hsame|].
  cbn [fst snd]. rewrite Hurl. step_handler.
  unfold Uploader.updateIndex, bind, ret, os_OpenFile, file_WriteString, os_RemoveAll.
  fold idx. fold line. step_handler.
  destruct (faulty w (EvOpenFile idx)) eqn:Hopen; step_handler;
    [eexists; split; [reflexivity|]; right; now apply Hsame|].
  destruct (files w !! idx) as [c|] eqn:Hidx; step_handler;
    rewrite ?lookup_insert_eq; step_handler;
    (destruct (faulty w (EvWriteString idx line)) eqn:Hwrite; step_handler;
     [eexists; split; [reflexivity|]; right;
      first [now apply Hsame | apply (Hins _ old); [now left | reflexivity]]|]);
    (destruct (faulty w (EvRemoveAll archiveFilename)) eqn:Hremove; step_handler;
     [eexists; split; [reflexivity|]; right; apply (Hins _ (old +:+ line)); [now right|];
      world; cbn; now rewrite ?insert_insert_eq|]);
    (eexists; split; [reflexivity|]; left; world; split; [|split];
     [cbn; now rewrite ?insert_insert_eq | apply lookup_insert_eq
      | rewrite last_app; reflexivity]).
Qed.

(** X17.  At-least-once delivery is enough.  For a job whose segment is
    there, whatever fails on a first delivery (the read, the upload, the index
    append, the removal) or nothing at all, a second delivery that meets no
    failure ends with an Ack and leaves the job done: the segment is removed,
    the object is in the bucket with its public-read ACL, archive.index ends
    in the line of the job, once or twice, with what it held before in front,
    and no other file has changed. *)
Theorem msgHandler_retry_completes
  (u : Uploader) (m : Msg) (seq archiveFilename data escaped : string) (w : World) :
  let bucket := bucketName u in
  let key := bucketCategory u +:+ "/" +:+ archiveFilename in
  let idx := path_Join [path_Dir archiveFilename; "archive.index"] in
  let line := seq +:+ ":" +:+ ("https://" +:+ escaped) +:+ String newline "" in
  let old := default "" (files w !! idx) in
  SplitN2 (Data m) = [seq; archiveFilename] ->
  files w !! archiveFilename = Some data ->
  url_EscapedPath (bucket +:+ "/" +:+ key) = Ok escaped ->
  idx <> archiveFilename ->
  exists w1 w2,
    msgHandler u m w = (Ok tt, w1)
    /\ msgHandler u m (set_faulty (fun _ => false) w1) = (Ok tt, w2)
    /\ last (trace w2) = Some (EvAck (Data m))
    /\ files w2 !! archiveFilename = None
    /\ objects w2 !! (bucket, key) = Some (data, ACLPublicRead)
    /\ (files w2 !! idx = Some (old +:+ line)
        \/ files w2 !! idx = Some (old +:+ line +:+ line))
    /\ (forall p, p <> idx -> p <> archiveFilename -> files w2 !! p = files w !! p).
Proof.
  intros bucket key idx line old Hsplit Hfile Hurl Hne.
  destruct (msgHandler_attempt u m seq archiveFilename data escaped w Hsplit Hfile Hurl Hne)
    as (w1 & Hfirst & [(Hfiles & Hobj & Hlast) | (Hthere & Hidx & Hframe)]).
  - exists w1, (log (EvAck (Data m)) (log (EvReadFile archiveFilename)
                                       (set_faulty (fun _ => false) w1))).
    split; [exact Hfirst|]. split.
    { rewrite (msgHandler_unread u m seq archiveFilename _ Hsplit). world.
      rewrite Hfiles, lookup_delete_eq. reflexivity. }
    world. split; [rewrite last_app; reflexivity|].
    split; [rewrite Hfiles; apply lookup_delete_eq|].
    split; [exact Hobj|].
    split; [left; rewrite Hfiles, lookup_delete_ne by congruence; apply lookup_insert_eq|].
    intros p Hp1 Hp2.
    rewrite Hfiles, lookup_delete_ne, lookup_insert_ne by (unfold idx in *; congruence).
    reflexivity.
  - eexists w1, _. split; [exact Hfirst|]. split.
    { apply (msgHandler_handled u m seq archiveFilename data escaped); try assumption;
        reflexivity. }
    unfold handled. cbn [negb faulty files trace objects set_faulty]. fold idx. fold line.
    split; [rewrite last_app; reflexivity|].
    split; [apply lookup_delete_eq|].
    split; [apply lookup_insert_eq|].
    split.
    + rewrite lookup_delete_ne by congruence. rewrite lookup_insert_eq.
      fold idx old line in Hidx.
      destruct Hidx as [-> | ->]; [now left | right; now rewrite append_assoc].
    + intros p Hp1 Hp2. rewrite lookup_delete_ne, lookup_insert_ne by congruence.
      now apply Hframe.
Qed.

End HandlerRetry.

Section HandlerRetryExamples.
Import GoStrings OS Uploader Model HandlerModel GoPathImpl HandlerExamples.

(** The segment of a partition named "a:b" is archived under a path with a
    colon; the job still splits into the sequence and that path.  A message
    that is a path and nothing else makes the handler panic. *)
Lemma archiveFile_job_decodes_witness :
  (exists w',
     Storer.archiveFile Examples.sr0 "datastore/a:b/current.db" RetryExamples.colon_world
     = (Ok tt, w')
     /\ published w' = [("onglai-msg.archive.bucket.job.host1",
                         "5000:datastore/a:b/MSG_5000.db", "5000:datastore/a:b/MSG_5000.db")]
     /\ SplitN2 "5000:datastore/a:b/MSG_5000.db" = ["5000"; "datastore/a:b/MSG_5000.db"])
  /\ msgHandler u0 RetryExamples.poison job_world = (Panic, job_world).
Proof.
  destruct (archiveFile_job_decodes Examples.sr0 "datastore/a:b/current.db" segment0 "5000"
              RetryExamples.colon_world) as [Hjob Hpanic].
  split.
  - destruct Hjob as (w' & Hrun & Hpub & Hsplit).
    + intros e. reflexivity.
    + reflexivity.
    + reflexivity.
    + reflexivity.
    + exists w'. split; [exact Hrun|]. split; [exact Hpub | exact Hsplit].
  - apply Hpanic. reflexivity.
Defined.

(** The job of the example delivered while the bucket refuses the object,
    and delivered again: the second delivery ends with the Ack, the segment
    removed and the line in the index once. *)
Lemma msgHandler_retry_completes_witness :
  exists w1 w2,
    msgHandler u0 job0 RetryExamples.bucket_down_world = (Ok tt, w1)
    /\ msgHandler u0 job0 (set_faulty (fun _ => false) w1) = (Ok tt, w2)
    /\ last (trace w2) = Some (EvAck "5000:datastore/p/MSG_5000.db")
    /\ files w2 !! "datastore/p/MSG_5000.db" = None
    /\ objects w2 !! ("example.com", "msg-store/datastore/p/MSG_5000.db")
       = Some (segment0, ACLPublicRead).
Proof.
  destruct (@msgHandler_retry_completes go_path plain_url u0 job0 "5000"
              "datastore/p/MSG_5000.db" segment0
              "example.com/msg-store/datastore/p/MSG_5000.db" RetryExamples.bucket_down_world
              eq_refl eq_refl eq_refl)
    as (w1 & w2 & H1 & H2 & Hlast & Hgone & Hobj & _).
  - vm_compute. discriminate.
  - exists w1, w2. split; [exact H1|]. split; [exact H2|]. split; [exact Hlast|].
    split; [exact Hgone | exact Hobj].
Defined.

End HandlerRetryExamples.

(** ** nakDelay over all delivery counts *)
Section BackoffRange.
Import WorkQueue Backoff.
Local Open Scope Z_scope.

Lemma wrap64_range (z : Z) : - 2 ^ 63 <= wrap64 z < 2 ^ 63.
Proof. unfold wrap64. pose proof (Z.mod_pos_bound (z + 2 ^ 63) (2 ^ 64)). lia. Qed.

(** The shift count of nakDelay for a delivery count up to 2^63. *)
Lemma shift_count_nonneg (meta : option MsgMetadata) :
  (forall md, meta = Some md -> (NumDelivered md <= 2 ^ 63)%N) ->
  0 <= wrap64 ((match meta with
                | Some md =>
                    if (0 <? NumDelivered md)%N then wrap64 (Z.of_N (NumDelivered md)) else 1
                | None => 1
                end) - 1).
Proof.
  intros Hmeta. destruct meta as [md|]; [|vm_compute; discriminate].
  specialize (Hmeta md eq_refl).
  destruct (N.ltb_spec 0 (NumDelivered md)); [|vm_compute; discriminate].
  assert (Z.of_N (NumDelivered md) < 2 ^ 63 \/ Z.of_N (NumDelivered md) = 2 ^ 63) as [Hlt | ->]
    by lia.
  - rewrite (wrap64_small (Z.of_N (NumDelivered md))) by lia.
    rewrite wrap64_small; lia.
  - vm_compute. discriminate.
Qed.

(** After the shift: whatever the product wrapped to, the delay is capped,
    the jitter is added, and a sum that is not positive is replaced. *)
Lemma nakDelay_tail (AckWait z : Z) (Int63n : Z -> Z) :
  let base := base_of AckWait in
  let cap := cap_of AckWait in
  let delay := if cap <? z then cap else z in
  let jitterRange := if delay ÷ 5 <? Millisecond then Millisecond else delay ÷ 5 in
  let finalDelay := wrap64 (delay + Int63n jitterRange) in
  draws_below Int63n ->
  0 < AckWait <= 2 ^ 62 ->
  - 2 ^ 63 <= z ->
  0 < (if finalDelay <=? 0 then base else finalDelay)
    < Z.max (base + 1) (cap + jitter_range cap).
Proof.
  intros base cap delay jitterRange finalDelay Hdraw HAck Hz.
  assert (1000000000 <= base <= 2 ^ 62) as Hbase by (unfold base, base_of, Second; lia).
  assert (0 < cap <= 2 ^ 62) as Hcap.
  { unfold cap, cap_of. destruct (Z.leb_spec (AckWait - Second) 0); unfold Second in *; lia. }
  assert (- 2 ^ 63 <= delay <= cap) as Hdelay.
  { unfold delay. destruct (Z.ltb_spec cap z); lia. }
  assert (0 < jitterRange <= jitter_range cap) as Hrange.
  { unfold jitterRange, jitter_range, Millisecond.
    destruct (Z.ltb_spec (delay ÷ 5) 1000000); lia. }
  assert (jitterRange <= Z.max 1000000 (delay ÷ 5)) as Hjr.
  { unfold jitterRange, Millisecond. destruct (Z.ltb_spec (delay ÷ 5) 1000000); lia. }
  pose proof (Hdraw jitterRange (proj1 Hrange)) as Hj.
  assert (jitter_range cap <= Z.max 1000000 (cap ÷ 5)) as Hjc
    by (unfold jitter_range, Millisecond; lia).
  assert (finalDelay = delay + Int63n jitterRange) as ->.
  { unfold finalDelay. apply wrap64_small. lia. }
  destruct (Z.leb_spec (delay + Int63n jitterRange) 0); lia.
Qed.

(** X18.  nakDelay on every delivery count.  For an AckWait of at most 2^62
    ns and a delivery count of at most 2^63, nakDelay returns a delay, and
    whatever the product base * 2^(attempt-1) wrapped to in int64, that delay
    is positive and below the larger of base + 1 and cap + max(1ms, cap/5).  A
    delivery count above 2^63 is negative as an int; the shift count is then
    negative and nakDelay panics. *)
Theorem nakDelay_total_bounded (AckWait : Z) (meta : option MsgMetadata) (Int63n : Z -> Z) :
  draws_below Int63n ->
  0 < AckWait <= 2 ^ 62 ->
  ((forall md, meta = Some md -> (NumDelivered md <= 2 ^ 63)%N) ->
   exists r,
     nakDelay AckWait meta Int63n = Ok r
     /\ 0 < r < Z.max (base_of AckWait + 1)
                      (cap_of AckWait + jitter_range (cap_of AckWait)))
  /\ (forall md, meta = Some md -> (2 ^ 63 < NumDelivered md < 2 ^ 64)%N ->
        nakDelay AckWait meta Int63n = Panic).
Proof.
  intros Hdraw HAck. split.
  - intros Hmeta. pose proof (shift_count_nonneg meta Hmeta) as Hcount.
    unfold nakDelay.
    destruct (Z.leb_spec AckWait 0) as [?|_]; [lia|].
    assert ((if AckWait ÷ 4 <? Second then Second else AckWait ÷ 4) = base_of AckWait) as ->.
    { unfold base_of. destruct (Z.ltb_spec (AckWait ÷ 4) Second); unfold Second in *; lia. }
    assert (wrap64 (AckWait - Second) = AckWait - Second) as ->
      by (apply wrap64_small; unfold Second; lia).
    fold (cap_of AckWait).
    match goal with |- context [wrap64 (?a - 1) <? 0] =>
      destruct (Z.ltb_spec (wrap64 (a - 1)) 0) as [?|_]; [lia|];
      generalize (wrap64_range (base_of AckWait * shl1 (wrap64 (a - 1))));
      generalize (wrap64 (base_of AckWait * shl1 (wrap64 (a - 1))))
    end.
    intros z [Hz _]. eexists. split; [reflexivity|].
    now apply (nakDelay_tail AckWait z Int63n).
  - intros md -> Hmd. unfold nakDelay.
    destruct (N.ltb_spec 0 (NumDelivered md)); [|lia].
    assert (wrap64 (Z.of_N (NumDelivered md)) = Z.of_N (NumDelivered md) - 2 ^ 64) as ->.
    { unfold wrap64.
      replace (Z.of_N (NumDelivered md) + 2 ^ 63)
        with (Z.of_N (NumDelivered md) - 2 ^ 63 + 1 * 2 ^ 64) by lia.
      rewrite Z.mod_add by lia. rewrite Z.mod_small; lia. }
    rewrite wrap64_small by lia.
    destruct (Z.ltb_spec (Z.of_N (NumDelivered md) - 2 ^ 64 - 1) 0); [reflexivity | lia].
Qed.

(** X19.  From the 65th delivery on the backoff is gone.  The shift
    1 << (attempt-1) is then 0 in int64, the delay before jitter is 0 and the
    jitter is drawn below one millisecond: nakDelay returns that jitter, less
    than 1ms, or base when the draw is 0, where base * 2^(attempt-1) capped at
    the cap would give the cap. *)
Theorem nakDelay_collapses (AckWait : Z) (md : MsgMetadata) (Int63n : Z -> Z) :
  let jitter := Int63n Millisecond in
  draws_below Int63n ->
  0 < AckWait < 2 ^ 63 ->
  (65 <= NumDelivered md <= 2 ^ 63)%N ->
  nakDelay AckWait (Some md) Int63n
  = Ok (if jitter =? 0 then base_of AckWait else jitter)
  /\ 0 <= jitter < Millisecond
  /\ delay_of AckWait (attempt_of (Some md)) = cap_of AckWait.
Proof.
  intros jitter Hdraw HAck Hmd.
  assert (0 <= jitter < Millisecond) as Hj by (apply Hdraw; reflexivity).
  assert (1000000000 <= base_of AckWait) as Hbase by (unfold base_of, Second; lia).
  assert (0 < cap_of AckWait < 2 ^ 63) as Hcap.
  { unfold cap_of. destruct (Z.leb_spec (AckWait - Second) 0); unfold base_of, Second in *; lia. }
  split; [|split; [exact Hj|]].
  - unfold nakDelay.
    destruct (N.ltb_spec 0 (NumDelivered md)); [|lia].
    destruct (Z.leb_spec AckWait 0) as [?|_]; [lia|].
    assert ((if AckWait ÷ 4 <? Second then Second else AckWait ÷ 4) = base_of AckWait) as ->.
    { unfold base_of. destruct (Z.ltb_spec (AckWait ÷ 4) Second); unfold Second in *; lia. }
    assert (wrap64 (AckWait - Second) = AckWait - Second) as ->
      by (apply wrap64_small; unfold Second; lia).
    fold (cap_of AckWait).
    assert (64 <= wrap64 (wrap64 (Z.of_N (NumDelivered md)) - 1)) as Hcount.
    { assert (Z.of_N (NumDelivered md) < 2 ^ 63 \/ Z.of_N (NumDelivered md) = 2 ^ 63)
        as [Hlt | ->] by lia.
      - rewrite (wrap64_small (Z.of_N (NumDelivered md))) by lia.
        rewrite wrap64_small; lia.
      - vm_compute. discriminate. }
    destruct (Z.ltb_spec (wrap64 (wrap64 (Z.of_N (NumDelivered md)) - 1)) 0); [lia|].
    unfold shl1.
    destruct (Z.leb_spec 64 (wrap64 (wrap64 (Z.of_N (NumDelivered md)) - 1))); [|lia].
    rewrite Z.mul_0_r. change (wrap64 0) with 0.
    destruct (Z.ltb_spec (cap_of AckWait) 0); [lia|].
    change (0 ÷ 5 <? Millisecond) with true. cbv iota. fold jitter.
    rewrite Z.add_0_l, wrap64_small by (unfold Millisecond in *; lia).
    destruct (Z.leb_spec jitter 0), (Z.eqb_spec jitter 0); try lia; reflexivity.
  - unfold delay_of, attempt_of.
    assert (2 ^ 64 <= 2 ^ (Z.max 1 (Z.of_N (NumDelivered md)) - 1)) as Hpow
      by (apply Z.pow_le_mono_r; lia).
    assert (2 ^ 64 <= base_of AckWait * 2 ^ (Z.max 1 (Z.of_N (NumDelivered md)) - 1)).
    { transitivity (1 * 2 ^ (Z.max 1 (Z.of_N (NumDelivered md)) - 1)); [lia|].
      apply Z.mul_le_mono_nonneg_r; lia. }
    lia.
Qed.

End BackoffRange.

Section BackoffRangeExamples.
Import WorkQueue Backoff.
Local Open Scope Z_scope.

(** The 40th delivery with the default AckWait and the largest draws: the
    product has wrapped, and the delay is still positive and below 34.8s. *)
Lemma nakDelay_total_bounded_witness :
  exists r, nakDelay DefaultAckWait (Some (mkMeta 40)) (fun n => n - 1) = Ok r
            /\ 0 < r < 34800000000.
Proof.
  destruct (nakDelay_total_bounded DefaultAckWait (Some (mkMeta 40)) (fun n => n - 1))
    as [Hok _].
  - intros n Hn. lia.
  - vm_compute. split; [reflexivity | discriminate].
  - destruct Hok as (r & Hr & Hbound).
    + intros md [= <-]. vm_compute. discriminate.
    + exists r. split; [exact Hr | exact Hbound].
Defined.

(** The 65th delivery with the default AckWait: a delay of 999999ns with the
    largest draw, of 7.5s with the draw 0. *)
Lemma nakDelay_collapses_witness :
  nakDelay DefaultAckWait (Some (mkMeta 65)) (fun n => n - 1) = Ok 999999
  /\ nakDelay DefaultAckWait (Some (mkMeta 65)) (fun _ => 0) = Ok 7500000000.
Proof.
  split.
  - apply (nakDelay_collapses DefaultAckWait (mkMeta 65) (fun n => n - 1)).
    + intros n Hn. lia.
    + vm_compute. split; reflexivity.
    + vm_compute. split; discriminate.
  - apply (nakDelay_collapses DefaultAckWait (mkMeta 65) (fun _ => 0)).
    + intros n Hn. lia.
    + vm_compute. split; reflexivity.
    + vm_compute. split; discriminate.
Defined.

End BackoffRangeExamples.

(** ** The semaphore of the work queue consumer *)
Section ConsumerBoundsFacts.
Import Consumer ConsumerBounds.

Lemma count_app (f : Task -> bool) (l1 l2 : list Task) :
  count f (l1 ++ l2) = (count f l1 + count f l2)%nat.
Proof. induction l1 as [|t l1 IH]; cbn; [reflexivity | rewrite IH; lia]. Qed.

Lemma count_insert (f : Task -> bool) (l : list Task) (i : nat) (t t' : Task) :
  l !! i = Some t ->
  (count f (<[i := t']> l) + (if f t then 1 else 0)
   = count f l + (if f t' then 1 else 0))%nat.
Proof.
  revert i. induction l as [|x l IH]; intros [|i] Hi; try discriminate.
  - injection Hi as ->. change (<[0%nat := t']> (t :: l)) with (t' :: l).
    cbn [count]. destruct (f t), (f t'); lia.
  - change (<[S i := t']> (x :: l)) with (x :: <[i := t']> l).
    cbn [count]. specialize (IH i Hi).
    destruct (f t), (f t'), (f x); lia.
Qed.

Lemma count_le (f g : Task -> bool) (l : list Task) :
  Forall (fun t => f t = true -> g t = true) l -> (count f l <= count g l)%nat.
Proof.
  induction 1 as [|t l Ht _ IH]; cbn [count]; [lia|].
  destruct (f t); [rewrite Ht by reflexivity|]; destruct (g t); lia.
Qed.

(** The invariant after one task was replaced and the semaphore adjusted. *)
Lemma bounded_set_task (K : nat) (s : State) (i : nat) (t t' : Task) (w u : nat) :
  bounded K s ->
  tasks s !! i = Some t ->
  (u + (if holds_permit t then 1 else 0)
   = in_use s + (if holds_permit t' then 1 else 0))%nat ->
  (u <= K)%nat ->
  supervised t' ->
  (cancelled s = false -> none_gave_up t') ->
  bounded K (set_counts w u (set_task i t' s)).
Proof.
  intros (HK & Huse & Hle & Hsup & Hgave) Hi Hu HuK Ht' Hg'.
  unfold bounded, permits, set_counts, set_task.
  cbn [MaxConcurrent in_use tasks cancelled].
  split; [exact HK|]. split; [|split; [exact HuK|split]].
  - pose proof (count_insert holds_permit (tasks s) i t t' Hi) as Hcount.
    unfold permits in Huse. lia.
  - now apply Forall_insert.
  - intros Hc. apply Forall_insert; [now apply Hgave | now apply Hg'].
Qed.

Lemma bounded_task (K : nat) (s : State) (i : nat) (t : Task) :
  bounded K s -> tasks s !! i = Some t ->
  supervised t /\ (cancelled s = false -> none_gave_up t)
  /\ (holds_permit t = true -> (1 <= in_use s)%nat).
Proof.
  intros (HK & Huse & Hle & Hsup & Hgave) Hi.
  split; [exact (proj1 (Forall_lookup _ _) Hsup i t Hi)|].
  split; [intros Hc; exact (proj1 (Forall_lookup _ _) (Hgave Hc) i t Hi)|].
  intros Hp. pose proof (count_insert holds_permit (tasks s) i t t Hi) as Hcount.
  rewrite list_insert_id in Hcount by assumption.
  assert (1 <= count holds_permit (tasks s))%nat; [|unfold permits in Huse; lia].
  clear - Hi Hp. revert i Hi. induction (tasks s) as [|x l IH]; intros [|i] Hi; try discriminate.
  - injection Hi as ->. cbn [count]. rewrite Hp. lia.
  - cbn [count]. specialize (IH i Hi). lia.
Qed.

(** Every action keeps the invariant. *)
Lemma fire_bounded (K : nat) (a : Action) (s s' : State) :
  bounded K s -> fire a s = Some s' -> bounded K s'.
Proof.
  intros Hinv Hfire. pose proof Hinv as (HK & Huse & Hle & Hsup & Hgave).
  destruct a; cbn [fire] in Hfire.
  - (* Deliver *)
    injection Hfire as <-. unfold bounded, permits. cbn [MaxConcurrent in_use tasks cancelled].
    split; [exact HK|]. split; [|split; [exact Hle|split]].
    + rewrite count_app. cbn. unfold permits in Huse. lia.
    + apply Forall_app. split; [exact Hsup|]. constructor; [discriminate | constructor].
    + intros Hc. apply Forall_app. split; [now apply Hgave|].
      constructor; [reflexivity | constructor].
  - (* TakePermit *)
    destruct (tasks s !! i) as [[[] h n]|] eqn:Hi; try discriminate.
    destruct (in_use s <? MaxConcurrent s)%nat eqn:Hfree; [|discriminate].
    injection Hfire as <-. apply Nat.ltb_lt in Hfree.
    destruct (bounded_task K s i _ Hinv Hi) as (Ht & _ & _).
    apply (bounded_set_task K s i _ _ _ _ Hinv Hi); cbn; try lia; try reflexivity.
    intros Hr. destruct (Ht Hr); discriminate.
  - (* TakeDrop *)
    destruct (tasks s !! i) as [[[] h n]|] eqn:Hi; try discriminate.
    destruct (cancelled s) eqn:Hc; [|discriminate]. injection Hfire as <-.
    destruct (bounded_task K s i _ Hinv Hi) as (Ht & _ & _).
    replace (set_task i _ s)
      with (set_counts (wg s) (in_use s) (set_task i (mkTask Dropped h n) s))
      by (destruct s; reflexivity).
    apply (bounded_set_task K s i _ _ _ _ Hinv Hi); cbn; try lia; try congruence.
    intros Hr. destruct (Ht Hr); discriminate.
  - (* Spawn *)
    destruct (tasks s !! i) as [[[] h n]|] eqn:Hi; try discriminate.
    injection Hfire as <-.
    apply (bounded_set_task K s i _ _ _ _ Hinv Hi); cbn; try lia; try reflexivity.
    intros _. now left.
  - (* HandlerStart *)
    destruct (tasks s !! i) as [[[] [] n]|] eqn:Hi; try discriminate; injection Hfire as <-.
    + replace (set_task i _ s)
        with (set_counts (wg s) (in_use s) (set_task i (mkTask Watching Running n) s))
        by (destruct s; reflexivity).
      apply (bounded_set_task K s i _ _ _ _ Hinv Hi); cbn; try lia; try reflexivity.
      intros _. now left.
    + destruct (bounded_task K s i _ Hinv Hi) as (_ & Hg & _).
      replace (set_task i _ s)
        with (set_counts (wg s) (in_use s) (set_task i (mkTask Abandoned Running n) s))
        by (destruct s; reflexivity).
      apply (bounded_set_task K s i _ _ _ _ Hinv Hi); cbn; try lia.
      * intros _. now right.
      * exact Hg.
  - (* HandlerReturn *)
    destruct (tasks s !! i) as [[p [] n]|] eqn:Hi; try discriminate. injection Hfire as <-.
    destruct (bounded_task K s i _ Hinv Hi) as (_ & Hg & _).
    replace (set_task i _ s)
      with (set_counts (wg s) (in_use s) (set_task i (mkTask p (Finished ok) n) s))
      by (destruct s; reflexivity).
    apply (bounded_set_task K s i _ _ _ _ Hinv Hi); try lia.
    + unfold holds_permit. cbn. lia.
    + discriminate.
    + exact Hg.
  - (* TakeDone *)
    destruct (tasks s !! i) as [[[] [] n]|] eqn:Hi; try discriminate. injection Hfire as <-.
    destruct (bounded_task K s i _ Hinv Hi) as (_ & _ & Hpos). specialize (Hpos eq_refl).
    apply (bounded_set_task K s i _ _ _ _ Hinv Hi).
    + cbn. destruct ok; cbn; lia.
    + lia.
    + discriminate.
    + intros _. destruct ok; reflexivity.
  - (* TakeTick *)
    destruct (tasks s !! i) as [[[] h n]|] eqn:Hi; try discriminate. injection Hfire as <-.
    destruct (bounded_task K s i _ Hinv Hi) as (Ht & _ & _).
    replace (set_task i _ s)
      with (set_counts (wg s) (in_use s) (set_task i (mkTask Watching h (S n)) s))
      by (destruct s; reflexivity).
    apply (bounded_set_task K s i _ _ _ _ Hinv Hi); cbn; try lia; try reflexivity.
    intros _. now left.
  - (* TakeCancel *)
    destruct (tasks s !! i) as [[[] h n]|] eqn:Hi; try discriminate.
    destruct (cancelled s) eqn:Hc; [|discriminate]. injection Hfire as <-.
    destruct (bounded_task K s i _ Hinv Hi) as (_ & _ & Hpos). specialize (Hpos eq_refl).
    apply (bounded_set_task K s i _ _ _ _ Hinv Hi); cbn; try lia; try congruence.
    intros _. now right.
  - (* ShutdownCall *)
    destruct (shutdown s); try discriminate. injection Hfire as <-.
    unfold bounded, permits. cbn [MaxConcurrent in_use tasks cancelled].
    split; [exact HK|]. split; [exact Huse|]. split; [exact Hle|]. split; [exact Hsup|].
    discriminate.
  - (* ShutdownReturn *)
    destruct (shutdown s); try discriminate. destruct (wg s); try discriminate.
    injection Hfire as <-. exact Hinv.
Qed.

Lemma run_bounded (K : nat) (sched : list Action) (s s' : State) :
  bounded K s -> run sched s = Some s' -> bounded K s'.
Proof.
  revert s. induction sched as [|a sched IH]; intros s Hinv; cbn [run].
  - now intros [= <-].
  - destruct (fire a s) as [s1|] eqn:Hfire; [|discriminate].
    apply IH. now apply (fire_bounded K a s).
Qed.

(** X20.  The semaphore of startConsuming bounds the work in flight.  In
    every state the consumer can reach, the messages that hold a permit are as
    many as the semaphore holds tokens, and at most MaxConcurrent; as long as
    the context is not cancelled every running handler belongs to one of them,
    so that at most MaxConcurrent handlers run at once.  After the
    cancellation this bound is lost: a processMessage that leaves through
    ctx.Done() gives its permit back while its handler still runs, and with
    MaxConcurrent = 1 two handlers can run at the same time. *)
Theorem semaphore_bounds_handlers (K : nat) (sched : list Action) (s : State) :
  run sched (init K) = Some s ->
  MaxConcurrent s = K
  /\ in_use s = permits s
  /\ (permits s <= K)%nat
  /\ (cancelled s = false -> (running s <= permits s)%nat /\ (running s <= K)%nat)
  /\ (exists sched' s',
        run sched' (init 1) = Some s' /\ cancelled s' = true
        /\ permits s' = 1%nat /\ running s' = 2%nat).
Proof.
  intros Hrun.
  assert (bounded K (init K)) as Hinit.
  { unfold bounded. cbn. repeat split; try lia; constructor. }
  pose proof (run_bounded K sched (init K) s Hinit Hrun) as (HK & Huse & Hle & Hsup & Hgave).
  split; [exact HK|]. split; [exact Huse|]. split; [lia|]. split.
  - intros Hc.
    assert (running s <= permits s)%nat; [|lia].
    apply count_le. specialize (Hgave Hc).
    apply Forall_forall. intros t Ht Hr.
    pose proof (proj1 (Forall_forall _ _) Hsup t Ht Hr) as [Hw | Ha].
    + unfold holds_permit. now rewrite Hw.
    + pose proof (proj1 (Forall_forall _ _) Hgave t Ht) as Hg.
      unfold none_gave_up in Hg. rewrite Ha in Hg. discriminate.
  - exists [Deliver; Deliver; TakePermit 0; Spawn 0; HandlerStart 0; ShutdownCall;
            TakeCancel 0; TakePermit 1; Spawn 1; HandlerStart 1].
    eexists. split; [reflexivity|]. repeat split.
Qed.

(** Every action keeps a consumer without permits starved. *)
Lemma fire_starved (a : Action) (s s' : State) :
  starved s -> fire a s = Some s' -> starved s'.
Proof.
  intros (HK & Huse & Hwg & Hall) Hfire.
  assert (forall i t, tasks s !! i = Some t -> waiting_for_permit t) as Hat
    by (intros i t; apply (proj1 (Forall_lookup _ _) Hall)).
  destruct a; cbn [fire] in Hfire.
  - injection Hfire as <-. unfold starved. cbn [MaxConcurrent in_use wg tasks].
    repeat split; try assumption. apply Forall_app. split; [exact Hall|].
    constructor; [|constructor]. split; [reflexivity | now left].
  - destruct (tasks s !! i) as [[[] h n]|] eqn:Hi; try discriminate.
    rewrite Huse, HK in Hfire. discriminate.
  - destruct (tasks s !! i) as [[[] h n]|] eqn:Hi; try discriminate.
    destruct (cancelled s); [|discriminate]. injection Hfire as <-.
    destruct (Hat i _ Hi) as [Hh _]. cbn in Hh. subst h.
    unfold starved, set_task. cbn [MaxConcurrent in_use wg tasks].
    repeat split; try assumption. apply Forall_insert; [exact Hall|].
    split; [reflexivity | now right].
  - destruct (tasks s !! i) as [[[] h n]|] eqn:Hi; try discriminate.
    destruct (Hat i _ Hi) as [_ [Hs | Hs]]; discriminate.
  - destruct (tasks s !! i) as [[[] [] n]|] eqn:Hi; try discriminate;
      destruct (Hat i _ Hi) as [_ [Hs | Hs]]; discriminate.
  - destruct (tasks s !! i) as [[p [] n]|] eqn:Hi; try discriminate.
    destruct (Hat i _ Hi) as [Hh _]. discriminate.
  - destruct (tasks s !! i) as [[[] [] n]|] eqn:Hi; try discriminate.
    destruct (Hat i _ Hi) as [Hh _]. discriminate.
  - destruct (tasks s !! i) as [[[] h n]|] eqn:Hi; try discriminate.
    destruct (Hat i _ Hi) as [_ [Hs | Hs]]; discriminate.
  - destruct (tasks s !! i) as [[[] h n]|] eqn:Hi; try discriminate.
    destruct (Hat i _ Hi) as [_ [Hs | Hs]]; discriminate.
  - destruct (shutdown s); try discriminate. injection Hfire as <-.
    unfold starved. cbn [MaxConcurrent in_use wg tasks]. auto.
  - destruct (shutdown s); try discriminate. destruct (wg s); try discriminate.
    injection Hfire as <-. unfold starved. cbn [MaxConcurrent in_use wg tasks]. auto.
Qed.

(** X21.  A consumer configured with MaxConcurrent = 0 processes nothing.
    Its semaphore is an unbuffered channel that nothing receives from before a
    send has gone through, so that no callback ever gets a permit: in every
    state such a consumer can reach, every delivered message waits in its
    callback or has left it through the cancellation, no handler has been
    started, nothing is acknowledged, the wait group is at 0, and a Shutdown
    that was called can return at once. *)
Theorem no_permits_no_handler (sched : list Action) (s : State) :
  run sched (init 0) = Some s ->
  wg s = 0%nat
  /\ (forall i t, tasks s !! i = Some t ->
        hdl t = NotStarted /\ (sup t = Delivered \/ sup t = Dropped))
  /\ (forall i, fire (TakePermit i) s = None)
  /\ (shutdown s = Waiting -> exists s', fire ShutdownReturn s = Some s').
Proof.
  intros Hrun.
  assert (starved s) as (HK & Huse & Hwg & Hall).
  { assert (starved (init 0)) as Hinit by (unfold starved; cbn; repeat split; constructor).
    revert Hrun Hinit. generalize (init 0).
    induction sched as [|a sched IH]; intros s0; cbn [run].
    - now intros [= <-].
    - destruct (fire a s0) as [s1|] eqn:Hfire; [|discriminate].
      intros Hrun Hinv. apply (IH s1 Hrun). now apply (fire_starved a s0). }
  split; [exact Hwg|]. split; [|split].
  - intros i t Hi. exact (proj1 (Forall_lookup _ _) Hall i t Hi).
  - intros i. cbn [fire]. destruct (tasks s !! i) as [[[] h n]|]; try reflexivity.
    now rewrite Huse, HK.
  - intros Hs. cbn [fire]. rewrite Hs, Hwg. eauto.
Qed.

End ConsumerBoundsFacts.

Section ConsumerBoundsExamples.
Import Consumer ConsumerBounds.

(** Two messages and one permit: one handler runs, the second message waits
    in its callback. *)
Lemma semaphore_bounds_handlers_witness :
  exists s,
    run [Deliver; Deliver; TakePermit 0; Spawn 0; HandlerStart 0] (init 1) = Some s
    /\ permits s = 1%nat /\ (running s <= 1)%nat
    /\ fire (TakePermit 1) s = None.
Proof.
  eexists. split; [reflexivity|].
  destruct (semaphore_bounds_handlers 1
              [Deliver; Deliver; TakePermit 0; Spawn 0; HandlerStart 0] _ eq_refl)
    as (_ & _ & _ & Hrunning & _).
  split; [reflexivity|]. split; [exact (proj2 (Hrunning eq_refl)) | reflexivity].
Defined.

(** Two messages delivered to a consumer without permits, and Shutdown. *)
Lemma no_permits_no_handler_witness :
  exists s,
    run [Deliver; Deliver; ShutdownCall; TakeDrop 0] (init 0) = Some s
    /\ wg s = 0%nat
    /\ fire (TakePermit 1) s = None
    /\ exists s', fire ShutdownReturn s = Some s'.
Proof.
  eexists. split; [reflexivity|].
  destruct (no_permits_no_handler [Deliver; Deliver; ShutdownCall; TakeDrop 0] _ eq_refl)
    as (Hwg & _ & Hpermit & Hreturn).
  split; [exact Hwg|]. split; [exact (Hpermit 1%nat) | exact (Hreturn eq_refl)].
Defined.

End ConsumerBoundsExamples.

(** ** The settings of the work queue consumer *)
Section ConsumerConfigFacts.
Import WorkQueue ConsumerConfig.
Local Open Scope Z_scope.

(** X22.  The start of startConsuming.  A negative MaxConcurrent makes it
    panic (the size of the semaphore is out of range).  Otherwise the prefetch
    is at least 1, at most MaxAckPending when that is set, and at most the
    capacity of the semaphore when there is one; with MaxConcurrent = 0 the
    semaphore has no capacity and the prefetch is still that of the default,
    10 or a smaller MaxAckPending.  The configuration of
    NewWorkQueueConsumerConfig gives a capacity and a prefetch of 10. *)
Theorem startConsuming_prefetch (cfg : WorkQueueConfig) :
  (MaxConcurrent cfg < 0 -> startConsuming_setup cfg = Panic)
  /\ (0 <= MaxConcurrent cfg ->
      exists prefetch,
        startConsuming_setup cfg = Ok (MaxConcurrent cfg, prefetch)
        /\ 1 <= prefetch
        /\ (0 < MaxAckPending cfg -> prefetch <= MaxAckPending cfg)
        /\ (0 < MaxConcurrent cfg -> prefetch <= MaxConcurrent cfg)
        /\ (MaxConcurrent cfg = 0 ->
            prefetch = if (0 <? MaxAckPending cfg) && (MaxAckPending cfg <? 10)
                       then MaxAckPending cfg else 10))
  /\ startConsuming_setup NewWorkQueueConsumerConfig = Ok (10, 10).
Proof.
  unfold startConsuming_setup, DefaultMaxConcurrent. split; [|split; [|reflexivity]].
  - intros Hneg. destruct (Z.ltb_spec (MaxConcurrent cfg) 0); [reflexivity | lia].
  - intros Hpos. destruct (Z.ltb_spec (MaxConcurrent cfg) 0); [lia|].
    eexists. split; [reflexivity|]. cbv zeta.
    destruct (Z.leb_spec (MaxConcurrent cfg) 0);
      destruct (Z.ltb_spec 0 (MaxAckPending cfg)); cbn [andb];
      repeat match goal with
             | |- context [(?a <? ?b)] => destruct (Z.ltb_spec a b)
             end;
      cbn [andb]; repeat split; intros; lia.
Qed.

(** X23.  The in-progress ticker of processMessage.  Its interval is a
    third of AckWait and never less than one second, so that NewTicker is
    never given an interval that is not positive.  For an AckWait of three
    seconds or more three ticks fit into AckWait; for an AckWait above one
    second the first tick comes before AckWait has passed; for an AckWait of
    one second or less it does not. *)
Theorem progressInterval_bounds (AckWait : Z) :
  Second <= progressInterval AckWait
  /\ (3 * Second <= AckWait -> 3 * progressInterval AckWait <= AckWait)
  /\ (Second < AckWait -> progressInterval AckWait < AckWait)
  /\ (AckWait <= Second ->
      progressInterval AckWait = Second /\ AckWait <= progressInterval AckWait).
Proof.
  unfold progressInterval, Second.
  destruct (Z.ltb_spec (AckWait ÷ 3) 1000000000); repeat split; intros; lia.
Qed.

End ConsumerConfigFacts.

Section ConsumerConfigExamples.
Import WorkQueue ConsumerConfig.
Local Open Scope Z_scope.

(** A configuration left at its zero value asks for ten messages at a time
    and has a semaphore without capacity; one with MaxConcurrent = -1 panics. *)
Lemma startConsuming_prefetch_witness :
  startConsuming_setup (mkConfig 0 0 0 0) = Ok (0, 10)
  /\ startConsuming_setup (mkConfig (-1) DefaultAckWait (-1) 10) = Panic.
Proof.
  split.
  - destruct (startConsuming_prefetch (mkConfig 0 0 0 0)) as (_ & Hok & _).
    destruct Hok as (prefetch & Hrun & _ & _ & _ & Hzero); [cbn; lia|].
    rewrite Hrun, (Hzero eq_refl). reflexivity.
  - destruct (startConsuming_prefetch (mkConfig (-1) DefaultAckWait (-1) 10)) as (Hneg & _).
    apply Hneg. cbn. lia.
Defined.

(** With the default AckWait of 30s the ticker fires every 10s; with an
    AckWait of half a second it fires after one second. *)
Lemma progressInterval_bounds_witness :
  3 * progressInterval DefaultAckWait <= DefaultAckWait
  /\ progressInterval (Second ÷ 2) = Second.
Proof.
  split.
  - destruct (progressInterval_bounds DefaultAckWait) as (_ & Hthree & _).
    apply Hthree. vm_compute. discriminate.
  - destruct (progressInterval_bounds (Second ÷ 2)) as (_ & _ & _ & Hlow).
    apply Hlow. vm_compute. discriminate.
Defined.

End ConsumerConfigExamples.

(** ** Releases, Shutdown and answers of the work queue consumer *)
Section ConsumerSettledFacts.
Import Consumer ConsumerBounds ConsumerSettled.

Lemma count_watching_pos (l : list Task) (i : nat) (t : Task) :
  l !! i = Some t -> is_watching t = true -> (1 <= count_watching l)%nat.
Proof.
  intros Hi Ht.
  pose proof (count_watching_insert l i t (mkTask Dropped NotStarted 0) Hi) as Hc.
  rewrite Ht in Hc. cbn in Hc. lia.
Qed.

Lemma find_watching (l : list Task) :
  (1 <= count_watching l)%nat -> exists i t, l !! i = Some t /\ is_watching t = true.
Proof.
  induction l as [|x l IH]; cbn [count_watching]; [lia|].
  destruct (is_watching x) eqn:Hx.
  - intros _. exists 0%nat, x. split; [reflexivity | exact Hx].
  - intros Hl. destruct IH as (i & t & Hi & Ht); [lia|].
    exists (S i), t. split; [exact Hi | exact Ht].
Qed.

(** X24.  The deferred calls of a processMessage goroutine never come up
    empty.  In every state the consumer can reach, a message whose
    processMessage is in its loop is counted by the wait group and has its
    token in the semaphore: when that goroutine returns, wg.Done() finds a
    positive counter and the receive from the semaphore finds a token. *)
Theorem releases_are_matched (K : nat) (sched : list Action) (s : State) :
  run sched (init K) = Some s ->
  forall i, supervisor_of s i = Some Watching ->
    (1 <= wg s)%nat /\ (1 <= in_use s)%nat
    /\ (forall s', fire (TakeCancel i) s = Some s' ->
          wg s = S (wg s') /\ in_use s = S (in_use s')).
Proof.
  intros Hrun i Hi. unfold supervisor_of in Hi.
  destruct (tasks s !! i) as [t|] eqn:Hti; [|discriminate]. injection Hi as Hsup.
  pose proof (run_invariant sched (init K) s (init_invariant K) Hrun) as (Hwg & _ & _).
  assert (bounded K (init K)) as Hinit.
  { unfold bounded. cbn. repeat split; try lia; constructor. }
  pose proof (run_bounded K sched (init K) s Hinit Hrun) as Hb.
  assert (1 <= wg s)%nat as H1.
  { rewrite Hwg. apply (count_watching_pos _ i t Hti). unfold is_watching. now rewrite Hsup. }
  assert (1 <= in_use s)%nat as H2.
  { destruct (bounded_task K s i t Hb Hti) as (_ & _ & Hpos). apply Hpos.
    unfold holds_permit. now rewrite Hsup. }
  split; [exact H1|]. split; [exact H2|].
  intros s'. cbn [fire]. rewrite Hti. destruct t as [p h n]. cbn in Hsup. subst p.
  destruct (cancelled s); [|discriminate]. intros [= <-]. cbn. lia.
Qed.

(** A Shutdown that waits can be brought to return by the cancellation
    branches alone. *)
Lemma drain_wait_group (n : nat) :
  forall s : State,
    invariant s -> shutdown s = Waiting -> watching s = n ->
    exists sched' s',
      run sched' s = Some s'
      /\ shutdown s' = Returned
      /\ forallb is_cancel_or_return sched' = true
      /\ length sched' = S n
      /\ forall j, handler_of s' j = handler_of s j.
Proof.
  induction n as [|n IH]; intros s Hinv Hs Hw.
  - exists [ShutdownReturn]. destruct Hinv as (Hwg & _ & _).
    cbn [run fire]. rewrite Hs, Hwg, Hw. eexists. split; [reflexivity|].
    repeat split.
  - destruct (find_watching (tasks s)) as (i & t & Hi & Ht); [unfold watching in Hw; lia|].
    destruct t as [p h k]. unfold is_watching in Ht. cbn in Ht.
    destruct p; try discriminate.
    pose proof Hinv as (Hwg & Hsh & _).
    assert (cancelled s = true) as Hc by (apply Hsh; congruence).
    assert (fire (TakeCancel i) s
            = Some (set_counts (pred (wg s)) (pred (in_use s))
                      (set_task i (mkTask Abandoned h k) s))) as Hfire.
    { cbn [fire]. now rewrite Hi, Hc. }
    set (s1 := set_counts (pred (wg s)) (pred (in_use s))
                 (set_task i (mkTask Abandoned h k) s)) in *.
    pose proof (fire_invariant _ _ _ Hinv Hfire) as Hinv1.
    destruct (IH s1 Hinv1) as (sched' & s' & Hrun & Hret & Hall & Hlen & Hh).
    + exact Hs.
    + destruct Hinv1 as (Hwg1 & _ & _). rewrite <- Hwg1. unfold s1. cbn [wg set_counts].
      rewrite Hwg, Hw. reflexivity.
    + exists (TakeCancel i :: sched'), s'. cbn [run]. rewrite Hfire.
      split; [exact Hrun|]. split; [exact Hret|]. split; [cbn; exact Hall|].
      split; [cbn; now rewrite Hlen|].
      intros j. rewrite Hh. unfold handler_of, s1, set_counts. cbn [tasks].
      rewrite (lookup_set_task s i j _ _ Hi).
      destruct (decide (i = j)) as [<-|_]; [now rewrite Hi | reflexivity].
Qed.

(** X25.  Shutdown never depends on a handler.  From every state the
    consumer can reach in which Shutdown has cancelled the context and waits,
    there is a way on for it to return, made of the cancellation branches of
    the processMessage goroutines that are still in their loop, one step each,
    and the return of wg.Wait(); on that way no handler has started, finished
    or been waited for. *)
Theorem Shutdown_can_return (K : nat) (sched : list Action) (s : State) :
  run sched (init K) = Some s ->
  shutdown s = Waiting ->
  exists sched' s',
    run sched' s = Some s'
    /\ shutdown s' = Returned
    /\ forallb is_cancel_or_return sched' = true
    /\ length sched' = S (watching s)
    /\ forall j, handler_of s' j = handler_of s j.
Proof.
  intros Hrun Hs.
  apply drain_wait_group; [|exact Hs | reflexivity].
  exact (run_invariant sched (init K) s (init_invariant K) Hrun).
Qed.

(** An action leaves alone the supervisor of a message that was answered. *)
Lemma fire_settled (a : Action) (s s' : State) (i : nat) (p : Supervisor) :
  fire a s = Some s' ->
  supervisor_of s i = Some p -> is_settled p = true ->
  supervisor_of s' i = Some p.
Proof.
  unfold supervisor_of. intros Hfire Hp Hset.
  destruct (tasks s !! i) as [ti|] eqn:Hti; [|discriminate].
  injection Hp as <-.
  assert (forall j tj tj' w u,
            tasks s !! j = Some tj ->
            (j = i -> sup tj' = sup ti) ->
            sup <$> tasks (set_counts w u (set_task j tj' s)) !! i = Some (sup ti)) as Hput.
  { intros j tj tj' w u Hj Hsame. unfold set_counts. cbn [tasks].
    rewrite (lookup_set_task s j i tj tj' Hj).
    destruct (decide (j = i)) as [->|_]; [cbn; f_equal; now apply Hsame | now rewrite Hti]. }
  assert (forall j tj tj',
            tasks s !! j = Some tj ->
            (j = i -> sup tj' = sup ti) ->
            sup <$> tasks (set_task j tj' s) !! i = Some (sup ti)) as Hput'.
  { intros j tj tj' Hj Hsame. apply (Hput j tj tj' (wg s) (in_use s) Hj Hsame). }
  destruct a; cbn [fire] in Hfire.
  - injection Hfire as <-. cbn [tasks].
    rewrite (lookup_app_l_Some _ _ _ _ Hti). reflexivity.
  - destruct (tasks s !! i0) as [[[] h n]|] eqn:Hi; try discriminate.
    destruct (in_use s <? MaxConcurrent s)%nat; [|discriminate]. injection Hfire as <-.
    apply (Hput _ _ _ _ _ Hi). intros ->. rewrite Hti in Hi. injection Hi as ->. discriminate.
  - destruct (tasks s !! i0) as [[[] h n]|] eqn:Hi; try discriminate.
    destruct (cancelled s); [|discriminate]. injection Hfire as <-.
    apply (Hput' _ _ _ Hi). intros ->. rewrite Hti in Hi. injection Hi as ->. discriminate.
  - destruct (tasks s !! i0) as [[[] h n]|] eqn:Hi; try discriminate.
    injection Hfire as <-.
    apply (Hput _ _ _ _ _ Hi). intros ->. rewrite Hti in Hi. injection Hi as ->. discriminate.
  - destruct (tasks s !! i0) as [[[] [] n]|] eqn:Hi; try discriminate; injection Hfire as <-;
      apply (Hput' _ _ _ Hi); intros ->; rewrite Hti in Hi; injection Hi as ->;
      first [reflexivity | discriminate].
  - destruct (tasks s !! i0) as [[p0 [] n]|] eqn:Hi; try discriminate. injection Hfire as <-.
    apply (Hput' _ _ _ Hi). intros ->. rewrite Hti in Hi. injection Hi as ->. reflexivity.
  - destruct (tasks s !! i0) as [[[] [] n]|] eqn:Hi; try discriminate. injection Hfire as <-.
    apply (Hput _ _ _ _ _ Hi). intros ->. rewrite Hti in Hi. injection Hi as ->. discriminate.
  - destruct (tasks s !! i0) as [[[] h n]|] eqn:Hi; try discriminate. injection Hfire as <-.
    apply (Hput' _ _ _ Hi). intros ->. rewrite Hti in Hi. injection Hi as ->. discriminate.
  - destruct (tasks s !! i0) as [[[] h n]|] eqn:Hi; try discriminate.
    destruct (cancelled s); [|discriminate]. injection Hfire as <-.
    apply (Hput _ _ _ _ _ Hi). intros ->. rewrite Hti in Hi. injection Hi as ->. discriminate.
  - destruct (shutdown s); try discriminate. injection Hfire as <-. cbn [tasks].
    now rewrite Hti.
  - destruct (shutdown s); try discriminate. destruct (wg s); try discriminate.
    injection Hfire as <-. cbn [tasks]. now rewrite Hti.
Qed.

(** Every action keeps every answer right. *)
Lemma fire_answered_right (a : Action) (s s' : State) :
  Forall answered_right (tasks s) -> fire a s = Some s' -> Forall answered_right (tasks s').
Proof.
  intros Hall Hfire.
  assert (forall i t, tasks s !! i = Some t -> answered_right t) as Hat
    by (intros i t; apply (proj1 (Forall_lookup _ _) Hall)).
  assert (forall i t' w u, answered_right t' ->
            Forall answered_right (tasks (set_counts w u (set_task i t' s)))) as Hput.
  { intros i t' w u Ht'. unfold set_counts, set_task. cbn [tasks]. now apply Forall_insert. }
  assert (forall i t', answered_right t' ->
            Forall answered_right (tasks (set_task i t' s))) as Hput'.
  { intros i t' Ht'. unfold set_task. cbn [tasks]. now apply Forall_insert. }
  destruct a; cbn [fire] in Hfire.
  - injection Hfire as <-. cbn [tasks]. apply Forall_app. split; [exact Hall|].
    constructor; [split; discriminate | constructor].
  - destruct (tasks s !! i) as [[[] h n]|] eqn:Hi; try discriminate.
    destruct (in_use s <? MaxConcurrent s)%nat; [|discriminate]. injection Hfire as <-.
    apply Hput. split; discriminate.
  - destruct (tasks s !! i) as [[[] h n]|] eqn:Hi; try discriminate.
    destruct (cancelled s); [|discriminate]. injection Hfire as <-.
    apply Hput'. split; discriminate.
  - destruct (tasks s !! i) as [[[] h n]|] eqn:Hi; try discriminate.
    injection Hfire as <-. apply Hput. split; discriminate.
  - destruct (tasks s !! i) as [[[] [] n]|] eqn:Hi; try discriminate; injection Hfire as <-;
      apply Hput'; split; discriminate.
  - destruct (tasks s !! i) as [[p [] n]|] eqn:Hi; try discriminate. injection Hfire as <-.
    apply Hput'. destruct (Hat i _ Hi) as [Ha Hn]. cbn in *.
    split; intros Hp; [specialize (Ha Hp) | specialize (Hn Hp)]; discriminate.
  - destruct (tasks s !! i) as [[[] [] n]|] eqn:Hi; try discriminate. injection Hfire as <-.
    apply Hput. destruct ok; split; cbn; first [reflexivity | discriminate].
  - destruct (tasks s !! i) as [[[] h n]|] eqn:Hi; try discriminate. injection Hfire as <-.
    apply Hput'. split; discriminate.
  - destruct (tasks s !! i) as [[[] h n]|] eqn:Hi; try discriminate.
    destruct (cancelled s); [|discriminate]. injection Hfire as <-.
    apply Hput. split; discriminate.
  - destruct (shutdown s); try discriminate. injection Hfire as <-. exact Hall.
  - destruct (shutdown s); try discriminate. destruct (wg s); try discriminate.
    injection Hfire as <-. exact Hall.
Qed.

Lemma run_settled (sched : list Action) :
  forall (s s' : State) (i : nat) (p : Supervisor),
    run sched s = Some s' ->
    supervisor_of s i = Some p -> is_settled p = true ->
    supervisor_of s' i = Some p.
Proof.
  induction sched as [|a sched IH]; intros s s' i p; cbn [run].
  - now intros [= <-].
  - destruct (fire a s) as [s1|] eqn:Hfire; [|discriminate].
    intros Hrun Hp Hset. apply (IH s1 s' i p Hrun); [|exact Hset].
    now apply (fire_settled a s).
Qed.

(** X26.  A message is answered once, and by what its handler returned.  In
    every state the consumer can reach, an acknowledged message has a handler
    that returned nil and a negatively acknowledged one a handler that
    returned an error; and whatever happens afterwards, Shutdown included, a
    message that was acknowledged stays acknowledged and one that was
    negatively acknowledged stays so: processMessage answers no message
    twice. *)
Theorem answered_once (K : nat) (sched : list Action) (s : State) :
  run sched (init K) = Some s ->
  (forall i, supervisor_of s i = Some Acked -> handler_of s i = Some (Finished true))
  /\ (forall i, supervisor_of s i = Some Nakked -> handler_of s i = Some (Finished false))
  /\ (forall sched' s' i p,
        run sched' s = Some s' ->
        supervisor_of s i = Some p -> is_settled p = true ->
        supervisor_of s' i = Some p).
Proof.
  intros Hrun.
  assert (Forall answered_right (tasks s)) as Hall.
  { assert (Forall answered_right (tasks (init K))) as Hinit by constructor.
    revert Hrun Hinit. generalize (init K).
    induction sched as [|a sched IH]; intros s0; cbn [run].
    - now intros [= <-].
    - destruct (fire a s0) as [s1|] eqn:Hfire; [|discriminate].
      intros Hrun Hinv. apply (IH s1 Hrun). now apply (fire_answered_right a s0). }
  assert (forall i t, tasks s !! i = Some t -> answered_right t) as Hat
    by (intros i t; apply (proj1 (Forall_lookup _ _) Hall)).
  split; [|split].
  - intros i. unfold supervisor_of, handler_of.
    destruct (tasks s !! i) as [t|] eqn:Hti; [|discriminate].
    intros [= Hp]. cbn. f_equal. now apply (Hat i t Hti).
  - intros i. unfold supervisor_of, handler_of.
    destruct (tasks s !! i) as [t|] eqn:Hti; [|discriminate].
    intros [= Hp]. cbn. f_equal. now apply (Hat i t Hti).
  - intros sched' s' i p. apply run_settled.
Qed.

End ConsumerSettledFacts.

Section ConsumerSettledExamples.
Import Consumer ConsumerBounds ConsumerSettled.

(** One message whose processMessage is in its loop when the context is
    cancelled: its return takes the wait group and the semaphore from 1 to 0. *)
Lemma releases_are_matched_witness :
  exists s s',
    run [Deliver; TakePermit 0; Spawn 0; ShutdownCall] (init 1) = Some s
    /\ fire (TakeCancel 0) s = Some s'
    /\ wg s = S (wg s') /\ in_use s = S (in_use s').
Proof.
  eexists. eexists. split; [reflexivity|]. split; [reflexivity|].
  destruct (releases_are_matched 1 [Deliver; TakePermit 0; Spawn 0; ShutdownCall] _ eq_refl
              0%nat eq_refl) as (_ & _ & Hrel).
  exact (Hrel _ eq_refl).
Defined.

(** One handler that runs when Shutdown is called, and never returns:
    Shutdown returns after two steps. *)
Lemma Shutdown_can_return_witness :
  exists sched' s',
    run (([Deliver; TakePermit 0; Spawn 0; HandlerStart 0; ShutdownCall] ++ sched'))
        (init 1) = Some s'
    /\ shutdown s' = Returned
    /\ length sched' = 2%nat
    /\ handler_of s' 0 = Some Running.
Proof.
  destruct (Shutdown_can_return 1 [Deliver; TakePermit 0; Spawn 0; HandlerStart 0; ShutdownCall]
              _ eq_refl eq_refl) as (sched' & s' & Hrun & Hret & _ & Hlen & Hh).
  exists sched', s'. rewrite run_app. cbn [run fire]. cbn.
  split; [exact Hrun|]. split; [exact Hret|]. split; [exact Hlen|].
  rewrite Hh. reflexivity.
Defined.

(** A message acknowledged before Shutdown is acknowledged after it. *)
Lemma answered_once_witness :
  exists s s',
    run [Deliver; TakePermit 0; Spawn 0; HandlerStart 0; HandlerReturn 0 true; TakeDone 0]
        (init 1) = Some s
    /\ run [ShutdownCall; ShutdownReturn] s = Some s'
    /\ handler_of s 0 = Some (Finished true)
    /\ supervisor_of s' 0 = Some Acked.
Proof.
  eexists. eexists. split; [reflexivity|]. split; [reflexivity|].
  destruct (answered_once 1
              [Deliver; TakePermit 0; Spawn 0; HandlerStart 0; HandlerReturn 0 true; TakeDone 0]
              _ eq_refl) as (Hack & _ & Hstay).
  split; [exact (Hack 0%nat eq_refl)|].
  exact (Hstay [ShutdownCall; ShutdownReturn] _ 0%nat Acked eq_refl eq_refl eq_refl).
Defined.

End ConsumerSettledExamples.
